(** * Visual Product Matcher: the index build / search core of [backend/app.py]

    A shallow embedding of the catalog normaliser, the remote fetch helper,
    the index builder, the startup loader and the [/search] route, with the
    properties of the design document settled against it.
    The last part adds properties of the same code that the design document
    does not state, of the health report and the CORS origins, and of two
    scripts of [backend/tools]: the CSV validator and the catalog updater.

    Conventions of the embedding:
    - Python [str] values are [string]s (ASCII); [str.strip] and [str.lower]
      are written out for the ASCII range.
    - A float is the rational it denotes ([Q]). What an addition, a
      division or a dot product of floats rounds its result to is decided
      by the world the code runs in; the worked examples round to binary32
      as [numpy] does for [float32] arrays.
    - A Python exception is a value of [exn]; a call that may raise returns
      [result A]. A call into a library returns a [lib_result A]: it can
      throw, but never the web framework's [HTTPException].
    - The network, image decoding, the feature extractor, [pathlib]'s
      [stem], [numpy.linalg.norm] and [numpy.argsort] are external to the
      repository; they are the fields of a [World] the code runs in.
    - [np.vstack] and the product [embeddings @ qvec] raise [ValueError]
      when the dimensions disagree; [np.save] and [write_text] can fail,
      and say what they leave in the file when they do.
    - A request served while a build runs reads the three globals one by
      one, at the moments [search] reads them. *)

From Stdlib Require Import List String Ascii Bool Arith ZArith QArith Lia.
From Stdlib Require Import Permutation Sorted Lqa Qpower DecimalString.
From Stdlib Require DecimalZ.
Import ListNotations.

Local Close Scope Q_scope.
Local Open Scope string_scope.
Local Open Scope list_scope.

(** ** Exceptions and fallible calls *)

Inductive exn : Type :=
| HTTPException (status_code : Z) (detail : string)
| Exception (cls : string) (msg : string).

(** [str(e)] as used in the f-strings of the routes. *)
Definition str_exn (e : exn) : string :=
  match e with
  | HTTPException s d =>
      NilZero.string_of_int (Z.to_int s) ++ ": " ++ d
  | Exception _ m => m
  end.

Inductive result (A : Type) : Type :=
| Ok (a : A)
| Raise (e : exn).

Arguments Ok {A} a.
Arguments Raise {A} e.

Definition bind {A B : Type} (r : result A) (k : A -> result B) : result B :=
  match r with
  | Ok a => k a
  | Raise e => Raise e
  end.

Notation "x <- r ;; k" := (bind r (fun x => k))
  (at level 61, r at next level, right associativity).

Definition is_ok {A : Type} (r : result A) : bool :=
  match r with Ok _ => true | Raise _ => false end.

(** A call into a library (pandas, requests, PIL, the model) returns or
    throws one of that library's exceptions; it never throws the web
    framework's [HTTPException]. *)
Inductive lib_result (A : Type) : Type :=
| Returns (a : A)
| Throws (cls : string) (msg : string).

Arguments Returns {A} a.
Arguments Throws {A} cls msg.

Definition call {A : Type} (r : lib_result A) : result A :=
  match r with
  | Returns a => Ok a
  | Throws c m => Raise (Exception c m)
  end.

(** ** Strings *)

Module Str.

(** The ASCII characters for which [str.isspace] holds. *)
Definition is_space (c : ascii) : bool :=
  let n := nat_of_ascii c in
  ((9 <=? n)%nat && (n <=? 13)%nat) || ((28 <=? n)%nat && (n <=? 32)%nat).

Fixpoint lstrip_chars (l : list ascii) : list ascii :=
  match l with
  | [] => []
  | c :: r => if is_space c then lstrip_chars r else l
  end.

Definition strip_chars (l : list ascii) : list ascii :=
  rev (lstrip_chars (rev (lstrip_chars l))).

(** [s.strip()] *)
Definition strip (s : string) : string :=
  string_of_list_ascii (strip_chars (list_ascii_of_string s)).

Definition lower_char (c : ascii) : ascii :=
  let n := nat_of_ascii c in
  if (65 <=? n)%nat && (n <=? 90)%nat then ascii_of_nat (n + 32) else c.

(** [s.lower()] *)
Definition lower (s : string) : string :=
  string_of_list_ascii (map lower_char (list_ascii_of_string s)).

(** [k in s] for strings. *)
Fixpoint contains (k s : string) : bool :=
  prefix k s ||
  match s with
  | EmptyString => false
  | String _ r => contains k r
  end.

(** [x in l] for a list of strings. *)
Definition mem (x : string) (l : list string) : bool :=
  existsb (String.eqb x) l.

(** Truthiness of a Python string. *)
Definition nonempty (s : string) : bool := negb (s =? "").

End Str.

(** ** A POSIX reading of [pathlib.Path(s).stem]

    Used where a concrete stem function is needed; the normaliser itself is
    stated for any stem function. *)

Module PosixPath.

Fixpoint split_slash (l : list ascii) (cur : list ascii) : list (list ascii) :=
  match l with
  | [] => [rev cur]
  | c :: r =>
      if Ascii.eqb c "/"%char then rev cur :: split_slash r []
      else split_slash r (c :: cur)
  end.

Definition is_part (p : list ascii) : bool :=
  match p with
  | [] => false
  | [c] => negb (Ascii.eqb c "."%char)
  | _ => true
  end.

(** The final path component, [""] when there is none. *)
Definition name (s : string) : list ascii :=
  last (filter is_part (split_slash (list_ascii_of_string s) [])) [].

(** [l.rfind('.')], as an option. *)
Fixpoint rfind_dot (l : list ascii) (i : nat) (found : option nat) : option nat :=
  match l with
  | [] => found
  | c :: r =>
      rfind_dot r (S i) (if Ascii.eqb c "."%char then Some i else found)
  end.

Definition stem (s : string) : string :=
  let n := name s in
  match rfind_dot n 0 None with
  | Some i =>
      if (0 <? i)%nat && (i <? List.length n - 1)%nat
      then string_of_list_ascii (firstn i n)
      else string_of_list_ascii n
  | None => string_of_list_ascii n
  end.

End PosixPath.

(** ** Data frames

    A [pandas.DataFrame] whose cells are all strings ([dtype=str] followed
    by [fillna("")]), kept column by column as pandas does. *)

Definition Series := list string.
Definition DataFrame := list (string * Series).

Module DF.

Definition columns (d : DataFrame) : list string := map fst d.

(** [c in d.columns] *)
Definition has_col (c : string) (d : DataFrame) : bool :=
  Str.mem c (columns d).

Fixpoint get_col_opt (c : string) (d : DataFrame) : option Series :=
  match d with
  | [] => None
  | (n, v) :: r => if n =? c then Some v else get_col_opt c r
  end.

(** [d[c]] for a column known to be present. *)
Definition get_col (c : string) (d : DataFrame) : Series :=
  match get_col_opt c d with
  | Some v => v
  | None => []
  end.

Fixpoint replace_col (c : string) (v : Series) (d : DataFrame) : DataFrame :=
  match d with
  | [] => []
  | (n, w) :: r =>
      if n =? c then (n, v) :: r else (n, w) :: replace_col c v r
  end.

(** [d[c] = v]: an existing column is replaced where it stands, a new one
    is appended. *)
Definition set_col (c : string) (v : Series) (d : DataFrame) : DataFrame :=
  if has_col c d then replace_col c v d else d ++ [(c, v)].

(** [d.rename(columns={old: new})] *)
Definition rename_col (old new : string) (d : DataFrame) : DataFrame :=
  map (fun '(n, v) => (if n =? old then new else n, v)) d.

Fixpoint mask_series {A : Type} (mask : list bool) (v : list A) : list A :=
  match mask, v with
  | true :: m, x :: r => x :: mask_series m r
  | false :: m, _ :: r => mask_series m r
  | _, _ => []
  end.

(** [d[mask]] followed by [reset_index(drop=True)]. *)
Definition mask_rows (mask : list bool) (d : DataFrame) : DataFrame :=
  map (fun '(n, v) => (n, mask_series mask v)) d.

Definition nrows (d : DataFrame) : nat :=
  match d with
  | [] => 0
  | (_, v) :: _ => List.length v
  end.

(** A row as a [pandas.Series]: column name to cell. *)
Definition Row := list (string * string).

Definition row_at (i : nat) (d : DataFrame) : Row :=
  map (fun '(n, v) => (n, nth i v "")) d.

(** [d.iterrows()], rows only. *)
Definition iterrows (d : DataFrame) : list Row :=
  map (fun i => row_at i d) (seq 0 (nrows d)).

(** [row.get(c)] *)
Fixpoint row_get (c : string) (r : Row) : option string :=
  match r with
  | [] => None
  | (n, v) :: t => if n =? c then Some v else row_get c t
  end.

End DF.

(** ** Dataset normaliser: [_detect_image_column] and [_load_csv_filtered] *)

Section Normalizer.

(** [lambda x: Path(str(x)).stem], from [pathlib]. *)
Variable stem : string -> string.

Definition image_keywords : list string :=
  ["image"; "img"; "photo"; "picture"; "url"].

Definition preferred_image_columns : list string :=
  ["image_url"; "image"; "url"; "img"; "imageUrl"].

Definition _detect_image_column (d : DataFrame) : result string :=
  let candidates :=
    filter (fun c => existsb (fun k => Str.contains k (Str.lower c)) image_keywords)
           (DF.columns d) in
  match find (fun pref => DF.has_col pref d) preferred_image_columns with
  | Some pref => Ok pref
  | None =>
      match candidates with
      | c :: _ => Ok c
      | [] => Raise (Exception "ValueError"
                "products.csv must contain an image column (e.g. 'image_url', 'image', 'url', 'img')")
      end
  end.

(** [lambda x: Path(str(x)).stem if str(x).strip() else ""] *)
Definition stem_or_empty (x : string) : string :=
  if Str.nonempty (Str.strip x) then stem x else "".

Definition null_tokens : list string := [""; "nan"; "none"; "null"].

(** One cell of [id_series.str.lower().isin(["", "nan", "none", "null"])]. *)
Definition null_like (s : string) : bool :=
  Str.mem (Str.lower s) null_tokens.

(** [d.loc[mask, c] = fill]: cell by cell, the fill value where the mask
    holds and the old value elsewhere. *)
Fixpoint fill_where (mask : list bool) (fill old : Series) : Series :=
  match mask, fill, old with
  | m :: ms, f :: fs, o :: os => (if m then f else o) :: fill_where ms fs os
  | _, _, _ => []
  end.

(** The "Ensure ID handling" block of [_load_csv_filtered] (the frame
    already has its [image_url] column). *)
Definition assign_ids (d : DataFrame) : DataFrame :=
  let stems := map stem_or_empty (DF.get_col "image_url" d) in
  if negb (DF.has_col "id" d) then
    if DF.has_col "sku" d
       && existsb Str.nonempty (map Str.strip (DF.get_col "sku" d))
    then DF.set_col "id" (map Str.strip (DF.get_col "sku" d)) d
    else DF.set_col "id" stems d
  else
    let id_series := map Str.strip (DF.get_col "id" d) in
    let null_mask := map null_like id_series in
    if forallb (fun b => b) null_mask then DF.set_col "id" stems d
    else
      let d1 := DF.set_col "id" id_series d in
      if existsb (fun b => b) null_mask
      then DF.set_col "id" (fill_where null_mask stems id_series) d1
      else d1.

(** The catalog file: absent, unreadable by [pd.read_csv], or a table
    (after [fillna("")]). *)
Definition csv_file := option (lib_result DataFrame).

Definition _load_csv_filtered (csv : csv_file) : result DataFrame :=
  match csv with
  | None => Raise (Exception "FileNotFoundError" "products.csv not found")
  | Some parsed =>
      d0 <- call parsed ;;
      img_col <- _detect_image_column d0 ;;
      let d1 := if negb (img_col =? "image_url")
                then DF.rename_col img_col "image_url" d0 else d0 in
      let d2 := DF.set_col "image_url"
                  (map Str.strip (DF.get_col "image_url" d1)) d1 in
      let d3 := DF.mask_rows
                  (map Str.nonempty (DF.get_col "image_url" d2)) d2 in
      let d4 := assign_ids d3 in
      let d5 := DF.set_col "id" (map Str.strip (DF.get_col "id" d4)) d4 in
      Ok (DF.mask_rows
            (map (fun '(i, u) => Str.nonempty i && Str.nonempty u)
                 (combine (DF.get_col "id" d5) (DF.get_col "image_url" d5)))
            d5)
  end.

(** The id cascade in the words of the design document: the [id] column
    when it is not wholly null-like, else the [sku] column when it has a
    non-empty value, else the stems. *)
Definition cascade_as_documented (d : DataFrame) : Series :=
  let stems := map stem_or_empty (DF.get_col "image_url" d) in
  let id_series := map Str.strip (DF.get_col "id" d) in
  if DF.has_col "id" d && negb (forallb null_like id_series)
  then fill_where (map null_like id_series) stems id_series
  else if DF.has_col "sku" d
          && existsb Str.nonempty (map Str.strip (DF.get_col "sku" d))
  then map Str.strip (DF.get_col "sku" d)
  else stems.

End Normalizer.

(** A frame is rectangular when all its columns have the same length. *)
Definition rectangular (d : DataFrame) : Prop :=
  Forall (fun c => List.length (snd c) = DF.nrows d) d.


(** ** Vectors and the index matrix

    A [numpy] array of floats. Every float is a rational, so a component is
    a [Q]; what a float operation rounds its result to is not fixed here but
    taken from the world the code runs in. *)

Definition Vec := list Q.
Definition Matrix := list Vec.

(** The exact sum of the squares of the components: the square of the
    Euclidean norm of the vector as stored. *)
Definition sumsq (v : Vec) : Q :=
  fold_right (fun x s => (x * x + s)%Q) 0%Q v.

Definition Qltb (x y : Q) : bool := negb (Qle_bool y x).

(** ** The world outside the repository *)

Definition Headers := list (string * string).

(** What [json.loads(IDS_PATH.read_text())] yields: something iterable,
    given by the [str] of its items, or a value that cannot be iterated. *)
Inductive ids_artifact : Type :=
| IdsItems (items : list string)
| IdsScalar.

(** [data/embeddings.npy]: absent, or what [np.load] does with it. *)
Definition index_file := option (lib_result Matrix).

(** [data/ids.json]: absent, or what [json.loads] does with it. *)
Definition ids_file := option (lib_result ids_artifact).

(** A write to a file returns, and the file then holds what was written,
    or it raises and leaves the file in some state [file_left] (as it was,
    truncated, half written). *)
Inductive write_outcome (F : Type) : Type :=
| Written
| WriteFails (cls : string) (msg : string) (file_left : F).

Arguments Written {F}.
Arguments WriteFails {F} cls msg file_left.

(** What [session.get] hands back: the status line and the chunks that
    [iter_content] yields. *)
Record Response := mkResponse {
  status_code : Z;
  chunks : list string
}.

Record World := mkWorld {
  Raw : Type;
  Image : Type;
  (** [pathlib.Path(s).stem] *)
  stem : string -> string;
  (** [requests.utils.urlparse(url).netloc] *)
  urlparse_netloc : string -> lib_result string;
  (** [session.get(url, headers=..)]; the last argument counts the requests
      this fetch has already issued, so a server may answer differently
      over time. *)
  session_get : string -> Headers -> nat -> lib_result Response;
  (** [urllib.request.urlopen(req).read()] *)
  urlopen_read : string -> Headers -> lib_result string;
  (** [Image.open(io.BytesIO(b))] *)
  image_open_bytes : string -> lib_result Raw;
  (** The search over [p], [ROOT_DIR / s], [BASE_DIR / s] and [Image.open]
      of the first that exists. *)
  open_local : string -> lib_result Raw;
  mode : Raw -> string;
  (** [raw.convert("RGBA").convert("RGB")] *)
  convert_palette : Raw -> lib_result Image;
  (** Paste on a white background with the alpha band as the mask. *)
  composite_on_white : Raw -> lib_result Image;
  (** [raw.convert("RGB")] *)
  convert_rgb : Raw -> lib_result Image;
  (** [clip_processor] followed by [clip_model.get_image_features]. *)
  clip_features : Image -> lib_result Vec;
  (** [np.linalg.norm] *)
  linalg_norm : Vec -> Q;
  (** The float that the sum of [np.linalg.norm(v) + 1e-10] rounds to. *)
  float_add : Q -> Q -> Q;
  (** The float that a quotient of [v / s] rounds to. *)
  float_div : Q -> Q -> Q;
  (** One entry of [embeddings @ qvec]: the float dot product of a row and
      the query, the products rounded and added in the order of the
      library's kernel. *)
  float_dot : Vec -> Vec -> Q;
  (** [np.argsort] *)
  argsort : list Q -> list nat;
  (** [float(s)] *)
  parse_float : string -> option Q;
  (** [np.save(INDEX_PATH, a)], given what the file holds. *)
  np_save : index_file -> Matrix -> write_outcome index_file;
  (** [IDS_PATH.write_text(json.dumps(l))], given what the file holds. *)
  write_text : ids_file -> list string -> write_outcome ids_file
}.

(** ** Remote fetch: [_fetch_image_bytes_with_headers] *)

Module Fetch.

Definition header_candidates : list Headers :=
  [ [ ("User-Agent",
       "Mozilla/5.0 (Windows NT 10.0; Win64; x64) AppleWebKit/537.36 (KHTML, like Gecko) Chrome/120.0 Safari/537.36");
      ("Accept",
       "text/html,application/xhtml+xml,application/xml;q=0.9,image/webp,image/apng,*/*;q=0.8");
      ("Accept-Language", "en-US,en;q=0.9");
      ("Connection", "keep-alive") ];
    [ ("User-Agent", "Mozilla/5.0");
      ("Referer", "https://www.google.com/");
      ("Accept", "*/*") ];
    [ ("User-Agent", "curl/7.64.1");
      ("Accept", "*/*") ] ].

Definition max_attempts : nat := 3.

Definition base_delay : Q := 1 # 2.

(** What the fetch does to the outside, in order. *)
Inductive event : Type :=
| EvGet (attempt : nat) (headers : Headers)
| EvSleep (seconds : Q)
| EvFallback.

(** The local variables the two loops update. *)
Record locals := mkLocals {
  issued : nat;
  events : list event;
  last_exc : option exn
}.

Definition has_key (k : string) (h : Headers) : bool :=
  Str.mem k (map fst h).

Section WithWorld.

Variable w : World.

(** The first [try] of the loop body: a [Referer] from the host for a
    profile that has none; any exception leaves the profile as it is. *)
Definition with_referer (url : string) (headers : Headers) : Headers :=
  match call (urlparse_netloc w url) with
  | Ok host =>
      if Str.nonempty host && negb (has_key "Referer" headers)
      then headers ++ [("Referer", ("https://" ++ host ++ "/")%string)]
      else headers
  | Raise _ => headers
  end.

(** [r.raise_for_status()] *)
Definition raise_for_status (r : Response) : result unit :=
  if ((400 <=? status_code r) && (status_code r <? 600))%Z
  then Raise (Exception "HTTPError" "bad status")
  else Ok tt.

(** The second [try] of the loop body: one streamed request. *)
Definition request_once (url : string) (headers : Headers) (n : nat)
  : result string :=
  r <- call (session_get w url headers n) ;;
  _ <- raise_for_status r ;;
  let content := String.concat "" (filter Str.nonempty (chunks r)) in
  if Str.nonempty content then Ok content
  else Raise (Exception "Exception" "Downloaded content is empty").

(** [for headers in header_candidates: ...] within one attempt. *)
Fixpoint try_profiles (url : string) (attempt : nat) (hs : list Headers)
  (st : locals) : option string * locals :=
  match hs with
  | [] => (None, st)
  | h :: rest =>
      let h' := with_referer url h in
      let ev := events st ++ [EvGet attempt h'] in
      match request_once url h' (issued st) with
      | Ok content => (Some content, mkLocals (S (issued st)) ev (last_exc st))
      | Raise e =>
          try_profiles url attempt rest (mkLocals (S (issued st)) ev (Some e))
      end
  end.

(** [0.5 * (2 ** (attempt - 1))] *)
Definition sleep_time (attempt : nat) : Q :=
  (base_delay * inject_Z (2 ^ Z.of_nat (attempt - 1)))%Q.

(** [for attempt in range(1, max_attempts + 1): ...] *)
Fixpoint attempts_loop (url : string) (attempts : list nat) (st : locals)
  : option string * locals :=
  match attempts with
  | [] => (None, st)
  | a :: rest =>
      match try_profiles url a header_candidates st with
      | (Some content, st') => (Some content, st')
      | (None, st') =>
          attempts_loop url rest
            (mkLocals (issued st') (events st' ++ [EvSleep (sleep_time a)])
                      (last_exc st'))
      end
  end.

(** The [urllib] fallback. *)
Definition urllib_fallback (url : string) : result string :=
  host <- call (urlparse_netloc w url) ;;
  content <- call (urlopen_read w url
               [("User-Agent", "Mozilla/5.0 (Windows NT 10.0; Win64; x64)");
                ("Referer", ("https://" ++ host ++ "/")%string)]) ;;
  if Str.nonempty content then Ok content
  else Raise (Exception "Exception" "Downloaded content is empty (urllib fallback)").

(** The whole helper, with the trace of what it did. *)
Definition fetch_traced (url : string) : result string * list event :=
  match attempts_loop url (seq 1 max_attempts) (mkLocals 0 [] None) with
  | (Some content, st) => (Ok content, events st)
  | (None, st) =>
      let ev := events st ++ [EvFallback] in
      match urllib_fallback url with
      | Ok content => (Ok content, ev)
      | Raise e =>
          (Raise (match last_exc st with Some l => l | None => e end), ev)
      end
  end.

Definition _fetch_image_bytes_with_headers (url : string) : result string :=
  fst (fetch_traced url).

End WithWorld.

End Fetch.

(** ** Image acquisition and feature extraction *)

Section Acquisition.

Variable w : World.

Definition is_remote (s : string) : bool :=
  prefix "http://" (Str.lower s) || prefix "https://" (Str.lower s).

(** The mode dispatch shared by the loader and the upload path. *)
Definition convert_by_mode (raw : Raw w) : result (Image w) :=
  if mode w raw =? "P" then call (convert_palette w raw)
  else if Str.mem (mode w raw) ["RGBA"; "LA"] then call (composite_on_white w raw)
  else call (convert_rgb w raw).

Definition _open_image_from_url_or_path (value : string) : result (Image w) :=
  let s := Str.strip value in
  raw <- (if is_remote s
          then img_bytes <- Fetch._fetch_image_bytes_with_headers w s ;;
               call (image_open_bytes w img_bytes)
          else call (open_local w s)) ;;
  match convert_by_mode raw with
  | Ok img => Ok img
  | Raise _ => call (convert_rgb w raw)
  end.

(** The literal [1e-10]: the double nearest to it, [7737125245533627 / 2^86]. *)
Definition eps : Q := 7737125245533627 # 77371252455336267181195264.

(** [v / (np.linalg.norm(v) + 1e-10)]: one float sum, then one float
    quotient for every component. *)
Definition l2_normalize (v : Vec) : Vec :=
  let s := float_add w (linalg_norm w v) eps in
  map (fun x => float_div w x s) v.

Definition _img_to_vec (img : Image w) : result Vec :=
  v <- call (clip_features w img) ;;
  Ok (l2_normalize v).

End Acquisition.

(** ** Result payloads: [_row_to_payload] *)

Inductive price_value : Type :=
| PriceNumber (q : Q)
| PriceText (s : string).

Record Payload := mkPayload {
  p_id : string;
  p_name : string;
  p_image_url : string;
  p_price : option price_value;
  p_brand : option string;
  p_description : option string;
  p_score : option Q
}.

(** [a or b] on optional strings, [None] and [""] being falsy. *)
Definition or_else (a b : option string) : option string :=
  match a with
  | Some s => if Str.nonempty s then a else b
  | None => b
  end.

Definition _row_to_payload (w : World) (row : DF.Row) (score : option Q)
  : result Payload :=
  match DF.row_get "id" row with
  | None => Raise (Exception "KeyError" "id")
  | Some i =>
      Ok {| p_id := i;
            p_name :=
              match or_else (or_else (DF.row_get "title" row)
                                     (DF.row_get "name" row)) (Some "") with
              | Some s => s
              | None => ""
              end;
            p_image_url :=
              match DF.row_get "image_url" row with
              | Some u => u
              | None => ""
              end;
            p_price :=
              match DF.row_get "price" row with
              | Some p =>
                  if Str.nonempty (Str.strip p)
                  then match parse_float w p with
                       | Some q => Some (PriceNumber q)
                       | None => Some (PriceText p)
                       end
                  else None
              | None => None
              end;
            p_brand := DF.row_get "brand" row;
            p_description := DF.row_get "description" row;
            p_score := score |}
  end.

(** ** Process state: the three globals and the three files *)

Record State := mkState {
  df : option DataFrame;
  embeddings : option Matrix;
  ids : list string;
  (** [data/products.csv] *)
  csv : csv_file;
  (** [data/embeddings.npy]: absent, or what [np.load] does with it. *)
  index_npy : option (lib_result Matrix);
  (** [data/ids.json]: absent, or what [json.loads] does with it. *)
  ids_json : option (lib_result ids_artifact)
}.

(** The state of a fresh process over a given disk. *)
Definition initial_state (c : csv_file) (i : option (lib_result Matrix))
  (j : option (lib_result ids_artifact)) : State :=
  mkState None None [] c i j.

(** The published view a query works with. *)
Definition view (st : State) : option DataFrame * option Matrix * list string :=
  (df st, embeddings st, ids st).

(** The two persisted artifacts. *)
Definition artifacts (st : State)
  : option (lib_result Matrix) * option (lib_result ids_artifact) :=
  (index_npy st, ids_json st).

(** ** Index builder: [_build_index_from_csv] *)

Record Summary := mkSummary {
  status : string;
  count : nat;
  skipped : nat
}.

Section Builder.

Variable w : World.

(** The body of the [try] for one row; [None] is the vector that was
    appended before the exception, if any. *)
Definition index_row (row : DF.Row) : option Vec * result string :=
  match DF.row_get "image_url" row with
  | None => (None, Raise (Exception "KeyError" "image_url"))
  | Some u =>
      match (img <- _open_image_from_url_or_path w u ;; _img_to_vec w img) with
      | Raise e => (None, Raise e)
      | Ok v =>
          match DF.row_get "id" row with
          | None => (Some v, Raise (Exception "KeyError" "id"))
          | Some i => (Some v, Ok i)
          end
      end
  end.

Definition append_opt {A : Type} (l : list A) (o : option A) : list A :=
  match o with
  | Some a => l ++ [a]
  | None => l
  end.

(** [for _, row in dframe.iterrows(): try: ... except Exception: skipped += 1] *)
Fixpoint build_loop (rows : list DF.Row) (vecs : list Vec)
  (ids_local : list string) (n_skipped : nat)
  : list Vec * list string * nat :=
  match rows with
  | [] => (vecs, ids_local, n_skipped)
  | row :: rest =>
      match index_row row with
      | (ov, Ok i) => build_loop rest (append_opt vecs ov) (ids_local ++ [i]) n_skipped
      | (ov, Raise _) => build_loop rest (append_opt vecs ov) ids_local (S n_skipped)
      end
  end.

(** [np.vstack(vecs)]: the vectors as the rows of one array, which they
    can only be when they have one common dimension. *)
Definition vstack (vecs : list Vec) : lib_result Matrix :=
  match vecs with
  | [] => Throws "ValueError" "need at least one array to concatenate"
  | v :: rest =>
      if forallb (fun u => (List.length u =? List.length v)%nat) rest
      then Returns vecs
      else Throws "ValueError"
             "all the input array dimensions except for the concatenation axis must match exactly"
  end.

Definition set_index_npy (f : index_file) (st : State) : State :=
  mkState (df st) (embeddings st) (ids st) (csv st) f (ids_json st).

Definition set_ids_json (f : ids_file) (st : State) : State :=
  mkState (df st) (embeddings st) (ids st) (csv st) (index_npy st) f.

(** The three assignments that end a successful build, in program order:
    [df = ..], [embeddings = ..], [ids = ..]. *)
Definition publish_writes (dframe : DataFrame) (m : Matrix) (l : list string)
  : list (State -> State) :=
  [ (fun st => mkState (Some dframe) (embeddings st) (ids st) (csv st)
                       (index_npy st) (ids_json st));
    (fun st => mkState (df st) (Some m) (ids st) (csv st)
                       (index_npy st) (ids_json st));
    (fun st => mkState (df st) (embeddings st) l (csv st)
                       (index_npy st) (ids_json st)) ].

(** The states the shared store goes through while a list of writes runs;
    the state before the first write comes first. *)
Fixpoint run_writes (ws : list (State -> State)) (st : State) : list State :=
  match ws with
  | [] => [st]
  | f :: rest => st :: run_writes rest (f st)
  end.

Definition empty_index_error : exn :=
  Exception "RuntimeError"
    "No images could be indexed. Check your CSV and image URLs/paths.".

(** Everything up to the writes: the frame, the stacked matrix, the ids and
    the skip count, or the exception that ends the build. *)
Definition build_prepare (st : State)
  : result (DataFrame * Matrix * list string * nat) :=
  dframe <- _load_csv_filtered (stem w) (csv st) ;;
  match build_loop (DF.iterrows dframe) [] [] 0 with
  | ([], _, _) => Raise empty_index_error
  | (vecs, ids_local, n_skipped) =>
      m <- call (vstack vecs) ;;
      Ok (dframe, m, ids_local, n_skipped)
  end.

(** The whole build: what it returns or raises, and the states the store
    goes through, in order, the state it starts from first. After the loop
    come [np.save], then [IDS_PATH.write_text], then the three assignments;
    a write that raises ends the build where it stands. *)
Definition build_run (st : State) : result Summary * list State :=
  match build_prepare st with
  | Raise e => (Raise e, [st])
  | Ok (dframe, m, l, n_skipped) =>
      match np_save w (index_npy st) m with
      | WriteFails c msg f =>
          (Raise (Exception c msg), [st; set_index_npy f st])
      | Written =>
          let st1 := set_index_npy (Some (Returns m)) st in
          match write_text w (ids_json st1) l with
          | WriteFails c msg f =>
              (Raise (Exception c msg), [st; st1; set_ids_json f st1])
          | Written =>
              let st2 := set_ids_json (Some (Returns (IdsItems l))) st1 in
              (Ok (mkSummary "index built" (List.length l) n_skipped),
               st :: st1 :: run_writes (publish_writes dframe m l) st2)
          end
      end
  end.

(** The states a concurrent reader can find the store in during a build. *)
Definition build_trace (st : State) : list State := snd (build_run st).

Definition _build_index_from_csv (st : State) : result Summary * State :=
  (fst (build_run st), last (snd (build_run st)) st).

(** ** Startup: [on_startup] *)

Definition set_df (o : option DataFrame) (st : State) : State :=
  mkState o (embeddings st) (ids st) (csv st) (index_npy st) (ids_json st).

(** The [try] that loads an existing index: the state it leaves, and
    whether it reached its [return]. *)
Definition load_existing (st : State) : State * bool :=
  match index_npy st, ids_json st with
  | Some (Returns m), Some (Returns j) =>
      let st1 := mkState (df st) (Some m) (ids st) (csv st)
                         (index_npy st) (ids_json st) in
      match j with
      | IdsItems l =>
          (mkState (df st1) (embeddings st1) l (csv st1)
                   (index_npy st1) (ids_json st1), true)
      | IdsScalar => (st1, false)
      end
  | _, _ => (st, false)
  end.

Definition on_startup (st : State) : State :=
  let st1 := set_df (match _load_csv_filtered (stem w) (csv st) with
                     | Ok d => Some d
                     | Raise _ => None
                     end) st in
  match load_existing st1 with
  | (st2, true) => st2
  | (st2, false) => snd (_build_index_from_csv st2)
  end.

(** [POST /build_index] *)
Definition build_index (st : State) : result Summary * State :=
  match _build_index_from_csv st with
  | (Ok info, st') => (Ok info, st')
  | (Raise e, st') => (Raise (HTTPException 500 (str_exn e)), st')
  end.

End Builder.

(** ** Search engine: [POST /search] *)

Record Upload := mkUpload {
  filename : string;
  content : string
}.

Inductive query_meta : Type :=
| QueryFile (name : string)
| QueryUrlOrPath (value : string).

Record SearchResponse := mkSearchResponse {
  query : query_meta;
  n_items : nat;
  items : list Payload
}.

Definition not_ready : exn :=
  HTTPException 400 "Index not built — call /build_index first.".

Definition bad_min_similarity : exn :=
  HTTPException 422 "min_similarity must be in [0,1].".

Definition no_query_image : exn :=
  HTTPException 422 "Provide 'image_url' form field or upload a file.".

Definition query_image_failed (e : exn) : exn :=
  HTTPException 400 ("Failed to load query image: " ++ str_exn e)%string.

(** Position of the first element satisfying [f]. *)
Fixpoint find_index {A : Type} (f : A -> bool) (l : list A) : option nat :=
  match l with
  | [] => None
  | x :: r => if f x then Some 0 else option_map S (find_index f r)
  end.

Section Search.

Variable w : World.

(** The "load query image" block. *)
Definition load_query_image (file : option Upload) (image_url : option string)
  : result (Image w * query_meta) :=
  let from_url :=
    match image_url with
    | Some u =>
        if Str.nonempty u then
          match _open_image_from_url_or_path w u with
          | Ok img => Ok (img, QueryUrlOrPath u)
          | Raise e => Raise (query_image_failed e)
          end
        else Raise no_query_image
    | None => Raise no_query_image
    end in
  let body :=
    match file with
    | Some f =>
        if Str.nonempty (filename f) then
          raw <- call (image_open_bytes w (content f)) ;;
          img <- convert_by_mode w raw ;;
          Ok (img, QueryFile (filename f))
        else from_url
    | None => from_url
    end in
  match body with
  | Ok r => Ok r
  | Raise (HTTPException s d) => Raise (HTTPException s d)
  | Raise e => Raise (query_image_failed e)
  end.

(** [df.loc[df["id"] == pid]], reduced to its first row ([row.iloc[0]]);
    [None] when the selection is empty. *)
Definition lookup_row (d : DataFrame) (pid : string) : result (option DF.Row) :=
  match DF.get_col_opt "id" d with
  | None => Raise (Exception "KeyError" "id")
  | Some id_col =>
      Ok (option_map (fun i => DF.row_at i d) (find_index (String.eqb pid) id_col))
  end.

Definition index_error : exn :=
  Exception "IndexError" "index out of range".

(** [embeddings @ qvec]: a [ValueError] unless every row of the matrix has
    the dimension of the vector, and then one float score per row. *)
Definition matvec (m : Matrix) (q : Vec) : lib_result (list Q) :=
  if forallb (fun row => (List.length row =? List.length q)%nat) m
  then Returns (map (fun row => float_dot w row q) m)
  else Throws "ValueError"
         "matmul: Input operand 1 has a mismatch in its core dimension 0".

(** [for idx in order: ...], the list [results] being threaded through. *)
Fixpoint rank_loop (d : DataFrame) (id_list : list string) (sims : list Q)
  (min_similarity : Q) (top_k : Z) (order : list nat) (results : list Payload)
  : result (list Payload) :=
  match order with
  | [] => Ok results
  | idx :: rest =>
      match nth_error sims idx with
      | None => Raise index_error
      | Some score =>
          if Qltb score min_similarity
          then rank_loop d id_list sims min_similarity top_k rest results
          else
            match nth_error id_list idx with
            | None => Raise index_error
            | Some pid =>
                match lookup_row d pid with
                | Raise e => Raise e
                | Ok None =>
                    if (top_k <=? Z.of_nat (List.length results))%Z
                    then Ok results
                    else rank_loop d id_list sims min_similarity top_k rest results
                | Ok (Some row) =>
                    match _row_to_payload w row (Some score) with
                    | Raise e => Raise e
                    | Ok p =>
                        if (top_k <=? Z.of_nat (List.length (results ++ [p])))%Z
                        then Ok (results ++ [p])
                        else rank_loop d id_list sims min_similarity top_k rest
                                       (results ++ [p])
                    end
                end
            end
      end
  end.

Definition search (st : State) (image_url : option string) (top_k : Z)
  (min_similarity : Q) (file : option Upload) : result SearchResponse :=
  match embeddings st, df st with
  | Some m, Some d =>
      if (List.length m =? 0)%nat then Raise not_ready
      else if negb (Qle_bool 0 min_similarity && Qle_bool min_similarity 1)
      then Raise bad_min_similarity
      else
        qm <- load_query_image file image_url ;;
        qvec <- _img_to_vec w (fst qm) ;;
        sims <- call (matvec m qvec) ;;
        let order := argsort w (map Qopp sims) in
        results <- rank_loop d (ids st) sims min_similarity top_k order [] ;;
        Ok (mkSearchResponse (snd qm) (List.length results) results)
  | _, _ => Raise not_ready
  end.

(** *** [search] beside a running build

    The route takes no lock and no snapshot: it reads the global
    [embeddings] and [df] in its guard (line 402), [embeddings] again for
    the product (439), and in the loop [ids] (448) and [df] (449) once for
    every candidate that clears the threshold. [Reads] gives the store as
    each of these statements finds it. *)

Record Reads := mkReads {
  at_guard : State;
  at_product : State;
  (** The reads of the n-th candidate that clears the threshold. *)
  at_id : nat -> State;
  at_lookup : nat -> State
}.

(** The reads of a request that runs alone. *)
Definition quiescent (st : State) : Reads :=
  mkReads st st (fun _ => st) (fun _ => st).

Definition none_has_no_loc : exn :=
  Exception "AttributeError" "'NoneType' object has no attribute 'loc'".

Definition none_matmul : exn :=
  Exception "TypeError"
    "unsupported operand type(s) for @: 'NoneType' and 'numpy.ndarray'".

(** The loop of [search], each read of a global served by [r]; [n] counts
    the candidates that have cleared the threshold. *)
Fixpoint rank_loop_live (r : Reads) (n : nat) (sims : list Q)
  (min_similarity : Q) (top_k : Z) (order : list nat) (results : list Payload)
  : result (list Payload) :=
  match order with
  | [] => Ok results
  | idx :: rest =>
      match nth_error sims idx with
      | None => Raise index_error
      | Some score =>
          if Qltb score min_similarity
          then rank_loop_live r n sims min_similarity top_k rest results
          else
            match nth_error (ids (at_id r n)) idx with
            | None => Raise index_error
            | Some pid =>
                match df (at_lookup r n) with
                | None => Raise none_has_no_loc
                | Some d =>
                    match lookup_row d pid with
                    | Raise e => Raise e
                    | Ok None =>
                        if (top_k <=? Z.of_nat (List.length results))%Z
                        then Ok results
                        else rank_loop_live r (S n) sims min_similarity top_k
                                            rest results
                    | Ok (Some row) =>
                        match _row_to_payload w row (Some score) with
                        | Raise e => Raise e
                        | Ok p =>
                            if (top_k <=? Z.of_nat (List.length (results ++ [p])))%Z
                            then Ok (results ++ [p])
                            else rank_loop_live r (S n) sims min_similarity
                                                top_k rest (results ++ [p])
                        end
                    end
                end
            end
      end
  end.

Definition search_live (r : Reads) (image_url : option string) (top_k : Z)
  (min_similarity : Q) (file : option Upload) : result SearchResponse :=
  match embeddings (at_guard r), df (at_guard r) with
  | Some m, Some _ =>
      if (List.length m =? 0)%nat then Raise not_ready
      else if negb (Qle_bool 0 min_similarity && Qle_bool min_similarity 1)
      then Raise bad_min_similarity
      else
        qm <- load_query_image file image_url ;;
        qvec <- _img_to_vec w (fst qm) ;;
        match embeddings (at_product r) with
        | None => Raise none_matmul
        | Some mtx =>
            sims <- call (matvec mtx qvec) ;;
            let order := argsort w (map Qopp sims) in
            results <- rank_loop_live r 0 sims min_similarity top_k order [] ;;
            Ok (mkSearchResponse (snd qm) (List.length results) results)
        end
  | _, _ => Raise not_ready
  end.

End Search.

(** ** Rounding to binary32 *)

Module Float32.

(** Bits of the significand, and the exponent of the smallest subnormal. *)
Definition prec : Z := 24.
Definition emin : Z := -149.

(** The integer nearest to [n / d], a tie going to the even one. *)
Definition round_half_even (n : Z) (d : positive) : Z :=
  let fl := (n / Zpos d)%Z in
  let r := (n mod Zpos d)%Z in
  match (2 * r ?= Zpos d)%Z with
  | Lt => fl
  | Gt => (fl + 1)%Z
  | Eq => if Z.even fl then fl else (fl + 1)%Z
  end.

(** [floor (log2 (a / b))] *)
Definition ilog2 (a b : positive) : Z :=
  let e := (Z.log2 (Zpos a) - Z.log2 (Zpos b))%Z in
  if (0 <=? e)%Z
  then if (Zpos b * 2 ^ e <=? Zpos a)%Z then e else (e - 1)%Z
  else if (Zpos b <=? Zpos a * 2 ^ (- e))%Z then e else (e - 1)%Z.

(** [m * 2 ^ x] *)
Definition scaled (m x : Z) : Q :=
  if (0 <=? x)%Z then inject_Z (m * 2 ^ x)
  else Qred (Qmake m (Z.to_pos (2 ^ (- x)))).

(** The binary32 number nearest to a positive [a / b]. *)
Definition round_pos (a b : positive) : Q :=
  let x := Z.max (ilog2 a b - (prec - 1)) emin in
  let m := if (0 <=? x)%Z
           then round_half_even (Zpos a) (b * Z.to_pos (2 ^ x))
           else round_half_even (Zpos a * 2 ^ (- x)) b in
  scaled m x.

(** Round to nearest, ties to even; overflow to infinity is left out. *)
Definition round (q : Q) : Q :=
  match Qnum q with
  | Z0 => 0%Q
  | Zpos a => round_pos a (Qden q)
  | Zneg a => Qopp (round_pos a (Qden q))
  end.

End Float32.

(** ** A concrete world for worked examples

    Images are named by strings; the extractor table, binary32 arithmetic,
    the stable insertion argsort and the POSIX stem stand in for the
    external libraries; writes to the disk succeed. *)

Module Demo.

(** Insertion of index [i] in front of the first index it goes [before]. *)
Fixpoint insert_by_key (before : Q -> Q -> bool) (keys : list Q) (i : nat)
  (sorted : list nat) : list nat :=
  match sorted with
  | [] => [i]
  | j :: r =>
      if before (nth i keys 0%Q) (nth j keys 0%Q) then i :: sorted
      else j :: insert_by_key before keys i r
  end.

Definition insertion_argsort (before : Q -> Q -> bool) (keys : list Q)
  : list nat :=
  fold_right (insert_by_key before keys) [] (seq 0 (List.length keys)).

(** A stable argsort: indices by ascending key, equal keys by ascending
    index. *)
Definition stable_argsort : list Q -> list nat :=
  insertion_argsort Qle_bool.

(** The extractor: a few named images with their raw feature vectors. *)
Definition features (img : string) : lib_result Vec :=
  if img =? "red.png" then Returns [3; 4]%Q
  else if img =? "green.png" then Returns [4; 3]%Q
  else if img =? "blue.png" then Returns [0; 5]%Q
  else if img =? "red2.png" then Returns [3; 4]%Q
  else if img =? "black.png" then Returns [0; 0]%Q
  else Throws "UnidentifiedImageError" img.

(** A norm that is exact on the vectors of [features]. *)
Definition norm (v : Vec) : Q :=
  match v with
  | [x; y] => if Qeq_bool (x * x + y * y) 25 then 5%Q else 0%Q
  | _ => 0%Q
  end.

(** The float operations in binary32: each operation is the exact one
    followed by one rounding, and the dot product multiplies and adds from
    left to right. *)
Definition f32_add (a b : Q) : Q := Float32.round (a + b).

Definition f32_div (a b : Q) : Q := Float32.round (a / b).

Definition f32_dot (a b : Vec) : Q :=
  fold_left (fun acc xy => Float32.round (acc + Float32.round (fst xy * snd xy)))
            (combine a b) 0%Q.

Definition local_file (s : string) : lib_result string :=
  if Str.mem s ["red.png"; "green.png"; "blue.png"; "red2.png"; "black.png"]
  then Returns s
  else Throws "FileNotFoundError" ("Local image not found: " ++ s)%string.

Definition world (sort : list Q -> list nat) : World :=
  {| Raw := string;
     Image := string;
     stem := PosixPath.stem;
     urlparse_netloc := fun _ => Returns "cdn.example.com";
     session_get := fun _ _ _ => Throws "ConnectionError" "offline";
     urlopen_read := fun _ _ => Throws "URLError" "offline";
     image_open_bytes := fun b => Returns b;
     open_local := local_file;
     mode := fun _ => "RGB";
     convert_palette := fun r => Returns r;
     composite_on_white := fun r => Returns r;
     convert_rgb := fun r => Returns r;
     clip_features := features;
     linalg_norm := norm;
     float_add := f32_add;
     float_div := f32_div;
     float_dot := f32_dot;
     argsort := sort;
     parse_float := fun _ => None;
     np_save := fun _ _ => Written;
     write_text := fun _ _ => Written |}.

End Demo.

(** ** Catalogs and states used in the worked examples *)

(** A catalog with an [id] column whose only cell is empty and a [sku]
    column that is filled. *)
Definition catalog_empty_id_with_sku : DataFrame :=
  [("id", [""]); ("sku", ["S1"]); ("image_url", ["a/b.jpg"])].

(** ** What one catalog row contributes to a build *)

Section RowContribution.

Variable w : World.

Definition row_vecs (row : DF.Row) : list Vec :=
  match fst (index_row w row) with
  | Some v => [v]
  | None => []
  end.

Definition row_ids (row : DF.Row) : list string :=
  match snd (index_row w row) with
  | Ok i => [i]
  | Raise _ => []
  end.

(** The row went through acquisition, extraction and normalisation. *)
Definition row_built (row : DF.Row) : bool := is_ok (snd (index_row w row)).

(** The (id, vector) pair of a row that was built. *)
Definition row_entry (row : DF.Row) : list (string * Vec) :=
  match index_row w row with
  | (Some v, Ok i) => [(i, v)]
  | _ => []
  end.

End RowContribution.

Definition with_csv (c : csv_file) (st : State) : State :=
  mkState (df st) (embeddings st) (ids st) c (index_npy st) (ids_json st).

(** Four records, the last one pointing at an image that does not exist. *)
Definition catalog_abcd : DataFrame :=
  [("id", ["A"; "B"; "C"; "D"]);
   ("image_url", ["red.png"; "green.png"; "blue.png"; "missing.png"])].

Definition catalog_xy : DataFrame :=
  [("id", ["X"; "Y"]); ("image_url", ["blue.png"; "red.png"])].

(** No record of this catalog can be indexed. *)
Definition catalog_broken : DataFrame :=
  [("id", ["P"; "Q"]); ("image_url", ["missing.png"; "gone.png"])].

(** A fresh process over a disk that holds only the catalog. *)
Definition fresh (d : DataFrame) : State :=
  initial_state (Some (Returns d)) None None.

Definition demo_world : World := Demo.world Demo.stable_argsort.

(** The state after a first successful build over [catalog_abcd]. *)
Definition built_abcd : State :=
  snd (_build_index_from_csv demo_world (fresh catalog_abcd)).

(** A disk whose two index artifacts disagree: one matrix row, two ids. *)
Definition disk_padded_ids : State :=
  initial_state (Some (Returns catalog_abcd))
    (Some (Returns [[3; 4]%Q]))
    (Some (Returns (IdsItems ["A"; "B"]))).

(** A disk whose two index artifacts disagree: two matrix rows, one id. *)
Definition disk_truncated_ids : State :=
  initial_state (Some (Returns catalog_abcd))
    (Some (Returns [[1; 0]%Q; [0; 1]%Q]))
    (Some (Returns (IdsItems ["A"]))).

(** A rebuild over a new catalog, started from a published index. *)
Definition rebuild_xy : State := with_csv (Some (Returns catalog_xy)) built_abcd.

(** ** The two guards of [search] *)

(** A matrix and a product table are published and the matrix has rows. *)
Definition index_ready (st : State) : bool :=
  match embeddings st, df st with
  | Some m, Some _ => negb (List.length m =? 0)%nat
  | _, _ => false
  end.

(** [0.0 <= x <= 1.0] *)
Definition in_unit_interval (x : Q) : bool :=
  Qle_bool 0 x && Qle_bool x 1.

(** ** Ranking, seen one candidate at a time *)

Fixpoint filter_map {A B : Type} (f : A -> option B) (l : list A) : list B :=
  match l with
  | [] => []
  | x :: r =>
      match f x with
      | Some y => y :: filter_map f r
      | None => filter_map f r
      end
  end.

Definition is_some {A : Type} (o : option A) : bool :=
  match o with Some _ => true | None => false end.

Section Candidates.

Variable w : World.
Variable d : DataFrame.
Variable id_list : list string.
Variable sims : list Q.
Variable min_similarity : Q.

(** Row [idx] passes the similarity filter. *)
Definition passes (idx : nat) : bool :=
  match nth_error sims idx with
  | Some score => negb (Qltb score min_similarity)
  | None => false
  end.

(** What row [idx] contributes to the results: its payload, when it passes
    the filter and its id resolves in the product table. *)
Definition candidate (idx : nat) : option Payload :=
  match nth_error sims idx with
  | Some score =>
      if Qltb score min_similarity then None
      else
        match nth_error id_list idx with
        | Some pid =>
            match lookup_row d pid with
            | Ok (Some row) =>
                match _row_to_payload w row (Some score) with
                | Ok p => Some p
                | Raise _ => None
                end
            | _ => None
            end
        | None => None
        end
  | None => None
  end.


End Candidates.


(** The contract of [np.argsort]: a permutation of the positions that
    puts the keys in ascending order. *)
Definition argsort_sorts (sort : list Q -> list nat) : Prop :=
  forall keys,
    Permutation (sort keys) (seq 0 (List.length keys))
    /\ StronglySorted (fun i j => (nth i keys 0 <= nth j keys 0)%Q) (sort keys).



(** A request that gets past the guards, the query load and the
    extraction, on an index whose rows have the dimension of the query
    vector and whose ids stand beside its rows, with an [argsort] that keeps
    its contract. *)
Definition servable (w : World) (st : State) (url : option string) (m : Q)
  (file : option Upload) : Prop :=
  in_unit_interval m = true
  /\ (exists qm raw mtx d,
        load_query_image w file url = Ok qm
        /\ clip_features w (fst qm) = Returns raw
        /\ embeddings st = Some mtx /\ df st = Some d /\ mtx <> []
        /\ Forall (fun row => List.length row = List.length raw) mtx
        /\ List.length (ids st) = List.length mtx
        /\ DF.has_col "id" d = true)
  /\ argsort_sorts (argsort w).

(** What a route returned, if it returned. *)
Definition returned {A : Type} (r : result A) : option A :=
  match r with
  | Ok a => Some a
  | Raise _ => None
  end.

(** The ids of the items of a response. *)
Definition returned_ids (r : result SearchResponse) : option (list string) :=
  option_map (fun resp => map p_id (items resp)) (returned r).

(** Two records with the same picture, hence the same score for any query. *)
Definition catalog_twins : DataFrame :=
  [("id", ["R1"; "R2"; "G"]);
   ("image_url", ["red.png"; "red2.png"; "green.png"])].

(** ** The fetch protocol, request by request *)

Module FetchPlan.

Import Fetch.

Definition n_profiles : nat := List.length header_candidates.

Definition n_requests : nat := max_attempts * n_profiles.

Section WithWorld.

Variable w : World.
Variable url : string.

(** The headers request number [n] goes out with. *)
Definition headers_at (n : nat) : Headers :=
  with_referer w url (nth (n mod n_profiles) header_candidates []).

(** What request number [n] comes back with (requests are numbered from 0
    across all attempts). *)
Definition outcome_at (n : nat) : result string :=
  request_once w url (headers_at n) n.

Definition outcomes : list (result string) :=
  map outcome_at (seq 0 n_requests).

(** The requests of one attempt, in profile order. *)
Definition attempt_events (a : nat) (hs : list Headers) : list event :=
  map (fun h => EvGet a (with_referer w url h)) hs.

(** Everything the fetch does when no request succeeds, before the
    fallback: attempt by attempt, every profile in order, then the sleep. *)
Definition schedule_of (attempts : list nat) : list event :=
  flat_map
    (fun a => attempt_events a header_candidates ++ [EvSleep (sleep_time a)])
    attempts.

Definition schedule : list event := schedule_of (seq 1 max_attempts).

(** The outcomes of the profiles [hs] tried in order, the first request
    being number [n0]. *)
Fixpoint outs_from (n0 : nat) (hs : list Headers) : list (result string) :=
  match hs with
  | [] => []
  | h :: r => request_once w url (with_referer w url h) n0 :: outs_from (S n0) r
  end.

(** The outcomes of a run of attempts. *)
Fixpoint outs_attempts (n0 : nat) (attempts : list nat)
  : list (result string) :=
  match attempts with
  | [] => []
  | _ :: rest =>
      outs_from n0 header_candidates
      ++ outs_attempts (n0 + n_profiles) rest
  end.

End WithWorld.

(** The first success of a list of outcomes, with its position. *)
Fixpoint first_ok (l : list (result string)) : option (nat * string) :=
  match l with
  | [] => None
  | Ok c :: _ => Some (0, c)
  | Raise _ :: r => option_map (fun '(i, c) => (S i, c)) (first_ok r)
  end.

(** The exception of the last outcome that raised. *)
Fixpoint last_error (l : list (result string)) : option exn :=
  match l with
  | [] => None
  | Ok _ :: r => last_error r
  | Raise e :: r =>
      match last_error r with
      | Some e' => Some e'
      | None => Some e
      end
  end.

(** A server that refuses the first request of a fetch and serves the
    image, in three chunks, from the second request on. *)
Definition refuses_first_profile : World :=
  {| Raw := string;
     Image := string;
     stem := PosixPath.stem;
     urlparse_netloc := fun _ => Returns "cdn.example.com";
     session_get := fun _ _ n =>
       if (n =? 0)%nat then Returns (mkResponse 403 ["Forbidden"])
       else Returns (mkResponse 200 ["ab"; ""; "cd"]);
     urlopen_read := fun _ _ => Throws "URLError" "offline";
     image_open_bytes := fun b => Returns b;
     open_local := Demo.local_file;
     mode := fun _ => "RGB";
     convert_palette := fun r => Returns r;
     composite_on_white := fun r => Returns r;
     convert_rgb := fun r => Returns r;
     clip_features := Demo.features;
     linalg_norm := Demo.norm;
     float_add := Demo.f32_add;
     float_div := Demo.f32_div;
     float_dot := Demo.f32_dot;
     argsort := Demo.stable_argsort;
     parse_float := fun _ => None;
     np_save := fun _ _ => Written;
     write_text := fun _ _ => Written |}.

(** A host that refuses every request of the session and serves the
    [urllib] request that names a [Referer]. *)
Definition only_urllib_answers : World :=
  {| Raw := string;
     Image := string;
     stem := PosixPath.stem;
     urlparse_netloc := fun _ => Returns "cdn.example.com";
     session_get := fun _ _ _ => Returns (mkResponse 403 ["Forbidden"]);
     urlopen_read := fun _ h =>
       if Fetch.has_key "Referer" h then Returns "abcd"
       else Throws "HTTPError" "HTTP Error 403: Forbidden";
     image_open_bytes := fun b => Returns b;
     open_local := Demo.local_file;
     mode := fun _ => "RGB";
     convert_palette := fun r => Returns r;
     composite_on_white := fun r => Returns r;
     convert_rgb := fun r => Returns r;
     clip_features := Demo.features;
     linalg_norm := Demo.norm;
     float_add := Demo.f32_add;
     float_div := Demo.f32_div;
     float_dot := Demo.f32_dot;
     argsort := Demo.stable_argsort;
     parse_float := fun _ => None;
     np_save := fun _ _ => Written;
     write_text := fun _ _ => Written |}.

End FetchPlan.

(** One record whose picture the extractor maps to the zero vector. *)
Definition catalog_black : DataFrame :=
  [("id", ["K"]); ("image_url", ["black.png"])].

(** ** Column names that look like an image column *)

(** [any(k in c.lower() for k in ("image", "img", "photo", "picture", "url"))] *)
Definition image_like (c : string) : bool :=
  existsb (fun k => Str.contains k (Str.lower c)) image_keywords.

(** Every column of the frame has [n] cells. *)
Definition all_len (n : nat) (d : DataFrame) : Prop :=
  Forall (fun c => List.length (snd c) = n) d.

(** The mask that does in one pass what [m1] followed by [m2] does. *)
Fixpoint compose_masks (m1 m2 : list bool) : list bool :=
  match m1 with
  | [] => []
  | false :: r => false :: compose_masks r m2
  | true :: r =>
      match m2 with
      | [] => []
      | b :: r2 => b :: compose_masks r r2
      end
  end.

(** ** Measures of a fetch trace *)

Definition is_get (e : Fetch.event) : bool :=
  match e with
  | Fetch.EvGet _ _ => true
  | _ => false
  end.

(** The seconds slept over a trace. *)
Fixpoint total_sleep (l : list Fetch.event) : Q :=
  match l with
  | [] => 0%Q
  | Fetch.EvSleep s :: r => (s + total_sleep r)%Q
  | _ :: r => total_sleep r
  end.

(** ** Acquisition, before colour conversion *)

(** The first half of [_open_image_from_url_or_path]: the decoded image as
    [Image.open] gives it, from the network or from the disk. *)
Definition acquire_raw (w : World) (value : string) : result (Raw w) :=
  let s := Str.strip value in
  if is_remote s
  then img_bytes <- Fetch._fetch_image_bytes_with_headers w s ;;
       call (image_open_bytes w img_bytes)
  else call (open_local w s).

(** A world whose images are all palette images and whose palette
    conversion always raises. *)
Definition palette_breaks : World :=
  {| Raw := string;
     Image := string;
     stem := PosixPath.stem;
     urlparse_netloc := fun _ => Returns "cdn.example.com";
     session_get := fun _ _ _ => Throws "ConnectionError" "offline";
     urlopen_read := fun _ _ => Throws "URLError" "offline";
     image_open_bytes := fun b => Returns b;
     open_local := Demo.local_file;
     mode := fun _ => "P";
     convert_palette := fun _ => Throws "ValueError" "bad transparency mask";
     composite_on_white := fun r => Returns r;
     convert_rgb := fun r => Returns r;
     clip_features := Demo.features;
     linalg_norm := Demo.norm;
     float_add := Demo.f32_add;
     float_div := Demo.f32_div;
     float_dot := Demo.f32_dot;
     argsort := Demo.stable_argsort;
     parse_float := fun _ => None;
     np_save := fun _ _ => Written;
     write_text := fun _ _ => Written |}.

(** A world whose extractor always runs out of memory. *)
Definition extractor_breaks : World :=
  {| Raw := string;
     Image := string;
     stem := PosixPath.stem;
     urlparse_netloc := fun _ => Returns "cdn.example.com";
     session_get := fun _ _ _ => Throws "ConnectionError" "offline";
     urlopen_read := fun _ _ => Throws "URLError" "offline";
     image_open_bytes := fun b => Returns b;
     open_local := Demo.local_file;
     mode := fun _ => "RGB";
     convert_palette := fun r => Returns r;
     composite_on_white := fun r => Returns r;
     convert_rgb := fun r => Returns r;
     clip_features := fun _ => Throws "RuntimeError" "CUDA out of memory";
     linalg_norm := Demo.norm;
     float_add := Demo.f32_add;
     float_div := Demo.f32_div;
     float_dot := Demo.f32_dot;
     argsort := Demo.stable_argsort;
     parse_float := fun _ => None;
     np_save := fun _ _ => Written;
     write_text := fun _ _ => Written |}.

(** ** [GET /health] and a restart *)

(** The fields of the health report that depend on the process state; the
    report also carries the constants [ok = True], [device] and
    [cors_origins]. *)
Record Health := mkHealth {
  h_rows : nat;
  h_indexed : nat;
  h_csv_exists : bool;
  h_index_exists : bool;
  h_ids_exists : bool
}.

Definition health (st : State) : Health :=
  {| h_rows := match df st with
               | None => 0
               | Some d => DF.nrows d
               end;
     h_indexed := match embeddings st with
                  | None => 0
                  | Some m => List.length m
                  end;
     h_csv_exists := is_some (csv st);
     h_index_exists := is_some (index_npy st);
     h_ids_exists := is_some (ids_json st) |}.

(** A new process over the files another process leaves behind. *)
Definition restart (st : State) : State :=
  initial_state (csv st) (index_npy st) (ids_json st).

(** A disk with a catalog none of whose images opens, an index file and an
    [ids.json] that holds a number. *)
Definition disk_scalar_ids : State :=
  initial_state (Some (Returns catalog_broken))
    (Some (Returns [[1; 0]%Q; [0; 1]%Q]))
    (Some (Returns IdsScalar)).

(** ** A build beside a request, and a disk that fails *)

(** Every read of the request finds the store in a state of the trace, and
    later reads find it in the same or a later state. *)
Definition in_time_order (trace : list State) (r : Reads) : Prop :=
  exists (g p : nat) (i l : nat -> nat),
    g <= p /\ p <= i 0
    /\ (forall n, i n <= l n /\ l n <= i (S n))
    /\ nth_error trace g = Some (at_guard r)
    /\ nth_error trace p = Some (at_product r)
    /\ (forall n, nth_error trace (i n) = Some (at_id r n)
                  /\ nth_error trace (l n) = Some (at_lookup r n)).

(** The reads of a request that passes its guard and multiplies while the
    store is [old] and ranks when it has become [new]. *)
Definition multiplies_then_ranks (old new : State) : Reads :=
  mkReads old old (fun _ => new) (fun _ => new).

(** The store holding the matrix of [old] beside the ids and the table of
    [new]. *)
Definition old_matrix_new_ids (old new : State) : State :=
  mkState (df new) (embeddings old) (ids new) (csv new)
          (index_npy new) (ids_json new).

(** A world of [demo_world] whose disk is full when [ids.json] is written:
    the write raises and leaves the file as it was. *)
Definition ids_write_fails : World :=
  {| Raw := string;
     Image := string;
     stem := PosixPath.stem;
     urlparse_netloc := fun _ => Returns "cdn.example.com";
     session_get := fun _ _ _ => Throws "ConnectionError" "offline";
     urlopen_read := fun _ _ => Throws "URLError" "offline";
     image_open_bytes := fun b => Returns b;
     open_local := Demo.local_file;
     mode := fun _ => "RGB";
     convert_palette := fun r => Returns r;
     composite_on_white := fun r => Returns r;
     convert_rgb := fun r => Returns r;
     clip_features := Demo.features;
     linalg_norm := Demo.norm;
     float_add := Demo.f32_add;
     float_div := Demo.f32_div;
     float_dot := Demo.f32_dot;
     argsort := Demo.stable_argsort;
     parse_float := fun _ => None;
     np_save := fun _ _ => Written;
     write_text := fun old _ =>
       WriteFails "OSError" "[Errno 28] No space left on device" old |}.

(** A loaded index of three columns, beside the two-component extractor of
    [demo_world]. *)
Definition disk_three_columns : State :=
  initial_state (Some (Returns catalog_abcd))
    (Some (Returns [[1; 0; 0]%Q; [0; 1; 0]%Q]))
    (Some (Returns (IdsItems ["A"; "B"]))).

(** ** CORS origins *)

Module Cors.

Definition default_origins : list string :=
  ["http://localhost:5173"; "http://127.0.0.1:5173"].

(** [s.split(sep)] on characters; [cur] holds the piece being read,
    reversed. *)
Fixpoint split_chars (sep : ascii) (l cur : list ascii) : list (list ascii) :=
  match l with
  | [] => [rev cur]
  | c :: r =>
      if Ascii.eqb c sep then rev cur :: split_chars sep r []
      else split_chars sep r (c :: cur)
  end.

Definition split (sep : ascii) (s : string) : list string :=
  map string_of_list_ascii (split_chars sep (list_ascii_of_string s) []).

(** [allow_origins], from the value of [os.getenv("CORS_ORIGINS")]. *)
Definition allow_origins (env_origins : option string) : list string :=
  match env_origins with
  | Some e =>
      if Str.nonempty e
      then map Str.strip
             (filter (fun o => Str.nonempty (Str.strip o)) (split ","%char e))
      else default_origins
  | None => default_origins
  end.

(** The head of [l], if any, is not white space. *)
Definition clean_head (l : list ascii) : Prop :=
  match l with
  | [] => True
  | c :: _ => Str.is_space c = false
  end.

End Cors.

(** ** The CSV validator: [tools/validate_images_csv.py] *)

Module ValidateImagesCsv.

(** [list(dict.fromkeys(l))]: the first occurrence of each key, in order;
    [seen] holds the keys met so far. *)
Fixpoint fromkeys (l seen : list string) : list string :=
  match l with
  | [] => []
  | x :: r =>
      if Str.mem x seen then fromkeys r seen else x :: fromkeys r (x :: seen)
  end.

(** One round of the second loop:
    [if name in headers and name not in candidates: candidates.append(name)] *)
Definition add_named (headers candidates : list string) (name : string)
  : list string :=
  if Str.mem name headers && negb (Str.mem name candidates)
  then candidates ++ [name] else candidates.

Definition guess_image_columns (headers : list string) : list string :=
  let candidates :=
    filter (fun h => existsb (fun k => Str.contains k (Str.lower h))
                             ["image"; "img"; "photo"; "picture"; "url"])
           headers in
  let candidates :=
    fold_left (add_named headers) ["image_url"; "image"; "img_url"; "url"]
              candidates in
  fromkeys candidates [].

End ValidateImagesCsv.

(** ** The catalog updater: [tools/update_metadata_from_cloudinary.py] *)

Module UpdateMetadata.

(** [str(n)] for an [int]. *)
Definition str_int (z : Z) : string := NilZero.string_of_int (Z.to_int z).

(** One entry of [result["resources"]]. *)
Record Resource := mkResource {
  public_id : string;
  secure_url : string
}.

(** The values [next_id] takes: the Python [int] of a fresh start, the
    [numpy] integer that [max() + 1] gives on a column with cells, and the
    float [nan] that it gives on a column without cells. *)
Inductive Counter :=
| PyInt (z : Z)
| NpInt (z : Z)
| NaN.

(** [str(next_id)] *)
Definition str_counter (c : Counter) : string :=
  match c with
  | PyInt z | NpInt z => str_int z
  | NaN => "nan"
  end.

Definition brands : list string :=
  ["Acme"; "Nimbus"; "Horizon"; "Orbit"; "Flux"; "AeroTech"; "Zenith"; "Solace"].

(** [r[k]] of a record of [rows], for a key the record has. *)
Definition field (k : string) (r : DF.Row) : string :=
  match DF.row_get k r with
  | Some v => v
  | None => ""
  end.

(** The variables of the script that the loop updates; [existing_names] is
    a set, of which the script only asks membership. *)
Record Merge := mkMerge {
  rows : list DF.Row;
  next_id : Counter;
  existing_names : list string;
  new_count : nat
}.

(** [df[c]] *)
Definition column (c : string) (d : DataFrame) : result Series :=
  match DF.get_col_opt c d with
  | Some v => Ok v
  | None => Raise (Exception "KeyError" c)
  end.

Section Libraries.

(** [int(hashlib.md5(s.encode("utf-8")).hexdigest(), 16)] *)
Variable md5_int : string -> Z.

(** [Path(public_id).name] *)
Variable path_name : string -> string.

(** The conversion [astype(int)] applies to one cell. *)
Variable to_int : string -> lib_result Z.

(** What a sum holds in the integer type of [astype(int)], which has a
    fixed width and wraps around. *)
Variable np_wrap : Z -> Z.

(** [next_id += 1] *)
Definition incr (c : Counter) : Counter :=
  match c with
  | PyInt z => PyInt (z + 1)
  | NpInt z => NpInt (np_wrap (z + 1))
  | NaN => NaN
  end.

(** [Series.max() + 1] on the integers of the [id] column. *)
Definition max_plus_one (ns : list Z) : Counter :=
  match ns with
  | [] => NaN
  | z :: r => NpInt (np_wrap (fold_left Z.max r z + 1))
  end.

Definition deterministic_price (name : string) : Z :=
  let min_p := 500%Z in
  let max_p := 10000%Z in
  (min_p + (md5_int name mod (max_p - min_p + 1)))%Z.

Definition deterministic_brand (name : string) : string :=
  nth (Z.to_nat (md5_int name mod Z.of_nat (List.length brands))) brands "".

(** The record appended for a new name. *)
Definition new_row (st : Merge) (res : Resource) : DF.Row :=
  let name := path_name (public_id res) in
  [("id", str_counter (next_id st));
   ("name", name);
   ("price", str_int (deterministic_price name));
   ("brand", deterministic_brand name);
   ("description", ("Demo description for " ++ name ++ ".")%string);
   ("image_url", secure_url res)].

(** The body of [for res in result.get("resources", [])]. *)
Definition step (st : Merge) (res : Resource) : Merge :=
  let name := path_name (public_id res) in
  if Str.mem name (existing_names st) then st
  else {| rows := rows st ++ [new_row st res];
          next_id := incr (next_id st);
          existing_names := name :: existing_names st;
          new_count := S (new_count st) |}.

(** The [while True] loop over the pages the service hands out, the last
    page being the one without a [next_cursor]. *)
Definition merge (pages : list (list Resource)) (st : Merge) : Merge :=
  fold_left (fun s page => fold_left step page s) pages st.

(** [df["id"].astype(int)] *)
Fixpoint astype_int (ids : Series) : lib_result (list Z) :=
  match ids with
  | [] => Returns []
  | s :: r =>
      match to_int s with
      | Throws c m => Throws c m
      | Returns z =>
          match astype_int r with
          | Throws c m => Throws c m
          | Returns zs => Returns (z :: zs)
          end
      end
  end.

(** The variables as the script sets them up before the loop: from the
    frame [pd.read_csv(CSV_PATH, dtype=str).fillna("")] when the CSV exists,
    from nothing otherwise. *)
Definition start (existing : option DataFrame) : result Merge :=
  match existing with
  | Some d =>
      ids <- column "id" d ;;
      ns <- call (astype_int ids) ;;
      names <- column "name" d ;;
      Ok {| rows := DF.iterrows d;
            next_id := max_plus_one ns;
            existing_names := names;
            new_count := 0 |}
  | None =>
      Ok {| rows := [];
            next_id := PyInt 1;
            existing_names := [];
            new_count := 0 |}
  end.

(** What a run of the loop has done to the variables it started from. *)
Record grown (st0 st : Merge) (added : list DF.Row) : Prop := {
  grown_rows : rows st = rows st0 ++ added;
  grown_next : next_id st = Nat.iter (List.length added) incr (next_id st0);
  grown_count : new_count st = new_count st0 + List.length added;
  grown_names :
    existing_names st = rev (map (field "name") added) ++ existing_names st0;
  grown_ids :
    map (field "id") added
    = map (fun i => str_counter (Nat.iter i incr (next_id st0)))
          (seq 0 (List.length added));
  grown_fresh :
    NoDup (map (field "name") added)
    /\ forall n, In n (map (field "name") added) -> ~ In n (existing_names st0);
  grown_values :
    Forall (fun r =>
              exists res p,
                field "name" r = path_name (public_id res)
                /\ field "image_url" r = secure_url res
                /\ field "price" r = str_int p /\ (500 <= p <= 10000)%Z
                /\ In (field "brand" r) brands
                /\ map fst r
                   = ["id"; "name"; "price"; "brand"; "description";
                      "image_url"])
           added
}.

End Libraries.

(** Worked examples: a hash, a path reader, a cell parser and the
    wrap-around of [numpy.int64]. *)
Definition wrap64 (z : Z) : Z := ((z + 2 ^ 63) mod 2 ^ 64 - 2 ^ 63)%Z.

Definition demo_md5 (s : string) : Z := Z.of_nat (String.length s).

Definition demo_path_name (p : string) : string :=
  string_of_list_ascii (PosixPath.name p).

Definition demo_to_int (s : string) : lib_result Z :=
  match (if s =? "" then None else NilZero.int_of_string s) with
  | Some i => Returns (Z.of_int i)
  | None =>
      Throws "ValueError"
        ("invalid literal for int() with base 10: '" ++ s ++ "'")%string
  end.

Definition demo_pages : list (list Resource) :=
  [[mkResource "products/cup" "u1"; mkResource "products/lamp" "u2"];
   [mkResource "products/old/lamp" "u3"; mkResource "products/vase" "u4"]].

Definition six_columns (ids names prices brs descs urls : Series) : DataFrame :=
  [("id", ids); ("name", names); ("price", prices); ("brand", brs);
   ("description", descs); ("image_url", urls)].

(** A CSV of one product, and the variables the script sets up from it. *)
Definition demo_catalog : DataFrame :=
  six_columns ["7"] ["cup"] ["900"] ["Acme"] [""] ["u0"].

Definition demo_loaded : Merge :=
  {| rows := DF.iterrows demo_catalog;
     next_id := NpInt 8;
     existing_names := ["cup"];
     new_count := 0 |}.

(** A fresh start, the file its run writes as pandas reads it back, and the
    variables the second run sets up from that frame. *)
Definition demo_fresh : Merge :=
  {| rows := []; next_id := PyInt 1; existing_names := []; new_count := 0 |}.

Definition demo_reread : DataFrame :=
  six_columns ["1"; "2"; "3"] ["cup"; "lamp"; "vase"] ["503"; "504"; "504"]
    ["Orbit"; "Flux"; "Flux"]
    ["Demo description for cup."; "Demo description for lamp.";
     "Demo description for vase."]
    ["u1"; "u2"; "u4"].

Definition demo_reloaded : Merge :=
  {| rows := DF.iterrows demo_reread;
     next_id := NpInt 4;
     existing_names := ["cup"; "lamp"; "vase"];
     new_count := 0 |}.

(** A CSV that has its header and no row. *)
Definition header_only : DataFrame := six_columns [] [] [] [] [] [].

(** One image named [NA]; the file a fresh run writes for it, as
    [pd.read_csv(..., dtype=str).fillna("")] returns it: the cell [NA] is
    read as missing and filled with the empty string. *)
Definition na_pages : list (list Resource) :=
  [[mkResource "products/NA" "u1"]].

Definition na_reread : DataFrame :=
  six_columns ["1"] [""] ["502"] ["Horizon"] ["Demo description for NA."]
    ["u1"].

End UpdateMetadata.

(** ** Assumptions on the disk and on the extractor *)

(** The disk takes every write. *)
Definition disk_writable (w : World) : Prop :=
  (forall f m, np_save w f m = Written)
  /\ (forall f l, write_text w f l = Written).

(** The extractor yields vectors of one dimension. *)
Definition fixed_dimension (w : World) : Prop :=
  exists D, forall img v, clip_features w img = Returns v -> List.length v = D.


(** * Properties *)

(** ** Worked examples of the normaliser *)

Example detect_prefers_literal_names :
  _detect_image_column [("photo", ["p"]); ("url", ["u"])] = Ok "url".
Proof. reflexivity. Qed.

Example detect_falls_back_to_keyword :
  _detect_image_column [("id", ["1"]); ("Main_Photo", ["p"])] = Ok "Main_Photo".
Proof. reflexivity. Qed.

Example posix_stem_examples :
  PosixPath.stem "img/shoes/red.sneaker.jpg" = "red.sneaker"
  /\ PosixPath.stem "https://cdn.example.com/a/b.png" = "b"
  /\ PosixPath.stem ".hidden" = ".hidden"
  /\ PosixPath.stem "dir/" = "dir".
Proof. repeat split; reflexivity. Qed.

Example load_example :
  _load_csv_filtered PosixPath.stem
    (Some (Returns [("id", ["7"; " NaN "; "9"]);
               ("img", [" a/x.jpg "; "b/y.png"; "  "])]))
  = Ok [("id", ["7"; "y"]); ("image_url", ["a/x.jpg"; "b/y.png"])].
Proof. reflexivity. Qed.

(** ** Data frame lemmas *)

Lemma has_col_get_col_opt (c : string) (d : DataFrame) :
  DF.has_col c d = true <-> exists v, DF.get_col_opt c d = Some v.
Proof.
  unfold DF.has_col, Str.mem, DF.columns.
  induction d as [| [n v] r IH]; simpl.
  - split; [discriminate | intros [v H]; discriminate].
  - rewrite (String.eqb_sym c n). destruct (n =? c) eqn:E; simpl.
    + split; [intros _; now exists v | reflexivity].
    + exact IH.
Qed.

Lemma has_col_false_get_col_opt (c : string) (d : DataFrame) :
  DF.has_col c d = false <-> DF.get_col_opt c d = None.
Proof.
  split; intros H.
  - destruct (DF.get_col_opt c d) eqn:E; [| reflexivity].
    assert (DF.has_col c d = true) by (apply has_col_get_col_opt; eauto).
    congruence.
  - destruct (DF.has_col c d) eqn:E; [| reflexivity].
    apply has_col_get_col_opt in E. destruct E as [v E]. congruence.
Qed.

Lemma get_col_opt_replace (c : string) (v : Series) (d : DataFrame) :
  DF.has_col c d = true ->
  DF.get_col_opt c (DF.replace_col c v d) = Some v.
Proof.
  unfold DF.has_col, Str.mem, DF.columns.
  induction d as [| [n x] r IH]; simpl; [discriminate |].
  rewrite (String.eqb_sym c n). destruct (n =? c) eqn:E; simpl.
  - intros _. now rewrite E.
  - intros H. rewrite E. auto.
Qed.

Lemma get_col_opt_app_new (c : string) (v : Series) (d : DataFrame) :
  DF.has_col c d = false ->
  DF.get_col_opt c (d ++ [(c, v)]) = Some v.
Proof.
  unfold DF.has_col, Str.mem, DF.columns.
  induction d as [| [n x] r IH]; simpl.
  - intros _. now rewrite String.eqb_refl.
  - rewrite (String.eqb_sym c n). destruct (n =? c) eqn:E; simpl;
      [discriminate | auto].
Qed.

(** Reading back the column just assigned. *)
Lemma get_col_opt_set_col (c : string) (v : Series) (d : DataFrame) :
  DF.get_col_opt c (DF.set_col c v d) = Some v.
Proof.
  unfold DF.set_col. destruct (DF.has_col c d) eqn:E.
  - now apply get_col_opt_replace.
  - now apply get_col_opt_app_new.
Qed.

Lemma get_col_set_col (c : string) (v : Series) (d : DataFrame) :
  DF.get_col c (DF.set_col c v d) = v.
Proof. unfold DF.get_col. now rewrite get_col_opt_set_col. Qed.

Lemma has_col_set_col (c : string) (v : Series) (d : DataFrame) :
  DF.has_col c (DF.set_col c v d) = true.
Proof. apply has_col_get_col_opt. exists v. apply get_col_opt_set_col. Qed.

Lemma get_col_opt_In (c : string) (d : DataFrame) (v : Series) :
  DF.get_col_opt c d = Some v -> In (c, v) d.
Proof.
  induction d as [| [n x] r IH]; simpl; [discriminate |].
  destruct (n =? c) eqn:E.
  - apply String.eqb_eq in E. intros H. inversion H. subst. now left.
  - intros H. right. auto.
Qed.

(** In a rectangular frame every column present has one cell per row. *)
Lemma rectangular_col_length (c : string) (d : DataFrame) :
  rectangular d -> DF.has_col c d = true ->
  List.length (DF.get_col c d) = DF.nrows d.
Proof.
  intros R H. apply has_col_get_col_opt in H. destruct H as [v H].
  unfold DF.get_col. rewrite H.
  apply get_col_opt_In in H. unfold rectangular in R.
  rewrite Forall_forall in R. exact (R _ H).
Qed.

Lemma nth_map_strings (f : string -> string) (l : Series) (i : nat) :
  i < List.length l -> nth i (map f l) "" = f (nth i l "").
Proof.
  intros H. rewrite (nth_indep (map f l) "" (f "")).
  - apply map_nth.
  - now rewrite length_map.
Qed.

Lemma nth_fill_where (mask : list bool) (fill old : Series) (i : nat) :
  i < List.length mask -> i < List.length fill -> i < List.length old ->
  nth i (fill_where mask fill old) "" =
  if nth i mask false then nth i fill "" else nth i old "".
Proof.
  revert fill old i.
  induction mask as [| m ms IH]; intros fill old i Hm Hf Ho; simpl in *; [lia |].
  destruct fill as [| f fs]; simpl in *; [lia |].
  destruct old as [| o os]; simpl in *; [lia |].
  destruct i as [| i]; [reflexivity |].
  apply IH; lia.
Qed.

Lemma forallb_id_nth (mask : list bool) (i : nat) :
  forallb (fun b => b) mask = true -> i < List.length mask ->
  nth i mask false = true.
Proof.
  intros H Hi. rewrite forallb_forall in H. apply H. now apply nth_In.
Qed.

Lemma existsb_id_false_nth (mask : list bool) (i : nat) :
  existsb (fun b => b) mask = false -> nth i mask false = false.
Proof.
  intros H. destruct (nth i mask false) eqn:E; [| reflexivity].
  destruct (Nat.lt_ge_cases i (List.length mask)) as [Hi | Hi].
  - assert (existsb (fun b => b) mask = true)
      by (apply existsb_exists; exists true; split; [rewrite <- E; now apply nth_In | reflexivity]).
    congruence.
  - rewrite nth_overflow in E by lia. discriminate.
Qed.

Lemma forallb_map_id {A : Type} (f : A -> bool) (l : list A) :
  forallb (fun b => b) (map f l) = forallb f l.
Proof. induction l as [| x r IH]; simpl; [reflexivity | now rewrite IH]. Qed.

(** ** C3: the id cascade *)

(** C3, as documented, fails: with an [id] column present but wholly
    null-like, the code takes the filename stem and never looks at [sku];
    the documented cascade would give the sku. *)
Lemma id_cascade_documented_fails :
  DF.get_col "id" (assign_ids PosixPath.stem catalog_empty_id_with_sku) = ["b"]
  /\ cascade_as_documented PosixPath.stem catalog_empty_id_with_sku = ["S1"]
  /\ _load_csv_filtered PosixPath.stem (Some (Returns catalog_empty_id_with_sku))
     = Ok [("id", ["b"]); ("sku", ["S1"]); ("image_url", ["a/b.jpg"])]
  /\ DF.get_col "id" (assign_ids PosixPath.stem catalog_empty_id_with_sku)
     <> cascade_as_documented PosixPath.stem catalog_empty_id_with_sku.
Proof. repeat split; try reflexivity. discriminate. Qed.

Section IdCascade.

Variable stem : string -> string.

(** C3 (amended): ids are resolved once per dataset, row by row as follows.
    With an [id] column that is not wholly null-like, a row keeps its
    stripped id, and a null-like cell is filled from the filename stem of
    the row's image source. With an [id] column that is wholly null-like,
    every id is the filename stem; [sku] is not consulted. Without an [id]
    column, every id is the stripped [sku] if a [sku] column has a non-empty
    value, and the filename stem otherwise. *)
Theorem id_cascade_by_row (d : DataFrame) (i : nat) :
  rectangular d -> DF.has_col "image_url" d = true -> i < DF.nrows d ->
  let stem_i := stem_or_empty stem (nth i (DF.get_col "image_url" d) "") in
  let cell := Str.strip (nth i (DF.get_col "id" d) "") in
  let all_null := forallb null_like (map Str.strip (DF.get_col "id" d)) in
  let sku_usable :=
    DF.has_col "sku" d
    && existsb Str.nonempty (map Str.strip (DF.get_col "sku" d)) in
  let resolved := nth i (DF.get_col "id" (assign_ids stem d)) "" in
  (DF.has_col "id" d = true -> all_null = false ->
   resolved = if null_like cell then stem_i else cell)
  /\ (DF.has_col "id" d = true -> all_null = true -> resolved = stem_i)
  /\ (DF.has_col "id" d = false -> sku_usable = true ->
      resolved = Str.strip (nth i (DF.get_col "sku" d) ""))
  /\ (DF.has_col "id" d = false -> sku_usable = false -> resolved = stem_i).
Proof.
  intros R Himg Hi stem_i cell all_null sku_usable resolved.
  assert (Limg : List.length (DF.get_col "image_url" d) = DF.nrows d)
    by now apply rectangular_col_length.
  assert (Hstem : nth i (map (stem_or_empty stem) (DF.get_col "image_url" d)) ""
                  = stem_i).
  { rewrite (nth_indep _ "" (stem_or_empty stem "")).
    - apply map_nth.
    - rewrite length_map. lia. }
  subst resolved. unfold assign_ids.
  repeat split.
  - intros Hid Hnull. rewrite Hid. simpl negb. cbv iota.
    assert (Lid : List.length (DF.get_col "id" d) = DF.nrows d)
      by now apply rectangular_col_length.
    rewrite forallb_map_id. fold all_null. rewrite Hnull.
    assert (Hcell : nth i (map Str.strip (DF.get_col "id" d)) "" = cell)
      by (apply nth_map_strings; lia).
    assert (Hmask : nth i (map null_like (map Str.strip (DF.get_col "id" d))) false
                    = null_like cell).
    { rewrite <- Hcell.
      rewrite (nth_indep _ false (null_like "")) by (rewrite !length_map; lia).
      apply map_nth. }
    destruct (existsb (fun b => b) _) eqn:Hany.
    + rewrite get_col_set_col, nth_fill_where by (rewrite ?length_map; lia).
      rewrite Hmask, Hstem, Hcell. reflexivity.
    + rewrite get_col_set_col, Hcell.
      apply (existsb_id_false_nth _ i) in Hany. rewrite Hmask in Hany.
      now rewrite Hany.
  - intros Hid Hnull. rewrite Hid. simpl negb. cbv iota.
    rewrite forallb_map_id. fold all_null. rewrite Hnull.
    now rewrite get_col_set_col.
  - intros Hid Hsku. rewrite Hid. simpl negb. cbv iota.
    fold sku_usable. rewrite Hsku. rewrite get_col_set_col.
    apply nth_map_strings.
    apply andb_prop in Hsku. destruct Hsku as [Hsku _].
    rewrite rectangular_col_length; assumption.
  - intros Hid Hsku. rewrite Hid. simpl negb. cbv iota.
    fold sku_usable. rewrite Hsku. now rewrite get_col_set_col.
Qed.

End IdCascade.

Lemma id_cascade_by_row_witness :
  let d := [("id", ["A7"; "none"]); ("sku", ["S1"; "S2"]);
            ("image_url", ["img/a.jpg"; "img/shoe.png"])] in
  nth 1 (DF.get_col "id" (assign_ids PosixPath.stem d)) "" = "shoe".
Proof.
  intros d.
  assert (R : rectangular d) by (repeat constructor).
  assert (Hi : 1 < DF.nrows d) by (simpl; lia).
  destruct (id_cascade_by_row PosixPath.stem d 1 R eq_refl Hi) as [H _].
  exact (H eq_refl eq_refl).
Defined.

(** ** The loaded frame always has its [id] and [image_url] columns *)

Lemma columns_replace_col (c : string) (v : Series) (d : DataFrame) :
  DF.columns (DF.replace_col c v d) = DF.columns d.
Proof.
  unfold DF.columns. induction d as [| [n x] r IH]; simpl; [reflexivity |].
  destruct (n =? c); simpl; [reflexivity | now rewrite IH].
Qed.

Lemma has_col_set_col_other (c c' : string) (v : Series) (d : DataFrame) :
  DF.has_col c d = true -> DF.has_col c (DF.set_col c' v d) = true.
Proof.
  unfold DF.set_col. destruct (DF.has_col c' d).
  - unfold DF.has_col. now rewrite columns_replace_col.
  - unfold DF.has_col, DF.columns, Str.mem. rewrite map_app, existsb_app.
    intros ->. reflexivity.
Qed.

Lemma columns_mask_rows (mask : list bool) (d : DataFrame) :
  DF.columns (DF.mask_rows mask d) = DF.columns d.
Proof.
  unfold DF.columns, DF.mask_rows. rewrite map_map.
  apply map_ext. now intros [n v].
Qed.

Lemma has_col_mask_rows (c : string) (mask : list bool) (d : DataFrame) :
  DF.has_col c (DF.mask_rows mask d) = DF.has_col c d.
Proof. unfold DF.has_col. now rewrite columns_mask_rows. Qed.

Lemma assign_ids_has_id (stem : string -> string) (d : DataFrame) :
  DF.has_col "id" (assign_ids stem d) = true.
Proof.
  unfold assign_ids.
  repeat match goal with
         | |- context [if ?b then _ else _] => destruct b
         end; apply has_col_set_col.
Qed.

Lemma assign_ids_keeps_col (stem : string -> string) (c : string) (d : DataFrame) :
  DF.has_col c d = true -> DF.has_col c (assign_ids stem d) = true.
Proof.
  intros H. unfold assign_ids.
  repeat match goal with
         | |- context [if ?b then _ else _] => destruct b
         end; repeat apply has_col_set_col_other; exact H.
Qed.

Lemma load_has_columns (stem : string -> string) (c : csv_file) (d : DataFrame) :
  _load_csv_filtered stem c = Ok d ->
  DF.has_col "id" d = true /\ DF.has_col "image_url" d = true.
Proof.
  unfold _load_csv_filtered. destruct c as [[d0 | e] |]; simpl; try discriminate.
  destruct (_detect_image_column d0) as [img_col | e]; simpl; try discriminate.
  intros H. inversion H; subst; clear H.
  rewrite !has_col_mask_rows. split.
  - apply has_col_set_col.
  - apply has_col_set_col_other, assign_ids_keeps_col.
    rewrite has_col_mask_rows. apply has_col_set_col.
Qed.

Lemma row_get_row_at (c : string) (i : nat) (d : DataFrame) (v : Series) :
  DF.get_col_opt c d = Some v ->
  DF.row_get c (DF.row_at i d) = Some (nth i v "").
Proof.
  unfold DF.row_at. induction d as [| [n x] r IH]; simpl; [discriminate |].
  destruct (n =? c); [intros H; inversion H; reflexivity | exact IH].
Qed.

Lemma iterrows_row_get (c : string) (d : DataFrame) (row : DF.Row) :
  DF.has_col c d = true -> In row (DF.iterrows d) ->
  exists s, DF.row_get c row = Some s.
Proof.
  intros H Hin. apply has_col_get_col_opt in H. destruct H as [v H].
  unfold DF.iterrows in Hin. apply in_map_iff in Hin.
  destruct Hin as [i [<- _]]. exists (nth i v ""). now apply row_get_row_at.
Qed.

(** ** The build loop *)

Section BuildLoop.

Variable w : World.

Lemma build_loop_spec (rows : list DF.Row) (vecs : list Vec)
  (ids_local : list string) (n : nat) :
  build_loop w rows vecs ids_local n =
  (vecs ++ flat_map (row_vecs w) rows,
   ids_local ++ flat_map (row_ids w) rows,
   n + List.length (filter (fun r => negb (row_built w r)) rows)).
Proof.
  revert vecs ids_local n.
  induction rows as [| row rest IH]; intros vecs ids_local n; simpl.
  - now rewrite !app_nil_r, Nat.add_0_r.
  - unfold row_vecs, row_ids, row_built.
    destruct (index_row w row) as [ov [i | e]]; simpl; rewrite IH;
      destruct ov as [v |]; simpl; rewrite <- ?app_assoc; simpl;
      rewrite ?Nat.add_succ_r; reflexivity.
Qed.

(** One failing record does not end the loop: the rows after it are
    processed from the accumulators it left. *)
Lemma build_loop_app (rows1 rows2 : list DF.Row) (vecs : list Vec)
  (ids_local : list string) (n : nat) :
  build_loop w (rows1 ++ rows2) vecs ids_local n =
  let '(vecs1, ids1, n1) := build_loop w rows1 vecs ids_local n in
  build_loop w rows2 vecs1 ids1 n1.
Proof.
  revert vecs ids_local n.
  induction rows1 as [| row rest IH]; intros vecs ids_local n; simpl.
  - reflexivity.
  - destruct (index_row w row) as [ov [i | e]]; apply IH.
Qed.

(** A row that has its [id] cell yields a vector exactly when it is built. *)
Lemma index_row_with_id (row : DF.Row) (s : string) :
  DF.row_get "id" row = Some s ->
  (exists v, index_row w row = (Some v, Ok s))
  \/ (exists e, index_row w row = (None, Raise e)).
Proof.
  intros Hid. unfold index_row. rewrite Hid.
  destruct (DF.row_get "image_url" row) as [u |]; [| right; eauto].
  destruct (bind _ _) as [v | e]; [left | right]; eauto.
Qed.

Lemma rows_with_id_aligned (rows : list DF.Row) :
  (forall row, In row rows -> exists s, DF.row_get "id" row = Some s) ->
  flat_map (row_vecs w) rows = map snd (flat_map (row_entry w) rows)
  /\ flat_map (row_ids w) rows = map fst (flat_map (row_entry w) rows)
  /\ List.length (flat_map (row_entry w) rows)
     = List.length (filter (row_built w) rows).
Proof.
  induction rows as [| row rest IH]; intros H; simpl; [auto |].
  destruct IH as [IH1 [IH2 IH3]]; [intros r Hr; apply H; now right |].
  destruct (H row (or_introl eq_refl)) as [s Hs].
  rewrite !map_app, length_app, IH1, IH2, IH3.
  unfold row_vecs, row_ids, row_entry, row_built.
  destruct (index_row_with_id row s Hs) as [[v E] | [e E]]; rewrite E; simpl;
    auto.
Qed.

End BuildLoop.

(** ** The builder as a whole *)

Lemma vstack_returns (vecs : list Vec) (m : Matrix) :
  vstack vecs = Returns m ->
  m = vecs /\ vecs <> []
  /\ exists D, Forall (fun v => List.length v = D) vecs.
Proof.
  unfold vstack. destruct vecs as [| v rest]; [discriminate |].
  destruct (forallb (fun u => (List.length u =? List.length v)%nat) rest)
    eqn:E; [| discriminate].
  intros H. inversion H. split; [reflexivity |]. split; [discriminate |].
  exists (List.length v). constructor; [reflexivity |].
  rewrite forallb_forall in E. apply Forall_forall. intros u Hu.
  now apply Nat.eqb_eq, E.
Qed.

Lemma vstack_one_dimension (vecs : list Vec) (D : nat) :
  vecs <> [] -> Forall (fun v => List.length v = D) vecs ->
  vstack vecs = Returns vecs.
Proof.
  intros Hne H. destruct vecs as [| v rest]; [now elim Hne |].
  unfold vstack. inversion H as [| ? ? Hv Hrest]; subst.
  assert (E : forallb (fun u => (List.length u =? List.length v)%nat) rest
              = true).
  { apply forallb_forall. intros u Hu. apply Nat.eqb_eq.
    rewrite Forall_forall in Hrest. now apply Hrest. }
  now rewrite E.
Qed.

Section BuilderFacts.

Variable w : World.

(** The outcome of everything before the writes, in terms of what each
    row contributes. *)
Lemma build_prepare_spec (st : State) (dframe : DataFrame) :
  _load_csv_filtered (stem w) (csv st) = Ok dframe ->
  build_prepare w st =
  match flat_map (row_entry w) (DF.iterrows dframe) with
  | [] => Raise empty_index_error
  | entries =>
      m <- call (vstack (map snd entries)) ;;
      Ok (dframe, m, map fst entries,
          List.length (filter (fun r => negb (row_built w r)) (DF.iterrows dframe)))
  end.
Proof.
  intros Hload. unfold build_prepare. rewrite Hload. simpl.
  rewrite build_loop_spec. simpl.
  destruct (load_has_columns _ _ _ Hload) as [Hid _].
  destruct (rows_with_id_aligned w (DF.iterrows dframe)) as [Hv [Hi _]].
  { intros row Hin. eapply iterrows_row_get; eassumption. }
  rewrite Hv, Hi.
  destruct (flat_map (row_entry w) (DF.iterrows dframe)); reflexivity.
Qed.

Lemma build_prepare_load_error (st : State) (e : exn) :
  _load_csv_filtered (stem w) (csv st) = Raise e ->
  build_prepare w st = Raise e.
Proof. intros H. unfold build_prepare. now rewrite H. Qed.

Lemma built_count (dframe : DataFrame) :
  DF.has_col "id" dframe = true ->
  List.length (flat_map (row_entry w) (DF.iterrows dframe))
  = List.length (filter (row_built w) (DF.iterrows dframe)).
Proof.
  intros Hid.
  destruct (rows_with_id_aligned w (DF.iterrows dframe)) as [_ [_ H]];
    [| exact H].
  intros row Hin. eapply iterrows_row_get; eassumption.
Qed.

Lemma filter_partition_length {A : Type} (f : A -> bool) (l : list A) :
  List.length (filter f l) + List.length (filter (fun x => negb (f x)) l)
  = List.length l.
Proof.
  induction l as [| x r IH]; simpl; [reflexivity |].
  destruct (f x); simpl; lia.
Qed.

(** The build after its loop, write by write. *)
Lemma build_run_prepared (st : State) (dframe : DataFrame) (m : Matrix)
  (l : list string) (n : nat) :
  build_prepare w st = Ok (dframe, m, l, n) ->
  build_run w st =
  match np_save w (index_npy st) m with
  | WriteFails c msg f =>
      (Raise (Exception c msg), [st; set_index_npy f st])
  | Written =>
      let st1 := set_index_npy (Some (Returns m)) st in
      match write_text w (ids_json st) l with
      | WriteFails c msg f =>
          (Raise (Exception c msg), [st; st1; set_ids_json f st1])
      | Written =>
          let st2 := set_ids_json (Some (Returns (IdsItems l))) st1 in
          (Ok (mkSummary "index built" (List.length l) n),
           st :: st1 :: run_writes (publish_writes dframe m l) st2)
      end
  end.
Proof. intros H. unfold build_run. rewrite H. reflexivity. Qed.

Lemma build_run_unprepared (st : State) (e : exn) :
  build_prepare w st = Raise e -> build_run w st = (Raise e, [st]).
Proof. intros H. unfold build_run. now rewrite H. Qed.

(** A build that returns has stacked, saved and written, and ends in the
    state that holds the new triple and the new artifacts. *)
Lemma build_success_inv (st : State) (info : Summary) :
  fst (_build_index_from_csv w st) = Ok info ->
  exists dframe m l n,
    build_prepare w st = Ok (dframe, m, l, n)
    /\ _load_csv_filtered (stem w) (csv st) = Ok dframe
    /\ m = map snd (flat_map (row_entry w) (DF.iterrows dframe))
    /\ l = map fst (flat_map (row_entry w) (DF.iterrows dframe))
    /\ n = List.length (filter (fun r => negb (row_built w r))
                               (DF.iterrows dframe))
    /\ info = mkSummary "index built" (List.length l) n
    /\ np_save w (index_npy st) m = Written
    /\ write_text w (ids_json st) l = Written
    /\ snd (_build_index_from_csv w st)
       = mkState (Some dframe) (Some m) l (csv st)
                 (Some (Returns m)) (Some (Returns (IdsItems l)))
    /\ build_trace w st
       = st :: set_index_npy (Some (Returns m)) st
            :: run_writes (publish_writes dframe m l)
                 (set_ids_json (Some (Returns (IdsItems l)))
                    (set_index_npy (Some (Returns m)) st)).
Proof.
  unfold _build_index_from_csv, build_trace. cbn [fst snd].
  destruct (_load_csv_filtered (stem w) (csv st)) as [dframe | e] eqn:Hload.
  - pose proof (build_prepare_spec st dframe Hload) as Hprep.
    destruct (flat_map (row_entry w) (DF.iterrows dframe)) as [| en ens] eqn:E.
    + rewrite (build_run_unprepared st _ Hprep). discriminate.
    + cbv zeta in Hprep.
      destruct (vstack (map snd (en :: ens))) as [m | c msg] eqn:Ev;
        cbn [call bind] in Hprep.
      * destruct (vstack_returns _ _ Ev) as [-> _].
        rewrite (build_run_prepared st _ _ _ _ Hprep).
        destruct (np_save w (index_npy st) (map snd (en :: ens)))
          as [| c msg f] eqn:Es; [| discriminate].
        destruct (write_text w (ids_json st) (map fst (en :: ens)))
          as [| c msg f] eqn:Ew; [| discriminate].
        cbv zeta. cbn [fst snd]. intros H. inversion H.
        exists dframe, (map snd (en :: ens)), (map fst (en :: ens)).
        eexists. repeat split; try reflexivity; try assumption;
          now rewrite E.
      * rewrite (build_run_unprepared st _ Hprep). discriminate.
  - rewrite (build_run_unprepared st e (build_prepare_load_error st e Hload)).
    discriminate.
Qed.

(** Where a build that raises stopped: before the writes, at [np.save], or
    at [write_text] after [np.save] returned. *)
Lemma build_failure_inv (st : State) (e : exn) :
  fst (_build_index_from_csv w st) = Raise e ->
  (build_prepare w st = Raise e
   /\ build_trace w st = [st]
   /\ snd (_build_index_from_csv w st) = st)
  \/ (exists dframe m l n c msg f,
        build_prepare w st = Ok (dframe, m, l, n)
        /\ np_save w (index_npy st) m = WriteFails c msg f
        /\ e = Exception c msg
        /\ build_trace w st = [st; set_index_npy f st]
        /\ snd (_build_index_from_csv w st) = set_index_npy f st)
  \/ (exists dframe m l n c msg f,
        build_prepare w st = Ok (dframe, m, l, n)
        /\ np_save w (index_npy st) m = Written
        /\ write_text w (ids_json st) l = WriteFails c msg f
        /\ e = Exception c msg
        /\ build_trace w st
           = [st; set_index_npy (Some (Returns m)) st;
              set_ids_json f (set_index_npy (Some (Returns m)) st)]
        /\ snd (_build_index_from_csv w st)
           = set_ids_json f (set_index_npy (Some (Returns m)) st)).
Proof.
  unfold _build_index_from_csv, build_trace. cbn [fst snd].
  destruct (build_prepare w st) as [[[[dframe m] l] n] | e'] eqn:Hprep.
  - rewrite (build_run_prepared st _ _ _ _ Hprep).
    destruct (np_save w (index_npy st) m) as [| c msg f] eqn:Es.
    + destruct (write_text w (ids_json st) l) as [| c msg f] eqn:Ew.
      * discriminate.
      * cbv zeta. cbn [fst snd]. intros H. inversion H. right. right.
        exists dframe, m, l, n, c, msg, f. repeat split; auto.
    + cbn [fst snd]. intros H. inversion H. right. left.
      exists dframe, m, l, n, c, msg, f. repeat split; auto.
  - rewrite (build_run_unprepared st _ Hprep). cbn [fst snd].
    intros H. inversion H. subst. left. repeat split.
Qed.

(** The vectors of the rows that are built all come out of the extractor. *)
Lemma row_entry_vector (row : DF.Row) (i : string) (v : Vec) :
  In (i, v) (row_entry w row) ->
  exists img raw, clip_features w img = Returns raw /\ v = l2_normalize w raw.
Proof.
  unfold row_entry, index_row.
  destruct (DF.row_get "image_url" row) as [u |]; [| intros []].
  destruct (_open_image_from_url_or_path w u) as [img | e]; cbn [bind];
    [| intros []].
  unfold _img_to_vec.
  destruct (clip_features w img) as [raw | c msg] eqn:Ef; cbn [call bind];
    [| intros []].
  destruct (DF.row_get "id" row); intros H; [| destruct H].
  destruct H as [H | []]. inversion H. eauto.
Qed.

Lemma row_entries_vectors (rows : list DF.Row) :
  Forall (fun v => exists img raw,
            clip_features w img = Returns raw /\ v = l2_normalize w raw)
         (map snd (flat_map (row_entry w) rows)).
Proof.
  apply Forall_forall. intros v Hv.
  apply in_map_iff in Hv. destruct Hv as [[i v'] [Hs Hin]]. simpl in Hs. subst.
  apply in_flat_map in Hin. destruct Hin as [row [_ Hin]].
  eapply row_entry_vector. exact Hin.
Qed.

Lemma l2_normalize_length (raw : Vec) :
  List.length (l2_normalize w raw) = List.length raw.
Proof. unfold l2_normalize. apply length_map. Qed.

(** With an extractor of one dimension the stacking never raises. *)
Lemma vstack_entries (rows : list DF.Row) :
  fixed_dimension w ->
  flat_map (row_entry w) rows <> [] ->
  vstack (map snd (flat_map (row_entry w) rows))
  = Returns (map snd (flat_map (row_entry w) rows)).
Proof.
  intros [D HD] Hne. apply (vstack_one_dimension _ D).
  - intros H. apply map_eq_nil in H. contradiction.
  - eapply Forall_impl; [| apply row_entries_vectors].
    intros v [img [raw [Hf ->]]]. rewrite l2_normalize_length.
    eapply HD. exact Hf.
Qed.

(** The result of a build whose catalog loads. *)
Lemma build_outcome (st : State) (dframe : DataFrame) :
  _load_csv_filtered (stem w) (csv st) = Ok dframe ->
  let rows := DF.iterrows dframe in
  let built := filter (row_built w) rows in
  let failed := filter (fun r => negb (row_built w r)) rows in
  let entries := flat_map (row_entry w) rows in
  List.length entries = List.length built
  /\ (built = [] ->
      fst (_build_index_from_csv w st) = Raise empty_index_error)
  /\ (built <> [] ->
      fst (_build_index_from_csv w st)
      = match vstack (map snd entries) with
        | Throws c msg => Raise (Exception c msg)
        | Returns m =>
            match np_save w (index_npy st) m with
            | WriteFails c msg _ => Raise (Exception c msg)
            | Written =>
                match write_text w (ids_json st) (map fst entries) with
                | WriteFails c msg _ => Raise (Exception c msg)
                | Written =>
                    Ok (mkSummary "index built" (List.length built)
                                  (List.length failed))
                end
            end
        end).
Proof.
  intros Hload rows built failed entries.
  pose proof (build_prepare_spec st dframe Hload) as Hprep.
  destruct (load_has_columns _ _ _ Hload) as [Hid _].
  pose proof (built_count dframe Hid) as Hcount.
  fold rows in Hprep, Hcount. fold built in Hcount. fold failed in Hprep.
  fold entries in Hprep, Hcount.
  split; [exact Hcount |].
  unfold _build_index_from_csv. cbn [fst].
  destruct entries as [| en ens] eqn:E.
  - split.
    + intros _. now rewrite (build_run_unprepared st _ Hprep).
    + intros Hne. exfalso. apply Hne. apply length_zero_iff_nil.
      now rewrite <- Hcount.
  - split.
    + intros Hb. rewrite Hb in Hcount. discriminate.
    + intros _.
      cbv zeta in Hprep.
      destruct (vstack (map snd (en :: ens))) as [m | c msg] eqn:Ev;
        cbn [call bind] in Hprep.
      * rewrite (build_run_prepared st _ _ _ _ Hprep).
        destruct (np_save w (index_npy st) m) as [| c msg f];
          [| reflexivity].
        destruct (write_text w (ids_json st) (map fst (en :: ens)))
          as [| c msg f]; [| reflexivity].
        cbv zeta. cbn [fst]. rewrite length_map. now rewrite Hcount.
      * now rewrite (build_run_unprepared st _ Hprep).
Qed.

(** C5: every record is either built or counted as skipped, whatever
    exception its acquisition, extraction or normalisation raised, and the
    loop goes on to the records after it. When no record was built the build
    fails with the empty index error. When some were, the build goes on to
    stack, save and write: on a disk that takes the writes, with an
    extractor of one dimension, it returns the summary with the built count
    and the skipped count, so that it fails with the empty index error
    exactly when no record was built; otherwise the first of the three steps
    that raises ends it. *)
Theorem build_isolates_record_failures (st : State) (dframe : DataFrame) :
  _load_csv_filtered (stem w) (csv st) = Ok dframe ->
  let rows := DF.iterrows dframe in
  let built := filter (row_built w) rows in
  let failed := filter (fun r => negb (row_built w r)) rows in
  let entries := flat_map (row_entry w) rows in
  List.length built + List.length failed = List.length rows
  /\ (built = [] ->
      fst (_build_index_from_csv w st) = Raise empty_index_error)
  /\ (disk_writable w -> fixed_dimension w ->
      (fst (_build_index_from_csv w st) = Raise empty_index_error
       <-> built = [])
      /\ (built <> [] ->
          fst (_build_index_from_csv w st)
          = Ok (mkSummary "index built" (List.length built)
                          (List.length failed))))
  /\ (built <> [] ->
      fst (_build_index_from_csv w st)
      = match vstack (map snd entries) with
        | Throws c msg => Raise (Exception c msg)
        | Returns m =>
            match np_save w (index_npy st) m with
            | WriteFails c msg _ => Raise (Exception c msg)
            | Written =>
                match write_text w (ids_json st) (map fst entries) with
                | WriteFails c msg _ => Raise (Exception c msg)
                | Written =>
                    Ok (mkSummary "index built" (List.length built)
                                  (List.length failed))
                end
            end
        end)
  /\ (forall before after vecs ids_local n,
        rows = before ++ after ->
        build_loop w rows vecs ids_local n
        = let '(vecs1, ids1, n1) := build_loop w before vecs ids_local n in
          build_loop w after vecs1 ids1 n1).
Proof.
  intros Hload rows built failed entries.
  destruct (build_outcome st dframe Hload) as [Hlen [Hnone Hsome]].
  fold rows built failed entries in Hlen, Hnone, Hsome.
  split; [apply filter_partition_length |].
  split; [exact Hnone |].
  split; [| split; [exact Hsome |]].
  - intros [Hsave Hwrite] Hdim.
    assert (Hok : built <> [] ->
              fst (_build_index_from_csv w st)
              = Ok (mkSummary "index built" (List.length built)
                              (List.length failed))).
    { intros Hb. rewrite (Hsome Hb).
      assert (Hne : entries <> []).
      { intros He. apply Hb. apply length_zero_iff_nil.
        now rewrite <- Hlen, He. }
      unfold entries. rewrite (vstack_entries rows Hdim Hne).
      now rewrite Hsave, Hwrite. }
    split; [| exact Hok].
    split; [| exact Hnone].
    intros H. destruct built as [| r rs] eqn:Eb; [reflexivity |].
    rewrite Hok in H by discriminate. discriminate.
  - intros before after vecs ids_local n ->. apply build_loop_app.
Qed.

(** C9 (amended): a build that raises never assigns a global: the three
    globals are as they were at every moment of the build, and the catalog
    file is not touched. The two artifacts are as they were when the build
    stopped before its writes (catalog unreadable or without image column,
    no record built, vectors that do not stack). A build that stops at
    [np.save] leaves [embeddings.npy] as the failed write left it, and a
    build that stops at [write_text] has already replaced [embeddings.npy]
    by the new matrix and leaves [ids.json] as the failed write left it.
    The route turns the exception into a 500. *)
Theorem failed_build_leaves_state (st : State) (e : exn) :
  fst (_build_index_from_csv w st) = Raise e ->
  let st' := snd (_build_index_from_csv w st) in
  view st' = view st
  /\ csv st' = csv st
  /\ Forall (fun s => view s = view st) (build_trace w st)
  /\ (build_prepare w st = Raise e
      /\ st' = st /\ build_trace w st = [st]
      \/ (exists dframe m l n c msg f,
            build_prepare w st = Ok (dframe, m, l, n)
            /\ np_save w (index_npy st) m = WriteFails c msg f
            /\ e = Exception c msg
            /\ artifacts st' = (f, ids_json st))
      \/ (exists dframe m l n c msg f,
            build_prepare w st = Ok (dframe, m, l, n)
            /\ np_save w (index_npy st) m = Written
            /\ write_text w (ids_json st) l = WriteFails c msg f
            /\ e = Exception c msg
            /\ artifacts st' = (Some (Returns m), f)))
  /\ snd (build_index w st) = st'
  /\ fst (build_index w st) = Raise (HTTPException 500 (str_exn e)).
Proof.
  intros Hfail st'.
  assert (Hroute : snd (build_index w st) = st'
                   /\ fst (build_index w st)
                      = Raise (HTTPException 500 (str_exn e))).
  { unfold build_index. subst st'.
    destruct (_build_index_from_csv w st) as [r s] eqn:E.
    cbn [fst snd] in *. subst r. split; reflexivity. }
  destruct (build_failure_inv st e Hfail)
    as [[Hp [Ht Hs]]
       | [[dframe [m [l [n [c [msg [f [Hp [Hsv [He [Ht Hs]]]]]]]]]]]
         | [dframe [m [l [n [c [msg [f [Hp [Hsv [Hw [He [Ht Hs]]]]]]]]]]]]]];
    fold st' in Hs; rewrite Ht;
    (split; [now rewrite Hs |]);
    (split; [now rewrite Hs |]);
    (split; [repeat constructor |]);
    (split; [| exact Hroute]).
  - left. repeat split; assumption.
  - right. left. exists dframe, m, l, n, c, msg, f.
    rewrite Hs. repeat split; assumption.
  - right. right. exists dframe, m, l, n, c, msg, f.
    rewrite Hs. repeat split; assumption.
Qed.

End BuilderFacts.

Lemma demo_disk_writable : disk_writable demo_world.
Proof. split; reflexivity. Qed.

Lemma demo_fixed_dimension : fixed_dimension demo_world.
Proof.
  exists 2. intros img v. cbn [clip_features demo_world Demo.world].
  unfold Demo.features.
  repeat (match goal with
          | |- context [if ?b then _ else _] => destruct b
          end);
    intros H; inversion H; reflexivity.
Qed.

Lemma build_isolates_record_failures_witness :
  fst (_build_index_from_csv demo_world (fresh catalog_abcd))
  = Ok (mkSummary "index built" 3 1).
Proof.
  destruct (build_isolates_record_failures demo_world (fresh catalog_abcd)
              catalog_abcd eq_refl) as [_ [_ [H _]]].
  apply (H demo_disk_writable demo_fixed_dimension). vm_compute. discriminate.
Defined.

Lemma failed_build_leaves_state_witness :
  let st := with_csv (Some (Returns catalog_broken)) built_abcd in
  view (snd (_build_index_from_csv demo_world st)) = view st
  /\ ids st = ["A"; "B"; "C"].
Proof.
  intros st. split.
  - exact (proj1 (failed_build_leaves_state demo_world st empty_index_error
                    eq_refl)).
  - reflexivity.
Defined.

(** C9, as documented, fails: with a full disk under [ids.json], a rebuild
    over a new catalog raises after [np.save] has returned. The globals are
    as they were, but [embeddings.npy] now holds the two rows of the new
    catalog beside the three ids of the old one, and a restart publishes
    the two together. *)
Lemma failed_build_replaces_matrix_file :
  let st := rebuild_xy in
  let st' := snd (_build_index_from_csv ids_write_fails st) in
  fst (_build_index_from_csv ids_write_fails st)
  = Raise (Exception "OSError" "[Errno 28] No space left on device")
  /\ view st' = view st
  /\ artifacts st' <> artifacts st
  /\ option_map (fun f => match f with
                          | Returns m => List.length m
                          | Throws _ _ => 0
                          end) (index_npy st') = Some 2
  /\ ids_json st' = Some (Returns (IdsItems ["A"; "B"; "C"]))
  /\ option_map (@List.length Vec)
       (embeddings (on_startup ids_write_fails (restart st'))) = Some 2
  /\ ids (on_startup ids_write_fails (restart st')) = ["A"; "B"; "C"].
Proof.
  cbv zeta. split; [vm_compute; reflexivity |].
  split; [vm_compute; reflexivity |].
  split; [| repeat split; vm_compute; reflexivity].
  intros H. apply (f_equal fst) in H. vm_compute in H. discriminate.
Qed.

Example build_fails_on_missing_catalog :
  fst (_build_index_from_csv demo_world (initial_state None None None))
  = Raise (Exception "FileNotFoundError" "products.csv not found").
Proof. reflexivity. Qed.

Example build_fails_without_image_column :
  fst (_build_index_from_csv demo_world (fresh [("id", ["A"]); ("title", ["t"])]))
  = Raise (Exception "ValueError"
      "products.csv must contain an image column (e.g. 'image_url', 'image', 'url', 'img')").
Proof. reflexivity. Qed.

(** ** What a successful build publishes *)

Lemma combine_fst_snd {A B : Type} (l : list (A * B)) :
  combine (map fst l) (map snd l) = l.
Proof.
  induction l as [| [a b] r IH]; simpl; [reflexivity | now rewrite IH].
Qed.

Section Publication.

Variable w : World.

(** C8 (amended): after every successful build the id list is as long as
    the matrix has rows, the i-th id and the i-th row come from the same
    catalog record, the rows have one dimension, both artifacts hold what
    was published, and every stored vector is the extractor's output [v]
    divided, in floats, by the float sum of [norm v] and [1e-10]. Nothing
    is claimed of the norm of what is stored, and nothing of this is
    checked or restored when an index is loaded at startup. *)
Theorem build_publishes_aligned_index (st : State) (info : Summary) :
  fst (_build_index_from_csv w st) = Ok info ->
  let st' := snd (_build_index_from_csv w st) in
  exists dframe m,
    _load_csv_filtered (stem w) (csv st) = Ok dframe
    /\ df st' = Some dframe
    /\ embeddings st' = Some m
    /\ List.length (ids st') = List.length m
    /\ combine (ids st') m = flat_map (row_entry w) (DF.iterrows dframe)
    /\ artifacts st' = (Some (Returns m), Some (Returns (IdsItems (ids st'))))
    /\ count info = List.length m
    /\ (exists D, Forall (fun v => List.length v = D) m)
    /\ Forall (fun v =>
                 exists img raw,
                   clip_features w img = Returns raw
                   /\ v = map (fun x =>
                                 float_div w x
                                   (float_add w (linalg_norm w raw) eps))
                              raw)
              m.
Proof.
  intros Hok st'.
  destruct (build_success_inv w st info Hok)
    as [dframe [m [l [n [Hprep [Hload [Hm [Hl [_ [Hinfo [_ [_ [Hs _]]]]]]]]]]]]].
  subst st'. rewrite Hs. cbn [df embeddings ids artifacts index_npy ids_json].
  exists dframe, m.
  split; [exact Hload |]. do 2 (split; [reflexivity |]).
  split; [subst m l; now rewrite !length_map |].
  split; [subst m l; apply combine_fst_snd |].
  split; [reflexivity |].
  split; [subst info m l; cbn [count]; now rewrite !length_map |].
  split.
  - pose proof (build_prepare_spec w st dframe Hload) as Hspec.
    rewrite Hprep in Hspec.
    destruct (flat_map (row_entry w) (DF.iterrows dframe)) as [| en ens];
      [discriminate |].
    cbv zeta in Hspec.
    destruct (vstack (map snd (en :: ens))) as [m' | c msg] eqn:Ev;
      cbn [call bind] in Hspec; [| discriminate].
    destruct (vstack_returns _ _ Ev) as [_ [_ HD]]. subst m. exact HD.
  - subst m. apply row_entries_vectors.
Qed.

(** C4 (amended): loading the persisted index compares nothing. Whenever
    both artifacts exist and can be read, startup publishes the matrix and
    the ids exactly as read, whatever their lengths, leaves the artifacts as
    they are and does not rebuild. *)
Theorem startup_publishes_artifacts_as_read (st : State) (m : Matrix)
  (l : list string) :
  index_npy st = Some (Returns m) ->
  ids_json st = Some (Returns (IdsItems l)) ->
  embeddings (on_startup w st) = Some m
  /\ ids (on_startup w st) = l
  /\ artifacts (on_startup w st) = artifacts st
  /\ df (on_startup w st)
     = match _load_csv_filtered (stem w) (csv st) with
       | Ok d => Some d
       | Raise _ => None
       end.
Proof.
  intros Hm Hl. unfold on_startup, load_existing, set_df, artifacts.
  cbn [index_npy ids_json df embeddings ids csv].
  rewrite Hm, Hl. cbn. repeat split.
Qed.

End Publication.

Lemma build_publishes_aligned_index_witness :
  exists dframe m,
    _load_csv_filtered PosixPath.stem (Some (Returns catalog_abcd)) = Ok dframe
    /\ embeddings built_abcd = Some m
    /\ List.length (ids built_abcd) = List.length m.
Proof.
  destruct (build_publishes_aligned_index demo_world (fresh catalog_abcd)
              (mkSummary "index built" 3 1) eq_refl)
    as [dframe [m [H1 [_ [H3 [H4 _]]]]]].
  exists dframe, m. repeat split; assumption.
Defined.

Lemma startup_publishes_artifacts_as_read_witness :
  embeddings (on_startup demo_world disk_truncated_ids)
  = Some [[1; 0]%Q; [0; 1]%Q]
  /\ ids (on_startup demo_world disk_truncated_ids) = ["A"].
Proof.
  destruct (startup_publishes_artifacts_as_read demo_world disk_truncated_ids
              [[1; 0]%Q; [0; 1]%Q] ["A"] eq_refl eq_refl) as [H1 [H2 _]].
  split; assumption.
Defined.

(** C8, as documented, fails. On load, startup publishes a matrix of one
    row beside two ids, and the row is not a unit vector. On build, the
    features [3, 4] are stored, in binary32, as 5033165/8388608 and
    13421773/16777216, whose squares add up to more than [(1 + 1e-10)^2],
    and a picture whose features are all zero is stored as the zero
    vector. *)
Lemma load_publishes_misaligned_index :
  let st := on_startup demo_world disk_padded_ids in
  snd (load_existing (set_df (Some catalog_abcd) disk_padded_ids)) = true
  /\ embeddings st = Some [[3; 4]%Q]
  /\ ids st = ["A"; "B"]
  /\ List.length (ids st) <> List.length [[3; 4]%Q]
  /\ (sumsq [3; 4] == 25)%Q
  /\ option_map (fun m => nth 0 m []) (embeddings built_abcd)
     = Some [5033165 # 8388608; 13421773 # 16777216]%Q
  /\ ((1 + eps) * (1 + eps)
      < sumsq [5033165 # 8388608; 13421773 # 16777216])%Q
  /\ fst (_build_index_from_csv demo_world (fresh catalog_black))
     = Ok (mkSummary "index built" 1 0)
  /\ option_map (map sumsq)
       (embeddings (snd (_build_index_from_csv demo_world (fresh catalog_black))))
     = Some [0%Q].
Proof.
  cbv zeta.
  split; [reflexivity |]. split; [reflexivity |]. split; [reflexivity |].
  split; [simpl; discriminate |].
  split; [reflexivity |].
  split; [vm_compute; reflexivity |].
  split; [vm_compute; reflexivity |].
  split; vm_compute; reflexivity.
Qed.

(** C4, as documented, fails: with two matrix rows and one id on disk
    startup raises nothing and publishes both as they are; a later query
    that reaches the second row runs off the end of the id list. *)
Lemma load_accepts_mismatched_artifacts :
  let st := on_startup demo_world disk_truncated_ids in
  embeddings st = Some [[1; 0]%Q; [0; 1]%Q]
  /\ ids st = ["A"]
  /\ artifacts st = artifacts disk_truncated_ids
  /\ search demo_world st (Some "blue.png") 2 0 None = Raise index_error.
Proof. repeat split; vm_compute; reflexivity. Qed.

(** ** The ranking loop *)

Section RankLoop.

Variable w : World.
Variable d : DataFrame.
Variable id_list : list string.
Variable sims : list Q.
Variable min_similarity : Q.
Variable top_k : Z.

Local Abbreviation loop := (rank_loop w d id_list sims min_similarity top_k).
Local Abbreviation cand := (candidate w d id_list sims min_similarity).

(** While fewer than [top_k] results are held, a loop that returns has
    appended the payloads of the surviving candidates, in the order it met
    them, until [top_k] were held. *)
Lemma rank_loop_returns (order : list nat) :
  forall results r,
    (Z.of_nat (List.length results) < top_k)%Z ->
    loop order results = Ok r ->
    r = results
        ++ firstn (Z.to_nat top_k - List.length results) (filter_map cand order).
Proof.
  induction order as [| idx rest IH]; intros results r Hlt H; simpl in H.
  - inversion H. simpl. now rewrite firstn_nil, app_nil_r.
  - simpl. unfold candidate.
    destruct (nth_error sims idx) as [score |]; [| discriminate].
    destruct (Qltb score min_similarity); [now apply IH |].
    destruct (nth_error id_list idx) as [pid |]; [| discriminate].
    destruct (lookup_row d pid) as [[row |] | e]; [| | discriminate].
    + destruct (_row_to_payload w row (Some score)) as [p | e];
        [| discriminate].
      rewrite length_app in H. simpl in H.
      destruct (top_k <=? Z.of_nat (List.length results + 1))%Z eqn:E.
      * inversion H.
        apply Z.leb_le in E.
        replace (Z.to_nat top_k - List.length results) with 1 by lia.
        reflexivity.
      * apply Z.leb_gt in E.
        apply IH in H; [| rewrite length_app; simpl; lia].
        rewrite H, length_app. simpl.
        replace (Z.to_nat top_k - List.length results)
          with (S (Z.to_nat top_k - (List.length results + 1))) by lia.
        simpl. now rewrite <- app_assoc.
    + destruct (top_k <=? Z.of_nat (List.length results))%Z eqn:E.
      * apply Z.leb_le in E. lia.
      * now apply IH.
Qed.

(** With [top_k <= 0] the truncation check holds as soon as one candidate
    clears the similarity threshold, resolved or not. *)
Lemma rank_loop_nonpositive (order : list nat) (r : list Payload) :
  (top_k <= 0)%Z ->
  loop order [] = Ok r ->
  r = match find (passes sims min_similarity) order with
      | Some idx =>
          match cand idx with
          | Some p => [p]
          | None => []
          end
      | None => []
      end.
Proof.
  intros Hk. induction order as [| idx rest IH]; simpl; intros H.
  - now inversion H.
  - destruct (nth_error sims idx) as [score |] eqn:Es; [| discriminate].
    unfold passes at 1. rewrite Es.
    destruct (Qltb score min_similarity) eqn:Eq; simpl; [now apply IH |].
    unfold candidate. rewrite Es, Eq.
    destruct (nth_error id_list idx) as [pid |]; [| discriminate].
    destruct (lookup_row d pid) as [[row |] | e]; [| | discriminate].
    + destruct (_row_to_payload w row (Some score)) as [p | e];
        [| discriminate].
      simpl in H.
      destruct (top_k <=? 1)%Z eqn:E; [now inversion H |].
      apply Z.leb_gt in E. lia.
    + simpl in H.
      destruct (top_k <=? 0)%Z eqn:E; [now inversion H |].
      apply Z.leb_gt in E. lia.
Qed.

(** The loop raises nothing when every position of the ranking is a row
    of the matrix with an id beside it and the table has its [id] column. *)
Lemma rank_loop_total (order : list nat) :
  DF.has_col "id" d = true ->
  (forall idx, In idx order ->
     idx < List.length sims /\ idx < List.length id_list) ->
  forall results, exists r, loop order results = Ok r.
Proof.
  intros Hid. apply has_col_get_col_opt in Hid. destruct Hid as [col Hcol].
  induction order as [| idx rest IH]; intros Hin results; simpl.
  - eauto.
  - destruct (Hin idx (or_introl eq_refl)) as [Hs Hi].
    assert (Hrest : forall i, In i rest ->
                      i < List.length sims /\ i < List.length id_list)
      by (intros i Hi'; apply Hin; now right).
    destruct (nth_error sims idx) as [score |] eqn:Es;
      [| apply nth_error_None in Es; lia].
    destruct (Qltb score min_similarity); [now apply IH |].
    destruct (nth_error id_list idx) as [pid |] eqn:Ei;
      [| apply nth_error_None in Ei; lia].
    unfold lookup_row. rewrite Hcol.
    destruct (find_index (String.eqb pid) col) as [i |]; simpl.
    + unfold _row_to_payload.
      rewrite (row_get_row_at "id" i d col Hcol).
      match goal with
      | |- context [if ?b then _ else _] => destruct b
      end; [eauto | now apply IH].
    + match goal with
      | |- context [if ?b then _ else _] => destruct b
      end; [eauto | now apply IH].
Qed.

End RankLoop.

(** ** The guards of [search] and what can be raised after them *)

Lemma in_unit_interval_iff (x : Q) :
  in_unit_interval x = true <-> (0 <= x /\ x <= 1)%Q.
Proof.
  unfold in_unit_interval. rewrite andb_true_iff, !Qle_bool_iff. tauto.
Qed.

Section SearchGuards.

Variable w : World.

Lemma search_not_ready (st : State) (url : option string) (k : Z) (m : Q)
  (file : option Upload) :
  index_ready st = false -> search w st url k m file = Raise not_ready.
Proof.
  unfold index_ready, search.
  destruct (embeddings st) as [mtx |]; [| reflexivity].
  destruct (df st) as [d |]; [| reflexivity].
  destruct (List.length mtx =? 0)%nat; [reflexivity | discriminate].
Qed.

Lemma search_bad_min_similarity (st : State) (url : option string) (k : Z)
  (m : Q) (file : option Upload) :
  index_ready st = true -> in_unit_interval m = false ->
  search w st url k m file = Raise bad_min_similarity.
Proof.
  unfold index_ready, search, in_unit_interval.
  destruct (embeddings st) as [mtx |]; [| discriminate].
  destruct (df st) as [d |]; [| discriminate].
  destruct (List.length mtx =? 0)%nat; [discriminate |].
  intros _ ->. reflexivity.
Qed.

(** Past both guards the route is the query load, the extraction and the
    ranking loop. *)
Lemma search_body (st : State) (url : option string) (k : Z) (m : Q)
  (file : option Upload) :
  index_ready st = true -> in_unit_interval m = true ->
  exists mtx d,
    embeddings st = Some mtx /\ df st = Some d /\ mtx <> []
    /\ search w st url k m file
       = (qm <- load_query_image w file url ;;
          qvec <- _img_to_vec w (fst qm) ;;
          sims <- call (matvec w mtx qvec) ;;
          results <- rank_loop w d (ids st) sims m k
                       (argsort w (map Qopp sims)) [] ;;
          Ok (mkSearchResponse (snd qm) (List.length results) results)).
Proof.
  unfold index_ready, search, in_unit_interval.
  destruct (embeddings st) as [mtx |]; [| discriminate].
  destruct (df st) as [d |]; [| discriminate].
  destruct mtx as [| row rows]; [discriminate |].
  intros _ ->. exists (row :: rows), d. repeat split. discriminate.
Qed.

Lemma load_query_image_raises (file : option Upload) (url : option string)
  (e : exn) :
  load_query_image w file url = Raise e ->
  e = no_query_image \/ exists e', e = query_image_failed e'.
Proof.
  unfold load_query_image.
  assert (Hurl : forall e0,
    match
      match url with
      | Some u =>
          if Str.nonempty u
          then match _open_image_from_url_or_path w u with
               | Ok img => Ok (img, QueryUrlOrPath u)
               | Raise e1 => Raise (query_image_failed e1)
               end
          else Raise no_query_image
      | None => Raise no_query_image
      end
    with
    | Ok r => Ok r
    | Raise (HTTPException s d) => Raise (HTTPException s d)
    | Raise e1 => Raise (query_image_failed e1)
    end = Raise e0 ->
    e0 = no_query_image \/ exists e', e0 = query_image_failed e').
  { intros e0. destruct url as [u |].
    - destruct (Str.nonempty u).
      + destruct (_open_image_from_url_or_path w u) as [img | e1].
        * discriminate.
        * intros H. inversion H. right. now exists e1.
      + intros H. inversion H. now left.
    - intros H. inversion H. now left. }
  destruct file as [f |]; [| apply Hurl].
  destruct (Str.nonempty (filename f)); [| apply Hurl].
  destruct (image_open_bytes w (content f)) as [raw | c msg]; simpl.
  - unfold convert_by_mode.
    destruct (mode w raw =? "P");
      [| destruct (Str.mem (mode w raw) ["RGBA"; "LA"])];
      match goal with
      | |- context [call ?x] => destruct x as [img | c msg]
      end; simpl; intros Hx; inversion Hx; right; eauto.
  - intros Hx. inversion Hx. right. eauto.
Qed.

Lemma img_to_vec_raises (img : Image w) (e : exn) :
  _img_to_vec w img = Raise e -> exists c msg, e = Exception c msg.
Proof.
  unfold _img_to_vec. destruct (clip_features w img) as [v | c msg]; simpl.
  - discriminate.
  - intros H. inversion H. eauto.
Qed.

Lemma rank_loop_raises (d : DataFrame) (id_list : list string) (sims : list Q)
  (m : Q) (k : Z) (order : list nat) :
  forall results e,
    rank_loop w d id_list sims m k order results = Raise e ->
    exists c msg, e = Exception c msg.
Proof.
  induction order as [| idx rest IH]; intros results e; simpl.
  - discriminate.
  - destruct (nth_error sims idx) as [score |];
      [| intros H; inversion H; unfold index_error; eauto].
    destruct (Qltb score m); [apply IH |].
    destruct (nth_error id_list idx) as [pid |];
      [| intros H; inversion H; unfold index_error; eauto].
    unfold lookup_row, _row_to_payload.
    destruct (DF.get_col_opt "id" d) as [col |];
      [| intros H; inversion H; eauto].
    destruct (find_index (String.eqb pid) col) as [i |]; simpl.
    + destruct (DF.row_get "id" (DF.row_at i d));
        [| intros H; inversion H; eauto].
      match goal with
      | |- context [if ?b then _ else _] => destruct b
      end; [discriminate | apply IH].
    + match goal with
      | |- context [if ?b then _ else _] => destruct b
      end; [discriminate | apply IH].
Qed.

(** Nothing raised after the two guards is one of the two guard errors. *)
Lemma search_body_raises (st : State) (url : option string) (k : Z) (m : Q)
  (file : option Upload) (e : exn) :
  index_ready st = true -> in_unit_interval m = true ->
  search w st url k m file = Raise e ->
  e <> not_ready /\ e <> bad_min_similarity.
Proof.
  intros Hr Hm.
  destruct (search_body st url k m file Hr Hm) as [mtx [d [_ [_ [_ ->]]]]].
  destruct (load_query_image w file url) as [qm | e1] eqn:E1; simpl.
  - destruct (_img_to_vec w (fst qm)) as [qvec | e2] eqn:E2; simpl.
    + destruct (matvec w mtx qvec) as [sims | c0 msg0]; simpl;
        [| intros H; inversion H; split; discriminate].
      destruct (rank_loop _ _ _ _ _ _ _ _) as [res | e3] eqn:E3; simpl.
      * discriminate.
      * intros H. inversion H; subst.
        destruct (rank_loop_raises _ _ _ _ _ _ _ _ E3) as [c [msg ->]].
        split; discriminate.
    + intros H. inversion H; subst.
      destruct (img_to_vec_raises _ _ E2) as [c [msg ->]].
      split; discriminate.
  - intros H. inversion H; subst.
    destruct (load_query_image_raises _ _ _ E1) as [-> | [e' ->]];
      split; discriminate.
Qed.

Lemma search_ok_passed_guards (st : State) (url : option string) (k : Z)
  (m : Q) (file : option Upload) (resp : SearchResponse) :
  search w st url k m file = Ok resp ->
  index_ready st = true /\ in_unit_interval m = true.
Proof.
  intros H. destruct (index_ready st) eqn:Hr.
  - destruct (in_unit_interval m) eqn:Hm; [auto |].
    rewrite (search_bad_min_similarity st url k m file Hr Hm) in H.
    discriminate.
  - rewrite (search_not_ready st url k m file Hr) in H. discriminate.
Qed.

(** C6 (amended): the readiness guard comes first. [search] fails with the
    not-ready error exactly when no matrix or no product table is published
    or the matrix has no rows, whatever [min_similarity] is; it fails with
    the validation error exactly when the index is ready and
    [min_similarity] lies outside [0,1]. The two errors differ, and a
    response, with or without matches, is only returned past both guards. *)
Theorem search_failure_kinds (st : State) (url : option string) (k : Z)
  (m : Q) (file : option Upload) :
  (search w st url k m file = Raise not_ready <-> index_ready st = false)
  /\ (search w st url k m file = Raise bad_min_similarity
      <-> index_ready st = true /\ ~ (0 <= m /\ m <= 1)%Q)
  /\ not_ready <> bad_min_similarity
  /\ (forall resp,
        search w st url k m file = Ok resp ->
        index_ready st = true /\ (0 <= m /\ m <= 1)%Q).
Proof.
  pose proof (in_unit_interval_iff m) as Hiff.
  destruct (index_ready st) eqn:Hr; [destruct (in_unit_interval m) eqn:Hm |].
  - split; [| split; [| split]].
    + split; [| discriminate].
      intros H. destruct (search_body_raises st url k m file _ Hr Hm H) as [A _].
      now elim A.
    + split.
      * intros H.
        destruct (search_body_raises st url k m file _ Hr Hm H) as [_ B].
        now elim B.
      * intros [_ Hn]. elim Hn. now apply Hiff.
    + discriminate.
    + intros resp _. split; [reflexivity | now apply Hiff].
  - rewrite (search_bad_min_similarity st url k m file Hr Hm).
    split; [| split; [| split]].
    + split; discriminate.
    + split; [| reflexivity].
      intros _. split; [reflexivity |].
      intros Hn. apply Hiff in Hn. discriminate.
    + discriminate.
    + intros resp H. discriminate.
  - rewrite (search_not_ready st url k m file Hr).
    split; [| split; [| split]].
    + split; reflexivity.
    + split; [discriminate |]. intros [H _]. discriminate.
    + discriminate.
    + intros resp H. discriminate.
Qed.

End SearchGuards.

(** C6, as documented, fails: on an index that is not built, a
    [min_similarity] of 1.1 is answered with the not-ready error, not with
    the validation error. *)
Lemma unready_index_hides_validation_error :
  search demo_world (fresh catalog_abcd) (Some "red.png") 12 (11 # 10) None
  = Raise not_ready
  /\ ~ (0 <= 11 # 10 /\ 11 # 10 <= 1)%Q
  /\ search demo_world (fresh catalog_abcd) (Some "red.png") 12 (11 # 10) None
     <> Raise bad_min_similarity.
Proof.
  split; [reflexivity |]. split.
  - intros [_ H]. revert H. unfold Qle. simpl. lia.
  - discriminate.
Qed.

Example validation_errors_on_ready_index :
  search demo_world built_abcd (Some "red.png") 12 (11 # 10) None
  = Raise bad_min_similarity
  /\ search demo_world built_abcd (Some "red.png") 12 (- (1 # 10)) None
     = Raise bad_min_similarity.
Proof. split; reflexivity. Qed.

Example zero_matches_is_not_an_error :
  search demo_world built_abcd (Some "black.png") 12 (1 # 2) None
  = Ok (mkSearchResponse (QueryUrlOrPath "black.png") 0 []).
Proof. vm_compute. reflexivity. Qed.

(** In binary32 the picture of record A scores exactly 1 against itself,
    so it is still returned at [min_similarity = 1]. *)
Example exact_match_at_threshold_one :
  returned_ids (search demo_world built_abcd (Some "red.png") 12 1 None)
  = Some ["A"].
Proof. vm_compute. reflexivity. Qed.

(** ** Lists: filtering, truncation and order *)









(** ** The insertion argsort keeps the contract of [argsort] *)

Section InsertionArgsort.

Variable keys : list Q.

Local Abbreviation key := (fun i => nth i keys 0%Q).

Lemma insert_by_key_perm (before : Q -> Q -> bool) (i : nat) (l : list nat) :
  Permutation (Demo.insert_by_key before keys i l) (i :: l).
Proof.
  induction l as [| j r IH]; simpl; [reflexivity |].
  destruct (before _ _); [reflexivity |].
  rewrite IH. apply perm_swap.
Qed.

Lemma insertion_argsort_perm_list (before : Q -> Q -> bool) (l : list nat) :
  Permutation (fold_right (Demo.insert_by_key before keys) [] l) l.
Proof.
  induction l as [| i r IH]; simpl; [reflexivity |].
  rewrite insert_by_key_perm. now constructor.
Qed.

Lemma insert_by_key_sorted (before : Q -> Q -> bool) (i : nat) (l : list nat) :
  (forall x y, before x y = true -> (x <= y)%Q) ->
  (forall x y, before x y = false -> (y <= x)%Q) ->
  StronglySorted (fun a b => (key a <= key b)%Q) l ->
  StronglySorted (fun a b => (key a <= key b)%Q)
                 (Demo.insert_by_key before keys i l).
Proof.
  intros Ht Hf. induction 1 as [| j r Hr IH Hall]; simpl.
  - repeat constructor.
  - destruct (before _ _) eqn:E.
    + apply Ht in E. constructor; [now constructor |].
      constructor; [exact E |].
      eapply Forall_impl; [| exact Hall]. simpl. intros x Hx.
      now apply Qle_trans with (key j).
    + apply Hf in E. constructor; [exact IH |].
      rewrite Forall_forall in *. intros x Hx.
      apply (Permutation_in _ (insert_by_key_perm before i r)) in Hx.
      destruct Hx as [<- | Hx]; [exact E | now apply Hall].
Qed.

Local Abbreviation lex :=
  (fun a b => (key a < key b)%Q \/ ((key a == key b)%Q /\ a < b)).



End InsertionArgsort.

Lemma insertion_argsort_sorts (before : Q -> Q -> bool) :
  (forall x y, before x y = true -> (x <= y)%Q) ->
  (forall x y, before x y = false -> (y <= x)%Q) ->
  argsort_sorts (Demo.insertion_argsort before).
Proof.
  intros Ht Hf keys. unfold Demo.insertion_argsort. split.
  - apply insertion_argsort_perm_list.
  - induction (seq 0 (List.length keys)) as [| i r IH]; simpl.
    + constructor.
    + now apply insert_by_key_sorted.
Qed.

Lemma stable_argsort_sorts : argsort_sorts Demo.stable_argsort.
Proof.
  apply insertion_argsort_sorts.
  - intros x y H. now apply Qle_bool_iff.
  - intros x y H. destruct (Qlt_le_dec x y) as [Hlt | Hle]; [| exact Hle].
    apply Qlt_le_weak in Hlt. apply Qle_bool_iff in Hlt. congruence.
Qed.


(** ** What [search] returns *)

Section SearchFacts.

Variable w : World.

(** A response comes out of the ranking loop run over the argsort of the
    negated scores. *)
Lemma search_ok_inv (st : State) (url : option string) (k : Z) (m : Q)
  (file : option Upload) (resp : SearchResponse) :
  search w st url k m file = Ok resp ->
  exists mtx d qm qvec sims,
    embeddings st = Some mtx /\ df st = Some d
    /\ load_query_image w file url = Ok qm
    /\ _img_to_vec w (fst qm) = Ok qvec
    /\ matvec w mtx qvec = Returns sims
    /\ rank_loop w d (ids st) sims m k (argsort w (map Qopp sims)) []
       = Ok (items resp)
    /\ n_items resp = List.length (items resp)
    /\ query resp = snd qm.
Proof.
  intros H.
  destruct (search_ok_passed_guards w st url k m file resp H) as [Hr Hm].
  destruct (search_body w st url k m file Hr Hm) as [mtx [d [He [Hd [_ Hb]]]]].
  rewrite Hb in H. exists mtx, d.
  destruct (load_query_image w file url) as [qm | e] eqn:Eq; [| discriminate].
  simpl in H.
  destruct (_img_to_vec w (fst qm)) as [qvec | e] eqn:Ev; [| discriminate].
  simpl in H.
  destruct (matvec w mtx qvec) as [sims | c msg] eqn:Em; [| discriminate].
  simpl in H.
  destruct (rank_loop _ _ _ _ _ _ _ _) as [results | e] eqn:E;
    [| discriminate].
  simpl in H. inversion H; subst. simpl.
  exists qm, qvec, sims. repeat split; assumption.
Qed.


Lemma matvec_raises (mtx : Matrix) (qvec : Vec) (c msg : string) :
  matvec w mtx qvec = Throws c msg ->
  c = "ValueError"
  /\ exists row, In row mtx /\ List.length row <> List.length qvec.
Proof.
  unfold matvec.
  destruct (forallb (fun row => (List.length row =? List.length qvec)%nat) mtx)
    eqn:E; [discriminate |].
  intros H. inversion H. split; [reflexivity |].
  destruct (existsb (fun row => negb (List.length row =? List.length qvec)%nat)
                    mtx) eqn:Ex.
  - apply existsb_exists in Ex. destruct Ex as [row [Hin Hn]].
    exists row. split; [exact Hin |].
    apply negb_true_iff in Hn. now apply Nat.eqb_neq.
  - exfalso. assert (Hall : forallb
                (fun row => (List.length row =? List.length qvec)%nat) mtx
                = true); [| congruence].
    apply forallb_forall. intros row Hin.
    destruct (List.length row =? List.length qvec)%nat eqn:Er;
      [reflexivity |].
    assert (Hex : existsb
              (fun row => negb (List.length row =? List.length qvec)%nat) mtx
              = true); [| congruence].
    apply existsb_exists. exists row. split; [exact Hin |]. now rewrite Er.
Qed.

Lemma matvec_dimensions (mtx : Matrix) (qvec : Vec) :
  Forall (fun row => List.length row = List.length qvec) mtx ->
  matvec w mtx qvec = Returns (map (fun row => float_dot w row qvec) mtx).
Proof.
  intros H. unfold matvec.
  assert (E : forallb (fun row => (List.length row =? List.length qvec)%nat)
                      mtx = true).
  { apply forallb_forall. intros row Hin. apply Nat.eqb_eq.
    rewrite Forall_forall in H. now apply H. }
  now rewrite E.
Qed.

Lemma argsort_positions_in_range (keys : list Q) (idx : nat) :
  argsort_sorts (argsort w) ->
  In idx (argsort w keys) -> idx < List.length keys.
Proof.
  intros Hs Hin. destruct (Hs keys) as [Hp _].
  apply (Permutation_in _ Hp) in Hin. apply in_seq in Hin. lia.
Qed.

(** A servable request is answered. *)
Lemma search_served (st : State) (url : option string) (k : Z) (m : Q)
  (file : option Upload) :
  servable w st url m file ->
  exists resp, search w st url k m file = Ok resp.
Proof.
  intros [Hm [[qm [raw [mtx [d [Hq [Hc [He [Hd [Hne [Hdim [Hlen Hid]]]]]]]]]]] Hs]].
  assert (Hr : index_ready st = true).
  { unfold index_ready. rewrite He, Hd. destruct mtx; [now elim Hne | reflexivity]. }
  destruct (search_body w st url k m file Hr Hm)
    as [mtx' [d' [He' [Hd' [_ Hb]]]]].
  rewrite He in He'. rewrite Hd in Hd'. inversion He'. inversion Hd'. subst.
  rewrite Hb, Hq. simpl. unfold _img_to_vec. rewrite Hc. simpl.
  rewrite matvec_dimensions
    by (unfold l2_normalize; now rewrite length_map).
  simpl.
  set (sims := map (fun row => float_dot w row (l2_normalize w raw)) mtx').
  destruct (rank_loop_total w d' (ids st) sims m k
              (argsort w (map Qopp sims)) Hid)
    with (results := @nil Payload) as [r Hrk].
  - intros idx Hin. apply (argsort_positions_in_range _ _ Hs) in Hin.
    unfold sims in *. rewrite !length_map in *. lia.
  - rewrite Hrk. simpl. eauto.
Qed.

(** C10: [search] has no check on [top_k]. A call with [top_k <= 0] is
    answered like any other servable request (the index ready,
    [min_similarity] in range, the query loaded and embedded, the rows of
    the matrix of the dimension of the query vector, an id beside every
    row), and whenever it is answered the items list has at most one
    element: the first candidate in rank order that clears the similarity
    threshold, if its id resolves, and nothing otherwise. *)
Theorem search_nonpositive_top_k (st : State) (url : option string) (k : Z)
  (m : Q) (file : option Upload) :
  (k <= 0)%Z ->
  (servable w st url m file ->
   exists resp, search w st url k m file = Ok resp)
  /\ (forall resp,
        search w st url k m file = Ok resp ->
        List.length (items resp) <= 1
        /\ n_items resp = List.length (items resp)
        /\ exists mtx d qm qvec sims,
             embeddings st = Some mtx /\ df st = Some d
             /\ load_query_image w file url = Ok qm
             /\ _img_to_vec w (fst qm) = Ok qvec
             /\ matvec w mtx qvec = Returns sims
             /\ items resp
                = match find (passes sims m) (argsort w (map Qopp sims)) with
                  | Some idx =>
                      match candidate w d (ids st) sims m idx with
                      | Some p => [p]
                      | None => []
                      end
                  | None => []
                  end).
Proof.
  intros Hk. split; [apply search_served |].
  intros resp H.
  destruct (search_ok_inv st url k m file resp H)
    as [mtx [d [qm [qvec [sims [He [Hd [Hq [Hv [Hmv [Hrk [Hn _]]]]]]]]]]]].
  apply (rank_loop_nonpositive w d (ids st) sims m k _ _ Hk) in Hrk.
  split; [| split; [exact Hn |]].
  - rewrite Hrk.
    destruct (find _ _) as [idx |]; [| simpl; lia].
    destruct (candidate _ _ _ _ _ _); simpl; lia.
  - exists mtx, d, qm, qvec, sims. repeat split; assumption.
Qed.

End SearchFacts.

Lemma red_query_servable :
  servable demo_world built_abcd (Some "red.png") 0 None.
Proof.
  split; [reflexivity |]. split; [| exact stable_argsort_sorts].
  exists ("red.png", QueryUrlOrPath "red.png"), [3; 4]%Q.
  do 2 eexists.
  split; [reflexivity |]. split; [reflexivity |].
  split; [vm_compute; reflexivity |]. split; [reflexivity |].
  split; [discriminate |]. split; [repeat constructor |].
  split; reflexivity.
Qed.

Lemma search_nonpositive_top_k_witness :
  exists resp,
    search demo_world built_abcd (Some "red.png") 0 0 None = Ok resp
    /\ List.length (items resp) <= 1.
Proof.
  destruct (search_nonpositive_top_k demo_world built_abcd (Some "red.png")
              0 0 None (Z.le_refl 0)) as [H1 H2].
  destruct H1 as [resp Hresp].
  - exact red_query_servable.
  - exists resp. split; [exact Hresp | apply (H2 resp Hresp)].
Defined.

(** An index of three columns loaded beside the two-component extractor is
    not servable: the product raises and the request ends in a 500. *)
Example dimension_mismatch_raises :
  search demo_world (on_startup demo_world disk_three_columns)
         (Some "red.png") 0 0 None
  = Raise (Exception "ValueError"
             "matmul: Input operand 1 has a mismatch in its core dimension 0").
Proof. vm_compute. reflexivity. Qed.

Example nonpositive_top_k_returns_one_item :
  option_map (fun r => map p_id (items r))
    (match search demo_world built_abcd (Some "red.png") 0 0 None with
     | Ok r => Some r
     | Raise _ => None
     end) = Some ["A"]
  /\ option_map (fun r => map p_id (items r))
       (match search demo_world built_abcd (Some "red.png") (-3) 0 None with
        | Ok r => Some r
        | Raise _ => None
        end) = Some ["A"].
Proof. split; reflexivity. Qed.

(** ** C1: ranking *)

Section Ranking.

Variable w : World.




End Ranking.


Example search_returns_top_two :
  returned_ids (search demo_world built_abcd (Some "red.png") 2 0 None)
  = Some ["A"; "B"].
Proof. vm_compute. reflexivity. Qed.

Example search_filters_by_min_similarity :
  returned_ids (search demo_world built_abcd (Some "red.png") 12 (97 # 100) None)
  = Some ["A"].
Proof. vm_compute. reflexivity. Qed.

(** Two records with the same picture score the same and come out in
    build order. *)
Example ties_keep_build_order :
  returned_ids
    (search demo_world
       (snd (_build_index_from_csv demo_world (fresh catalog_twins)))
       (Some "red.png") 3 0 None)
  = Some ["R1"; "R2"; "G"].
Proof. vm_compute. reflexivity. Qed.

(** ** C2: a build beside a request *)

Section LiveSearch.

Variable w : World.

(** While the ids and the table it reads stay the same, the loop of a
    request beside a build is the loop of a request that runs alone. *)
Lemma rank_loop_live_const (r : Reads) (d : DataFrame) (l : list string)
  (sims : list Q) (m : Q) (k : Z) (order : list nat) :
  (forall n, ids (at_id r n) = l) ->
  (forall n, df (at_lookup r n) = Some d) ->
  forall n res,
    rank_loop_live w r n sims m k order res
    = rank_loop w d l sims m k order res.
Proof.
  intros Hi Hd. induction order as [| idx rest IH]; intros n res; simpl;
    [reflexivity |].
  destruct (nth_error sims idx) as [score |]; [| reflexivity].
  destruct (Qltb score m); [apply IH |].
  rewrite Hi. destruct (nth_error l idx) as [pid |]; [| reflexivity].
  rewrite Hd. destruct (lookup_row d pid) as [[row |] | e]; try reflexivity.
  - destruct (_row_to_payload w row (Some score)) as [p | e]; [| reflexivity].
    destruct (k <=? Z.of_nat (List.length (res ++ [p])))%Z;
      [reflexivity | apply IH].
  - destruct (k <=? Z.of_nat (List.length res))%Z; [reflexivity | apply IH].
Qed.

(** A request all of whose reads find the globals of [st] answers as
    [search] does on [st]. *)
Lemma search_live_same_views (r : Reads) (st : State) (url : option string)
  (k : Z) (m : Q) (file : option Upload) :
  view (at_guard r) = view st -> view (at_product r) = view st ->
  (forall n, view (at_id r n) = view st) ->
  (forall n, view (at_lookup r n) = view st) ->
  search_live w r url k m file = search w st url k m file.
Proof.
  unfold view. intros Hg Hp Hi Hl.
  inversion Hg as [[Hg1 Hg2 Hg3]]. inversion Hp as [[Hp1 Hp2 Hp3]].
  assert (Hi' : forall n, ids (at_id r n) = ids st)
    by (intros n; specialize (Hi n); now inversion Hi).
  assert (Hl' : forall n, df (at_lookup r n) = df st)
    by (intros n; specialize (Hl n); now inversion Hl).
  unfold search_live, search. rewrite Hg1, Hg2, Hp2.
  destruct (embeddings st) as [mtx |]; [| reflexivity].
  destruct (df st) as [d |] eqn:Ed; [| reflexivity].
  destruct (List.length mtx =? 0)%nat; [reflexivity |].
  destruct (negb _); [reflexivity |].
  destruct (load_query_image w file url) as [qm | e]; [| reflexivity].
  cbn [bind].
  destruct (_img_to_vec w (fst qm)) as [qvec | e]; [| reflexivity].
  cbn [bind].
  destruct (matvec w mtx qvec) as [sims | c msg]; [| reflexivity].
  cbn [call bind].
  now rewrite (rank_loop_live_const r d (ids st) sims m k _ Hi' Hl').
Qed.

Lemma search_live_quiescent (st : State) (url : option string) (k : Z)
  (m : Q) (file : option Upload) :
  search_live w (quiescent st) url k m file = search w st url k m file.
Proof. apply search_live_same_views; reflexivity. Qed.

(** A request that passes its guard and multiplies before a build assigns
    the globals and ranks after it answers as [search] does on the old
    matrix beside the new ids and the new table. *)
Lemma search_live_multiplies_then_ranks (old new : State)
  (url : option string) (k : Z) (m : Q) (file : option Upload) :
  index_ready old = true -> df new <> None ->
  search_live w (multiplies_then_ranks old new) url k m file
  = search w (old_matrix_new_ids old new) url k m file.
Proof.
  unfold index_ready. intros Hr Hn.
  unfold search_live, search, multiplies_then_ranks, old_matrix_new_ids.
  cbn [at_guard at_product embeddings df ids].
  destruct (embeddings old) as [mtx |]; [| discriminate].
  destruct (df old) as [d0 |]; [| discriminate].
  destruct (df new) as [d |] eqn:Ed; [| now elim Hn].
  clear Hr Hn.
  destruct (List.length mtx =? 0)%nat; [reflexivity |].
  destruct (negb (Qle_bool 0 m && Qle_bool m 1)); [reflexivity |].
  destruct (load_query_image w file url) as [qm | e]; [| reflexivity].
  cbn [bind].
  destruct (_img_to_vec w (fst qm)) as [qvec | e]; [| reflexivity].
  cbn [bind].
  destruct (matvec w mtx qvec) as [sims | c msg]; [| reflexivity].
  cbn [call bind].
  rewrite (rank_loop_live_const _ d (ids new) sims m k _);
    [reflexivity | reflexivity | intros n; exact Ed].
Qed.

Lemma in_time_order_reads (trace : list State) (r : Reads) (s : State) :
  in_time_order trace r ->
  (s = at_guard r \/ s = at_product r
   \/ (exists n, s = at_id r n) \/ (exists n, s = at_lookup r n)) ->
  In s trace.
Proof.
  intros [g [p [i [l [_ [_ [_ [Hg [Hp Hn]]]]]]]]] H.
  destruct H as [-> | [-> | [[n ->] | [n ->]]]].
  - eapply nth_error_In. exact Hg.
  - eapply nth_error_In. exact Hp.
  - eapply nth_error_In. exact (proj1 (Hn n)).
  - eapply nth_error_In. exact (proj2 (Hn n)).
Qed.

(** C2 (amended): nothing is published in one step. A build that returns
    writes the matrix file, then the id file, and then assigns the three
    globals one after another with no lock: the store holds the old triple,
    then the new table beside the old matrix and ids, then the new table and
    matrix beside the old ids, and only then the new triple. [search] takes
    no snapshot either: it reads [embeddings] for the product and reads
    [ids] and [df] again for every candidate, so a request that multiplies
    before the assignments and ranks after them answers from the old matrix
    beside the new ids and the new table, a triple the store never held.
    A build that raises assigns no global: whenever its reads fall, a
    request beside it answers as it would have without the build. *)
Theorem build_publication_steps (st : State) :
  (forall info,
     fst (_build_index_from_csv w st) = Ok info ->
     let st' := snd (_build_index_from_csv w st) in
     exists dframe m l,
       map view (build_trace w st)
       = [ view st; view st; view st;
           (Some dframe, embeddings st, ids st);
           (Some dframe, Some m, ids st);
           (Some dframe, Some m, l) ]
       /\ map artifacts (build_trace w st)
          = [ artifacts st;
              (Some (Returns m), ids_json st);
              (Some (Returns m), Some (Returns (IdsItems l)));
              (Some (Returns m), Some (Returns (IdsItems l)));
              (Some (Returns m), Some (Returns (IdsItems l)));
              (Some (Returns m), Some (Returns (IdsItems l))) ]
       /\ view st' = (Some dframe, Some m, l)
       /\ in_time_order (build_trace w st) (multiplies_then_ranks st st')
       /\ view (old_matrix_new_ids st st') = (Some dframe, embeddings st, l)
       /\ (index_ready st = true ->
           forall url k mn file,
             search_live w (multiplies_then_ranks st st') url k mn file
             = search w (old_matrix_new_ids st st') url k mn file))
  /\ (forall e,
        fst (_build_index_from_csv w st) = Raise e ->
        Forall (fun s => view s = view st) (build_trace w st)
        /\ forall r,
             in_time_order (build_trace w st) r ->
             forall url k mn file,
               search_live w r url k mn file = search w st url k mn file)
  /\ (forall url k mn file,
        search_live w (quiescent st) url k mn file
        = search w st url k mn file).
Proof.
  split; [| split].
  - intros info Hok st'.
    destruct (build_success_inv w st info Hok)
      as [dframe [m [l [n [_ [_ [_ [_ [_ [_ [_ [_ [Hs Ht]]]]]]]]]]]]].
    exists dframe, m, l. subst st'. rewrite Hs, Ht.
    split; [reflexivity |]. split; [reflexivity |]. split; [reflexivity |].
    split.
    { exists 0, 0, (fun _ => 5), (fun _ => 5).
      split; [lia |]. split; [lia |]. split; [intros _; lia |].
      repeat split; reflexivity. }
    split; [reflexivity |].
    intros Hr url k mn file.
    apply search_live_multiplies_then_ranks; [exact Hr | discriminate].
  - intros e Hfail.
    assert (Hviews : Forall (fun s => view s = view st) (build_trace w st)).
    { destruct (build_failure_inv w st e Hfail)
        as [[_ [Ht _]]
           | [[dframe [m [l [n [c [msg [f [_ [_ [_ [Ht _]]]]]]]]]]]
             | [dframe [m [l [n [c [msg [f [_ [_ [_ [_ [Ht _]]]]]]]]]]]]]];
        rewrite Ht; repeat constructor. }
    split; [exact Hviews |].
    intros r Hr url k mn file. rewrite Forall_forall in Hviews.
    apply search_live_same_views; intros; apply Hviews;
      apply (in_time_order_reads _ r _ Hr); eauto.
  - intros url k mn file. apply search_live_quiescent.
Qed.

End LiveSearch.

Lemma build_publication_steps_witness :
  exists dframe m l,
    map view (build_trace demo_world rebuild_xy)
    = [ view rebuild_xy; view rebuild_xy; view rebuild_xy;
        (Some dframe, embeddings rebuild_xy, ids rebuild_xy);
        (Some dframe, Some m, ids rebuild_xy);
        (Some dframe, Some m, l) ].
Proof.
  destruct (proj1 (build_publication_steps demo_world rebuild_xy)
              (mkSummary "index built" 2 0) eq_refl)
    as [dframe [m [l [H _]]]].
  exists dframe, m, l. exact H.
Defined.

(** C2, as documented, fails: a query for the red picture runs beside a
    rebuild over a new catalog. It multiplies by the old matrix, whose first
    row is the red picture of record A, and ranks after the assignments,
    when the first id is X, the record of the blue picture: it returns X as
    its best match, where a query on the old triple returns A and a query on
    the new triple returns Y. The triple it answers from is none the store
    ever held. *)
Lemma rebuild_exposes_mixed_triple :
  let new := snd (_build_index_from_csv demo_world rebuild_xy) in
  let r := multiplies_then_ranks rebuild_xy new in
  in_time_order (build_trace demo_world rebuild_xy) r
  /\ returned_ids (search_live demo_world r (Some "red.png") 1 0 None)
     = Some ["X"]
  /\ returned_ids (search demo_world rebuild_xy (Some "red.png") 1 0 None)
     = Some ["A"]
  /\ returned_ids (search demo_world new (Some "red.png") 1 0 None)
     = Some ["Y"]
  /\ ids (old_matrix_new_ids rebuild_xy new) = ["X"; "Y"]
  /\ embeddings (old_matrix_new_ids rebuild_xy new) = embeddings rebuild_xy
  /\ option_map (@List.length Vec) (embeddings rebuild_xy) = Some 3
  /\ Forall (fun s => ids s = ["X"; "Y"] ->
                      option_map (@List.length Vec) (embeddings s) = Some 2)
            (build_trace demo_world rebuild_xy).
Proof.
  cbv zeta. split.
  { exists 0, 0, (fun _ => 5), (fun _ => 5).
    split; [lia |]. split; [lia |]. split; [intros _; lia |].
    repeat split; vm_compute; reflexivity. }
  split; [vm_compute; reflexivity |].
  split; [vm_compute; reflexivity |].
  split; [vm_compute; reflexivity |].
  split; [vm_compute; reflexivity |].
  split; [reflexivity |].
  split; [vm_compute; reflexivity |].
  assert (Ht : build_trace demo_world rebuild_xy
               = map (fun i => nth i (build_trace demo_world rebuild_xy)
                                   rebuild_xy) (seq 0 6)).
  { vm_compute. reflexivity. }
  rewrite Ht. repeat constructor; cbv beta; intros H; vm_compute in H |- *;
    try reflexivity; discriminate.
Qed.

(** ** C7: the fetch protocol *)

Module FetchFacts.

Import Fetch FetchPlan.

Lemma first_ok_app (l1 l2 : list (result string)) :
  first_ok (l1 ++ l2) =
  match first_ok l1 with
  | Some x => Some x
  | None =>
      option_map (fun '(i, c) => (List.length l1 + i, c)) (first_ok l2)
  end.
Proof.
  induction l1 as [| [c | e] r IH]; simpl.
  - destruct (first_ok l2) as [[i c] |]; reflexivity.
  - reflexivity.
  - rewrite IH. destruct (first_ok r) as [[i c] |]; simpl; [reflexivity |].
    destruct (first_ok l2) as [[i c] |]; reflexivity.
Qed.

Lemma last_error_app (l1 l2 : list (result string)) :
  last_error (l1 ++ l2) =
  match last_error l2 with
  | Some e => Some e
  | None => last_error l1
  end.
Proof.
  induction l1 as [| [c | e] r IH]; simpl.
  - destruct (last_error l2); reflexivity.
  - exact IH.
  - rewrite IH. destruct (last_error l2); reflexivity.
Qed.

Lemma first_ok_lt (l : list (result string)) (i : nat) (c : string) :
  first_ok l = Some (i, c) -> i < List.length l.
Proof.
  revert i. induction l as [| [c' | e] r IH]; simpl; intros i H.
  - discriminate.
  - inversion H. lia.
  - destruct (first_ok r) as [[j c''] |]; [| discriminate].
    inversion H; subst. specialize (IH j eq_refl). lia.
Qed.

(** The first success found from the outcomes one by one. *)
Lemma first_ok_at (l : list (result string)) (n : nat) (c : string) :
  nth_error l n = Some (Ok c) ->
  (forall j, j < n -> exists e, nth_error l j = Some (Raise e)) ->
  first_ok l = Some (n, c).
Proof.
  revert n. induction l as [| x r IH]; intros [| n] Hn Hbefore; simpl in *;
    try discriminate.
  - inversion Hn. reflexivity.
  - destruct (Hbefore 0 (Nat.lt_0_succ n)) as [e He]. simpl in He.
    inversion He; subst.
    rewrite (IH n Hn); [reflexivity |].
    intros j Hj. exact (Hbefore (S j) (proj1 (Nat.succ_lt_mono j n) Hj)).
Qed.

Lemma first_ok_none (l : list (result string)) :
  (forall j, j < List.length l -> exists e, nth_error l j = Some (Raise e)) ->
  first_ok l = None
  /\ (l <> [] -> option_map Raise (last_error l) = nth_error l (List.length l - 1)).
Proof.
  induction l as [| x r IH]; intros Hall; simpl.
  - split; [reflexivity | intros H; now elim H].
  - destruct (Hall 0 (Nat.lt_0_succ _)) as [e He]. simpl in He.
    inversion He; subst.
    destruct IH as [IH1 IH2].
    { intros j Hj. exact (Hall (S j) (proj1 (Nat.succ_lt_mono _ _) Hj)). }
    rewrite IH1. split; [reflexivity |]. intros _.
    destruct r as [| y r'].
    + reflexivity.
    + specialize (IH2 ltac:(discriminate)).
      simpl List.length in *. rewrite Nat.sub_0_r.
      replace (S (List.length r') - 1) with (List.length r') in IH2 by lia.
      change (nth_error (Raise e :: y :: r') (S (List.length r')))
        with (nth_error (y :: r') (List.length r')).
      rewrite <- IH2.
      destruct (last_error (y :: r')) as [e' |] eqn:E; [reflexivity |].
      exfalso. destruct y as [c | e'']; simpl in E.
      * destruct (Hall 1 ltac:(simpl; lia)) as [e0 He0]. discriminate.
      * destruct (last_error r'); discriminate.
Qed.

Section WithWorld.

Variable w : World.
Variable url : string.

Local Abbreviation ev_of := (fun a h => EvGet a (with_referer w url h)).

(** One attempt: the profiles are tried in order up to the first success. *)
Lemma try_profiles_spec (a : nat) (hs : list Headers) :
  forall st,
    let r := try_profiles w url a hs st in
    let outs := outs_from w url (issued st) hs in
    match first_ok outs with
    | Some (i, c) =>
        fst r = Some c
        /\ events (snd r) = events st ++ attempt_events w url a (firstn (S i) hs)
    | None =>
        fst r = None
        /\ events (snd r) = events st ++ attempt_events w url a hs
        /\ issued (snd r) = issued st + List.length hs
        /\ last_exc (snd r) = match last_error outs with
                              | Some e => Some e
                              | None => last_exc st
                              end
    end.
Proof.
  induction hs as [| h rest IH]; intros st; simpl.
  - rewrite app_nil_r, Nat.add_0_r. auto.
  - destruct (request_once w url (with_referer w url h) (issued st))
      as [c | e]; simpl.
    + auto.
    + specialize (IH (mkLocals (S (issued st))
                        (events st ++ [EvGet a (with_referer w url h)])
                        (Some e))).
      simpl in IH.
      destruct (first_ok (outs_from w url (S (issued st)) rest))
        as [[i c] |]; simpl.
      * destruct IH as [IH1 IH2]. split; [exact IH1 |].
        rewrite IH2, <- app_assoc. reflexivity.
      * destruct IH as [IH1 [IH2 [IH3 IH4]]].
        split; [exact IH1 |]. split; [| split].
        -- rewrite IH2, <- app_assoc. reflexivity.
        -- rewrite IH3. lia.
        -- rewrite IH4.
           destruct (last_error (outs_from w url (S (issued st)) rest));
             reflexivity.
Qed.

Lemma outs_from_length (n0 : nat) (hs : list Headers) :
  List.length (outs_from w url n0 hs) = List.length hs.
Proof.
  revert n0. induction hs as [| h r IH]; intros n0; simpl;
    [reflexivity | now rewrite IH].
Qed.

Lemma attempt_events_length (a : nat) (hs : list Headers) :
  List.length (attempt_events w url a hs) = List.length hs.
Proof. unfold attempt_events. apply length_map. Qed.

Lemma attempt_events_firstn (a : nat) (n : nat) (hs : list Headers) :
  attempt_events w url a (firstn n hs) = firstn n (attempt_events w url a hs).
Proof. unfold attempt_events. symmetry. apply firstn_map. Qed.

Lemma n_profiles_pos : 0 < n_profiles.
Proof. unfold n_profiles. simpl. lia. Qed.

(** All attempts: each runs its profiles, sleeps when all of them failed,
    and the first success ends the loop. *)
Lemma attempts_loop_spec (attempts : list nat) :
  forall st,
    let r := attempts_loop w url attempts st in
    let outs := outs_attempts w url (issued st) attempts in
    match first_ok outs with
    | Some (n, c) =>
        fst r = Some c
        /\ events (snd r)
           = events st
             ++ firstn (n + n / n_profiles + 1) (schedule_of w url attempts)
    | None =>
        fst r = None
        /\ events (snd r) = events st ++ schedule_of w url attempts
        /\ last_exc (snd r) = match last_error outs with
                              | Some e => Some e
                              | None => last_exc st
                              end
    end.
Proof.
  induction attempts as [| a rest IH]; intros st;
    cbn [attempts_loop outs_attempts schedule_of flat_map].
  - cbn. rewrite app_nil_r. auto.
  - rewrite first_ok_app, last_error_app.
    pose proof (try_profiles_spec a header_candidates st) as Ht.
    cbv zeta in Ht.
    destruct (first_ok (outs_from w url (issued st) header_candidates))
      as [[i c] |] eqn:E1.
    + destruct Ht as [Ht1 Ht2].
      destruct (try_profiles w url a header_candidates st) as [o st'].
      cbn [fst snd] in *. subst o. cbn [fst snd]. split; [reflexivity |].
      rewrite Ht2. f_equal.
      apply first_ok_lt in E1. rewrite outs_from_length in E1.
      fold n_profiles in E1.
      rewrite (Nat.div_small i n_profiles E1), Nat.add_0_r, Nat.add_1_r.
      rewrite attempt_events_firstn, <- app_assoc, firstn_app.
      rewrite attempt_events_length. fold n_profiles.
      replace (S i - n_profiles) with 0 by lia.
      rewrite firstn_0. now rewrite app_nil_r.
    + destruct Ht as [Ht1 [Ht2 [Ht3 Ht4]]].
      destruct (try_profiles w url a header_candidates st) as [o st'].
      cbn [fst snd] in *. subst o. cbn [fst snd].
      fold (schedule_of w url rest).
      specialize (IH (mkLocals (issued st')
                        (events st' ++ [EvSleep (sleep_time a)])
                        (last_exc st'))).
      cbv zeta in IH. cbn [issued events last_exc] in IH.
      rewrite Ht3 in IH. rewrite Ht3. fold n_profiles in IH.
      rewrite outs_from_length. fold n_profiles.
      destruct (first_ok (outs_attempts w url (issued st + n_profiles) rest))
        as [[n c] |]; cbn [option_map].
      * destruct IH as [IH1 IH2]. split; [exact IH1 |].
        rewrite IH2, Ht2, <- !app_assoc. f_equal.
        replace (n_profiles + n + (n_profiles + n) / n_profiles + 1)
          with (List.length (attempt_events w url a header_candidates
                             ++ [EvSleep (sleep_time a)])
                + (n + n / n_profiles + 1)).
        -- rewrite !(app_assoc (attempt_events w url a header_candidates)
                       [EvSleep (sleep_time a)]).
           now rewrite firstn_app_2.
        -- rewrite length_app, attempt_events_length. fold n_profiles.
           cbn [List.length].
           replace (n_profiles + n) with (1 * n_profiles + n) by lia.
           rewrite Nat.div_add_l by (pose proof n_profiles_pos; lia).
           lia.
      * destruct IH as [IH1 [IH2 IH3]].
        split; [exact IH1 |]. split.
        -- rewrite IH2, Ht2, <- !app_assoc. reflexivity.
        -- rewrite IH3, Ht4.
           destruct (last_error
                       (outs_attempts w url (issued st + n_profiles) rest));
             reflexivity.
Qed.

Lemma outs_attempts_outcomes :
  outs_attempts w url 0 (seq 1 max_attempts) = outcomes w url.
Proof. reflexivity. Qed.

Lemma outcomes_nth (n : nat) :
  n < n_requests -> nth_error (outcomes w url) n = Some (outcome_at w url n).
Proof.
  intros H. unfold outcomes.
  rewrite nth_error_map, nth_error_nth' with (d := 0) by (rewrite length_seq; exact H).
  rewrite seq_nth by exact H. reflexivity.
Qed.

(** The helper as a function of the outcomes of its requests. *)
Lemma fetch_traced_spec :
  fetch_traced w url =
  match first_ok (outcomes w url) with
  | Some (n, c) =>
      (Ok c, firstn (n + n / n_profiles + 1) (schedule w url))
  | None =>
      (match urllib_fallback w url with
       | Ok c => Ok c
       | Raise e =>
           Raise (match last_error (outcomes w url) with
                  | Some l => l
                  | None => e
                  end)
       end,
       schedule w url ++ [EvFallback])
  end.
Proof.
  unfold fetch_traced.
  pose proof (attempts_loop_spec (seq 1 max_attempts) (mkLocals 0 [] None))
    as H.
  cbv zeta in H. cbn [issued events last_exc app] in H.
  rewrite outs_attempts_outcomes in H. fold (schedule w url) in H.
  destruct (first_ok (outcomes w url)) as [[n c] |].
  - destruct H as [H1 H2].
    destruct (attempts_loop w url (seq 1 max_attempts) (mkLocals 0 [] None))
      as [o st']. cbn [fst snd] in H1, H2. subst o. now rewrite H2.
  - destruct H as [H1 [H2 H3]].
    destruct (attempts_loop w url (seq 1 max_attempts) (mkLocals 0 [] None))
      as [o st']. cbn [fst snd] in H1, H2, H3. subst o. rewrite H2, H3.
    destruct (urllib_fallback w url) as [c | e]; [reflexivity |].
    destruct (last_error (outcomes w url)); reflexivity.
Qed.

(** A request succeeds exactly when the server answers with a status
    outside 400..599 and the chunks it streams make a non-empty body. *)
Lemma request_once_ok (h : Headers) (n : nat) (c : string) :
  request_once w url h n = Ok c <->
  exists r,
    session_get w url h n = Returns r
    /\ ((status_code r <? 400) || (600 <=? status_code r))%Z = true
    /\ c = String.concat "" (filter Str.nonempty (chunks r))
    /\ c <> "".
Proof.
  unfold request_once, raise_for_status, Str.nonempty.
  destruct (session_get w url h n) as [r | cls msg]; cbn [call bind].
  - set (body := String.concat "" (filter _ (chunks r))).
    split.
    + intros H. exists r. split; [reflexivity |].
      destruct ((400 <=? status_code r) && (status_code r <? 600))%Z eqn:Es;
        cbn [bind] in H; [discriminate |].
      destruct (body =? "") eqn:Eb; cbn [negb] in H; [discriminate |].
      inversion H. subst c. repeat split.
      * apply andb_false_iff in Es. apply orb_true_iff.
        destruct Es as [Es | Es].
        -- left. apply Z.ltb_lt. now apply Z.leb_gt in Es.
        -- right. apply Z.leb_le. now apply Z.ltb_ge in Es.
      * now apply String.eqb_neq.
    + intros [r' [Hr [Hs [Hc Hne]]]]. inversion Hr; subst r'.
      assert (Es : ((400 <=? status_code r) && (status_code r <? 600))%Z
                   = false).
      { apply orb_true_iff in Hs. apply andb_false_iff.
        destruct Hs as [Hs | Hs].
        - left. apply Z.leb_gt. now apply Z.ltb_lt in Hs.
        - right. apply Z.ltb_ge. now apply Z.leb_le in Hs. }
      rewrite Es. cbn [bind]. fold body in Hc. rewrite <- Hc.
      apply String.eqb_neq in Hne. now rewrite Hne.
  - split; [discriminate |]. intros [r [Hr _]]. discriminate.
Qed.

End WithWorld.

End FetchFacts.

Lemma sleep_time_formula (a : nat) :
  1 <= a ->
  (Fetch.sleep_time a == Fetch.base_delay * 2 ^ (Z.of_nat a - 1))%Q.
Proof.
  intros Ha. unfold Fetch.sleep_time.
  replace (Z.of_nat (a - 1)) with (Z.of_nat a - 1)%Z by lia.
  rewrite Zpower_Qpower by lia. reflexivity.
Qed.

(** The fallback succeeds exactly when the host can be parsed and the one
    [urlopen] request, sent with the two fallback headers, returns a
    non-empty body. *)
Lemma urllib_fallback_ok (w : World) (url : string) (c : string) :
  Fetch.urllib_fallback w url = Ok c <->
  exists host,
    urlparse_netloc w url = Returns host
    /\ urlopen_read w url
         [("User-Agent", "Mozilla/5.0 (Windows NT 10.0; Win64; x64)");
          ("Referer", ("https://" ++ host ++ "/")%string)]
       = Returns c
    /\ c <> "".
Proof.
  unfold Fetch.urllib_fallback.
  destruct (urlparse_netloc w url) as [host | cls msg]; cbn [call bind].
  - destruct (urlopen_read w url _) as [body | cls msg] eqn:Er; cbn [call bind].
    + unfold Str.nonempty. destruct (body =? "") eqn:Eb; cbn [negb].
      * split; [discriminate |].
        intros [h [Hh [Hb Hne]]]. inversion Hh; subst h.
        rewrite Er in Hb. inversion Hb; subst c.
        apply String.eqb_eq in Eb. contradiction.
      * split.
        -- intros H. inversion H; subst c. exists host.
           split; [reflexivity |]. split; [exact Er |].
           now apply String.eqb_neq.
        -- intros [h [Hh [Hb _]]]. inversion Hh; subst h.
           rewrite Er in Hb. now inversion Hb.
    + split; [discriminate |].
      intros [h [Hh [Hb _]]]. inversion Hh; subst h.
      rewrite Er in Hb. discriminate.
  - split; [discriminate |]. intros [h [Hh _]]. discriminate.
Qed.

(** C7 (amended): requests go out attempt by attempt (1..3), every header
    profile in order within an attempt; a request succeeds when its status
    is a success status and its streamed body is non-empty; the first
    request that succeeds ends the fetch with its body, nothing being tried
    after it. After an attempt in which every profile failed the fetch
    sleeps [base_delay * 2^(attempt-1)]. When all nine requests have failed
    one fallback request is made through [urllib], which succeeds when it
    returns a non-empty body. If the fallback fails as well, the fetch
    raises the exception of the ninth request: the error of the fallback,
    the most recent one, is dropped. *)
Theorem fetch_retry_protocol (w : World) (url : string) :
  (forall n c,
     n < FetchPlan.n_requests ->
     FetchPlan.outcome_at w url n = Ok c ->
     (forall j, j < n -> exists e, FetchPlan.outcome_at w url j = Raise e) ->
     Fetch._fetch_image_bytes_with_headers w url = Ok c
     /\ snd (Fetch.fetch_traced w url)
        = firstn (n + n / FetchPlan.n_profiles + 1) (FetchPlan.schedule w url))
  /\ ((forall j, j < FetchPlan.n_requests ->
                 exists e, FetchPlan.outcome_at w url j = Raise e) ->
      snd (Fetch.fetch_traced w url)
      = FetchPlan.schedule w url ++ [Fetch.EvFallback]
      /\ (forall c,
            Fetch.urllib_fallback w url = Ok c ->
            Fetch._fetch_image_bytes_with_headers w url = Ok c)
      /\ (forall e,
            Fetch.urllib_fallback w url = Raise e ->
            exists e9,
              FetchPlan.outcome_at w url (FetchPlan.n_requests - 1) = Raise e9
              /\ Fetch._fetch_image_bytes_with_headers w url = Raise e9))
  /\ (forall c,
        Fetch.urllib_fallback w url = Ok c <->
        exists host,
          urlparse_netloc w url = Returns host
          /\ urlopen_read w url
               [("User-Agent", "Mozilla/5.0 (Windows NT 10.0; Win64; x64)");
                ("Referer", ("https://" ++ host ++ "/")%string)]
             = Returns c
          /\ c <> "")
  /\ FetchPlan.n_requests = 9
  /\ FetchPlan.schedule w url
     = flat_map
         (fun a =>
            map (fun h => Fetch.EvGet a (Fetch.with_referer w url h))
                Fetch.header_candidates
            ++ [Fetch.EvSleep (Fetch.sleep_time a)])
         [1; 2; 3]
  /\ (forall a, 1 <= a ->
        (Fetch.sleep_time a == Fetch.base_delay * 2 ^ (Z.of_nat a - 1))%Q)
  /\ (forall h n c,
        Fetch.request_once w url h n = Ok c <->
        exists r,
          session_get w url h n = Returns r
          /\ ((status_code r <? 400) || (600 <=? status_code r))%Z = true
          /\ c = String.concat "" (filter Str.nonempty (chunks r))
          /\ c <> "").
Proof.
  unfold Fetch._fetch_image_bytes_with_headers.
  split; [| split; [| split; [| split; [| split; [| split]]]]].
  - intros n c Hn Hok Hbefore.
    rewrite FetchFacts.fetch_traced_spec.
    rewrite (FetchFacts.first_ok_at (FetchPlan.outcomes w url) n c);
      [split; reflexivity | |].
    + now rewrite FetchFacts.outcomes_nth, Hok.
    + intros j Hj. destruct (Hbefore j Hj) as [e He]. exists e.
      rewrite FetchFacts.outcomes_nth by lia. now rewrite He.
  - intros Hall.
    rewrite FetchFacts.fetch_traced_spec.
    destruct (FetchFacts.first_ok_none (FetchPlan.outcomes w url))
      as [Hnone Hlast].
    { intros j Hj. unfold FetchPlan.outcomes in Hj.
      rewrite length_map, length_seq in Hj.
      destruct (Hall j Hj) as [e He]. exists e.
      rewrite FetchFacts.outcomes_nth by exact Hj. now rewrite He. }
    rewrite Hnone. cbn [fst snd].
    split; [reflexivity |]. split.
    + intros c Hc. now rewrite Hc.
    + intros e He. rewrite He.
      specialize (Hlast ltac:(discriminate)).
      replace (List.length (FetchPlan.outcomes w url) - 1)
        with (FetchPlan.n_requests - 1) in Hlast
        by (unfold FetchPlan.outcomes; now rewrite length_map, length_seq).
      rewrite FetchFacts.outcomes_nth in Hlast
        by (unfold FetchPlan.n_requests; simpl; lia).
      destruct (FetchPlan.last_error (FetchPlan.outcomes w url)) as [l |];
        simpl in Hlast; [| discriminate].
      inversion Hlast as [Hl]. exists l. split; [symmetry; exact Hl | reflexivity].
  - apply urllib_fallback_ok.
  - reflexivity.
  - reflexivity.
  - apply sleep_time_formula.
  - apply FetchFacts.request_once_ok.
Qed.

(** The retry scenario of the design document: the first profile is
    refused, the second is served within the same attempt, and the fetch
    returns the body of the second without sleeping or trying the third. *)
Lemma fetch_retry_protocol_witness :
  Fetch._fetch_image_bytes_with_headers FetchPlan.refuses_first_profile
    "https://cdn.example.com/a.png"
  = Ok "abcd"
  /\ snd (Fetch.fetch_traced FetchPlan.refuses_first_profile
            "https://cdn.example.com/a.png")
     = firstn 2 (FetchPlan.schedule FetchPlan.refuses_first_profile
                   "https://cdn.example.com/a.png").
Proof.
  apply (proj1 (fetch_retry_protocol FetchPlan.refuses_first_profile
                  "https://cdn.example.com/a.png") 1 "abcd").
  - unfold FetchPlan.n_requests. simpl. lia.
  - reflexivity.
  - intros j Hj. assert (j = 0) by lia. subst j.
    eexists. reflexivity.
Defined.

(** C7, as documented, fails on its last clause: with the network down,
    every request of the retry loop raises a [ConnectionError]; the fallback
    runs after them and raises a [URLError], the most recent error; what the
    fetch raises is the [ConnectionError] of the ninth request. *)
Lemma fetch_drops_the_fallback_error :
  let url := "https://cdn.example.com/a.png" in
  FetchPlan.outcome_at demo_world url 8
  = Raise (Exception "ConnectionError" "offline")
  /\ List.length (snd (Fetch.fetch_traced demo_world url)) = 13
  /\ last (snd (Fetch.fetch_traced demo_world url)) (Fetch.EvSleep 0)
     = Fetch.EvFallback
  /\ Fetch.urllib_fallback demo_world url
     = Raise (Exception "URLError" "offline")
  /\ Fetch._fetch_image_bytes_with_headers demo_world url
     = Raise (Exception "ConnectionError" "offline")
  /\ Fetch._fetch_image_bytes_with_headers demo_world url
     <> Raise (Exception "URLError" "offline").
Proof. cbv zeta. repeat split; try reflexivity. discriminate. Qed.

(** After nine refusals the fallback request is made and its body is the
    result. *)
Example fetch_falls_back_to_urllib :
  Fetch.fetch_traced FetchPlan.only_urllib_answers
    "https://cdn.example.com/a.png"
  = (Ok "abcd",
     FetchPlan.schedule FetchPlan.only_urllib_answers
       "https://cdn.example.com/a.png" ++ [Fetch.EvFallback]).
Proof. vm_compute. reflexivity. Qed.

(** * Further properties of the code *)

(** ** Image column detection *)

Lemma mem_In (x : string) (l : list string) :
  Str.mem x l = true <-> In x l.
Proof.
  unfold Str.mem. rewrite existsb_exists. split.
  - intros [y [Hy E]]. apply String.eqb_eq in E. now subst.
  - intros H. exists x. split; [exact H | apply String.eqb_refl].
Qed.

Lemma preferred_are_image_like (c : string) :
  In c preferred_image_columns -> image_like c = true.
Proof.
  intros H. repeat (destruct H as [<- | H]; [reflexivity |]). destruct H.
Qed.

(** X1: the image column found is always a column of the frame whose
    lower-cased name contains one of the five keywords; the detection fails
    exactly when no column name does; and a column literally named
    [image_url] is chosen wherever it stands. *)
Theorem detect_image_column_spec (d : DataFrame) :
  (forall c, _detect_image_column d = Ok c ->
             In c (DF.columns d) /\ image_like c = true)
  /\ ((exists e, _detect_image_column d = Raise e)
      <-> forall c, In c (DF.columns d) -> image_like c = false)
  /\ (In "image_url" (DF.columns d) ->
      _detect_image_column d = Ok "image_url").
Proof.
  unfold _detect_image_column. fold image_like.
  change (filter (fun c => existsb (fun k => Str.contains k (Str.lower c))
                                   image_keywords) (DF.columns d))
    with (filter image_like (DF.columns d)).
  split; [| split].
  - intros c.
    destruct (find (fun pref => DF.has_col pref d) preferred_image_columns)
      as [pref |] eqn:Ef.
    + intros H. inversion H; subst.
      apply find_some in Ef. destruct Ef as [Hin Hcol]. split.
      * now apply mem_In.
      * now apply preferred_are_image_like.
    + destruct (filter image_like (DF.columns d)) as [| c0 r] eqn:Ec;
        [discriminate |].
      intros H. inversion H; subst.
      assert (Hin : In c (filter image_like (DF.columns d)))
        by (rewrite Ec; now left).
      now apply filter_In in Hin.
  - destruct (find (fun pref => DF.has_col pref d) preferred_image_columns)
      as [pref |] eqn:Ef.
    + apply find_some in Ef. destruct Ef as [Hin Hcol].
      split; [intros [e He]; discriminate |].
      intros Hnone. apply mem_In in Hcol.
      specialize (Hnone pref Hcol) as Hn.
      rewrite (preferred_are_image_like pref Hin) in Hn. discriminate.
    + destruct (filter image_like (DF.columns d)) as [| c0 r] eqn:Ec.
      * split; [| eauto]. intros _ c Hc.
        destruct (image_like c) eqn:Ei; [| reflexivity].
        assert (Hin : In c (filter image_like (DF.columns d)))
          by (apply filter_In; auto).
        rewrite Ec in Hin. destruct Hin.
      * split; [intros [e He]; discriminate |].
        intros Hnone.
        assert (Hin : In c0 (filter image_like (DF.columns d)))
          by (rewrite Ec; now left).
        apply filter_In in Hin. destruct Hin as [Hc Hl].
        rewrite (Hnone c0 Hc) in Hl. discriminate.
  - intros Hin. apply mem_In in Hin. unfold preferred_image_columns.
    simpl find. unfold DF.has_col at 1. now rewrite Hin.
Qed.

(** ** The frame [_load_csv_filtered] returns *)

Lemma get_col_opt_mask_rows (c : string) (mask : list bool) (d : DataFrame) :
  DF.get_col_opt c (DF.mask_rows mask d)
  = option_map (DF.mask_series mask) (DF.get_col_opt c d).
Proof.
  induction d as [| [n v] r IH]; simpl; [reflexivity |].
  destruct (n =? c); [reflexivity | exact IH].
Qed.

Lemma get_col_mask_rows (c : string) (mask : list bool) (d : DataFrame) :
  DF.has_col c d = true ->
  DF.get_col c (DF.mask_rows mask d) = DF.mask_series mask (DF.get_col c d).
Proof.
  intros H. apply has_col_get_col_opt in H. destruct H as [v H].
  unfold DF.get_col. now rewrite get_col_opt_mask_rows, H.
Qed.

Lemma mask_series_keeps_left (f g : string -> bool) (l1 l2 : Series) :
  Forall (fun s => f s = true)
         (DF.mask_series
            (map (fun '(i, u) => f i && g u) (combine l1 l2)) l1).
Proof.
  revert l2. induction l1 as [| x r IH]; intros [| y l2]; simpl;
    try constructor.
  destruct (f x) eqn:Ef; simpl; [| apply IH].
  destruct (g y); [constructor; [exact Ef | apply IH] | apply IH].
Qed.

Lemma mask_series_keeps_right (f g : string -> bool) (l1 l2 : Series) :
  Forall (fun s => g s = true)
         (DF.mask_series
            (map (fun '(i, u) => f i && g u) (combine l1 l2)) l2).
Proof.
  revert l2. induction l1 as [| x r IH]; intros [| y l2]; simpl;
    try constructor.
  destruct (f x); simpl; [| apply IH].
  destruct (g y) eqn:Eg; [constructor; [exact Eg | apply IH] | apply IH].
Qed.

Lemma nonempty_true (s : string) : Str.nonempty s = true -> s <> "".
Proof.
  unfold Str.nonempty. intros H. apply negb_true_iff in H.
  now apply String.eqb_neq.
Qed.

Lemma get_col_set_col_other (c c' : string) (v : Series) (d : DataFrame) :
  c <> c' -> DF.get_col_opt c (DF.set_col c' v d) = DF.get_col_opt c d.
Proof.
  intros Hne. unfold DF.set_col. destruct (DF.has_col c' d).
  - induction d as [| [n x] r IH]; simpl; [reflexivity |].
    destruct (n =? c') eqn:E1; simpl.
    + apply String.eqb_eq in E1. subst n.
      destruct (c' =? c) eqn:E2; [| reflexivity].
      apply String.eqb_eq in E2. now elim Hne.
    + destruct (n =? c); [reflexivity | exact IH].
  - induction d as [| [n x] r IH]; simpl.
    + destruct (c' =? c) eqn:E2; [| reflexivity].
      apply String.eqb_eq in E2. now elim Hne.
    + destruct (n =? c); [reflexivity | exact IH].
Qed.

(** X2: every frame [_load_csv_filtered] returns has an [id] and an
    [image_url] column, and no row of it has an empty id or an empty image
    source. *)
Theorem load_csv_rows_complete (stem : string -> string) (c : csv_file)
  (d : DataFrame) :
  _load_csv_filtered stem c = Ok d ->
  In "id" (DF.columns d) /\ In "image_url" (DF.columns d)
  /\ Forall (fun s => s <> "") (DF.get_col "id" d)
  /\ Forall (fun s => s <> "") (DF.get_col "image_url" d).
Proof.
  intros Hload.
  destruct (load_has_columns stem c d Hload) as [Hid Himg].
  split; [now apply mem_In | split; [now apply mem_In |]].
  revert Hload. unfold _load_csv_filtered.
  destruct c as [[d0 | cls msg] |]; simpl; try discriminate.
  destruct (_detect_image_column d0) as [img_col | e]; simpl;
    try discriminate.
  intros H. inversion H as [Hd]. clear H.
  set (d5 := DF.set_col "id" _ _) in *.
  assert (H5id : DF.has_col "id" d5 = true) by apply has_col_set_col.
  assert (H5img : DF.has_col "image_url" d5 = true).
  { rewrite <- Hd, has_col_mask_rows in Himg. exact Himg. }
  rewrite !get_col_mask_rows by assumption.
  split.
  - eapply Forall_impl; [| apply mask_series_keeps_left].
    intros s. apply nonempty_true.
  - eapply Forall_impl; [| apply mask_series_keeps_right].
    intros s. apply nonempty_true.
Qed.

Lemma load_csv_rows_complete_witness :
  Forall (fun s => s <> "")
    (DF.get_col "id"
       [("id", ["7"; "y"]); ("image_url", ["a/x.jpg"; "b/y.png"])]).
Proof.
  exact (proj1 (proj2 (proj2
    (load_csv_rows_complete PosixPath.stem
       (Some (Returns [("id", ["7"; " NaN "; "9"]);
                       ("img", [" a/x.jpg "; "b/y.png"; "  "])]))
       [("id", ["7"; "y"]); ("image_url", ["a/x.jpg"; "b/y.png"])]
       eq_refl)))).
Defined.

Lemma mask_series_nil {A : Type} (mask : list bool) :
  DF.mask_series mask (@nil A) = [].
Proof. destruct mask as [| [|] r]; reflexivity. Qed.

Lemma mask_series_compose {A : Type} (m1 m2 : list bool) (l : list A) :
  DF.mask_series m2 (DF.mask_series m1 l)
  = DF.mask_series (compose_masks m1 m2) l.
Proof.
  revert m2 l. induction m1 as [| b r IH]; intros m2 l; simpl.
  - apply mask_series_nil.
  - destruct b; destruct l as [| x l]; simpl.
    + now rewrite !mask_series_nil.
    + destruct m2 as [| b2 r2]; simpl; [reflexivity |].
      destruct b2; now rewrite IH.
    + now rewrite mask_series_nil.
    + apply IH.
Qed.

Lemma mask_series_length {A B : Type} (mask : list bool) (l : list A)
  (l' : list B) :
  List.length l = List.length l' ->
  List.length (DF.mask_series mask l) = List.length (DF.mask_series mask l').
Proof.
  revert l l'. induction mask as [| b r IH]; intros [| x l] [| y l'] H;
    simpl in *; try reflexivity; try discriminate.
  - now destruct b.
  - destruct b; simpl; auto.
Qed.

Lemma mask_series_length_le {A : Type} (mask : list bool) (l : list A) :
  List.length (DF.mask_series mask l) <= List.length l.
Proof.
  revert l. induction mask as [| b r IH]; intros [| x l]; simpl; try lia.
  - destruct b; simpl; lia.
  - specialize (IH l). destruct b; simpl; lia.
Qed.

Lemma mask_series_map {A B : Type} (f : A -> B) (mask : list bool)
  (l : list A) :
  DF.mask_series mask (map f l) = map f (DF.mask_series mask l).
Proof.
  revert l. induction mask as [| b r IH]; intros [| x l]; simpl;
    try reflexivity.
  - now destruct b.
  - destruct b; simpl; now rewrite IH.
Qed.

Lemma all_len_get_col (n : nat) (c : string) (d : DataFrame) :
  all_len n d -> DF.has_col c d = true -> List.length (DF.get_col c d) = n.
Proof.
  intros R H. apply has_col_get_col_opt in H. destruct H as [v H].
  unfold DF.get_col. rewrite H. apply get_col_opt_In in H.
  unfold all_len in R. rewrite Forall_forall in R. exact (R _ H).
Qed.

Lemma all_len_set_col (n : nat) (c : string) (v : Series) (d : DataFrame) :
  all_len n d -> List.length v = n -> all_len n (DF.set_col c v d).
Proof.
  intros R Hv. unfold DF.set_col. destruct (DF.has_col c d).
  - induction R as [| [m x] r Hx Hr IH]; simpl; [constructor |].
    destruct (m =? c); constructor; auto.
  - apply Forall_app. split; [exact R | repeat constructor; exact Hv].
Qed.

Lemma all_len_rename_col (n : nat) (old new : string) (d : DataFrame) :
  all_len n d -> all_len n (DF.rename_col old new d).
Proof.
  intros R. unfold DF.rename_col.
  induction R as [| [m x] r Hx _ IH]; simpl; constructor; auto.
Qed.

Lemma all_len_mask_rows (n : nat) (mask : list bool) (d : DataFrame) :
  all_len n d ->
  all_len (List.length (DF.mask_series mask (repeat tt n)))
          (DF.mask_rows mask d).
Proof.
  intros R. unfold DF.mask_rows.
  induction R as [| [m x] r Hx _ IH]; simpl; constructor; auto.
  simpl in *. apply mask_series_length. now rewrite repeat_length.
Qed.

Lemma fill_where_length (mask : list bool) (fill old : Series) (n : nat) :
  List.length mask = n -> List.length fill = n -> List.length old = n ->
  List.length (fill_where mask fill old) = n.
Proof.
  revert fill old n.
  induction mask as [| b r IH]; intros [| f fs] [| o os] n; simpl;
    intros; try lia.
  destruct n as [| n]; [lia |]. simpl. f_equal. apply IH; lia.
Qed.

Lemma all_len_assign_ids (stem : string -> string) (n : nat) (d : DataFrame) :
  all_len n d -> DF.has_col "image_url" d = true ->
  all_len n (assign_ids stem d).
Proof.
  intros R Himg.
  assert (Hstems : List.length (map (stem_or_empty stem)
                                    (DF.get_col "image_url" d)) = n)
    by (rewrite length_map; now apply all_len_get_col).
  unfold assign_ids.
  destruct (DF.has_col "id" d) eqn:Hid; simpl.
  - assert (Hids : List.length (map Str.strip (DF.get_col "id" d)) = n)
      by (rewrite length_map; now apply all_len_get_col).
    destruct (forallb _ _); [now apply all_len_set_col |].
    destruct (existsb _ _).
    + apply all_len_set_col; [now apply all_len_set_col |].
      apply fill_where_length; try assumption.
      now rewrite length_map.
    + now apply all_len_set_col.
  - destruct (DF.has_col "sku" d) eqn:Hsku; simpl.
    + destruct (existsb _ _); apply all_len_set_col; try assumption.
      rewrite length_map. now apply all_len_get_col.
    + now apply all_len_set_col.
Qed.

Lemma all_len_rectangular (n : nat) (d : DataFrame) :
  all_len n d -> rectangular d /\ (d <> [] -> DF.nrows d = n).
Proof.
  intros R. destruct d as [| [m x] r].
  - split; [constructor | intros H; now elim H].
  - assert (Hn : List.length x = n) by (inversion R; assumption).
    split; [| intros _; exact Hn].
    unfold rectangular. simpl. unfold all_len in R.
    eapply Forall_impl; [| exact R]. intros c Hc. simpl in *. congruence.
Qed.

Lemma has_col_nonempty (c : string) (d : DataFrame) :
  DF.has_col c d = true -> d <> [].
Proof. intros H ->. discriminate. Qed.

Lemma detect_returns_column (d : DataFrame) (c : string) :
  _detect_image_column d = Ok c -> DF.has_col c d = true.
Proof.
  unfold _detect_image_column.
  destruct (find (fun pref => DF.has_col pref d) preferred_image_columns)
    as [pref |] eqn:Ef.
  - intros H. inversion H; subst. now apply find_some in Ef.
  - destruct (filter _ (DF.columns d)) as [| c0 r] eqn:Ec; [discriminate |].
    intros H. inversion H; subst.
    assert (Hin : In c (c :: r)) by now left.
    rewrite <- Ec in Hin. apply filter_In in Hin.
    apply mem_In. tauto.
Qed.

Lemma detect_image_url_first (d : DataFrame) :
  DF.has_col "image_url" d = true -> _detect_image_column d = Ok "image_url".
Proof.
  intros H. unfold _detect_image_column, preferred_image_columns.
  simpl find. now rewrite H.
Qed.

Lemma get_col_opt_rename_other (c old new : string) (d : DataFrame) :
  c <> old -> c <> new ->
  DF.get_col_opt c (DF.rename_col old new d) = DF.get_col_opt c d.
Proof.
  intros Ho Hn. induction d as [| [n v] r IH]; simpl; [reflexivity |].
  destruct (n =? old) eqn:E1.
  - apply String.eqb_eq in E1. subst n.
    destruct (new =? c) eqn:E2; [apply String.eqb_eq in E2; now elim Hn |].
    destruct (old =? c) eqn:E3; [apply String.eqb_eq in E3; now elim Ho |].
    exact IH.
  - destruct (n =? c); [reflexivity | exact IH].
Qed.

Lemma get_col_opt_rename_new (old new : string) (d : DataFrame) :
  DF.has_col new d = false ->
  DF.get_col_opt new (DF.rename_col old new d) = DF.get_col_opt old d.
Proof.
  unfold DF.has_col, Str.mem, DF.columns.
  induction d as [| [n v] r IH]; simpl; [reflexivity |].
  intros H. apply orb_false_iff in H. destruct H as [Hn Hr].
  destruct (n =? old) eqn:E1.
  - now rewrite String.eqb_refl.
  - rewrite String.eqb_sym in Hn. rewrite Hn. now apply IH.
Qed.

Lemma get_col_opt_assign_ids_other (stem : string -> string) (c : string)
  (d : DataFrame) :
  c <> "id" ->
  DF.get_col_opt c (assign_ids stem d) = DF.get_col_opt c d.
Proof.
  intros Hc. unfold assign_ids.
  repeat match goal with
         | |- context [if ?b then _ else _] => destruct b
         end; rewrite ?get_col_set_col_other by exact Hc; reflexivity.
Qed.

Lemma option_map_mask_compose (m1 m2 : list bool) (o : option Series) :
  option_map (DF.mask_series m2) (option_map (DF.mask_series m1) o)
  = option_map (DF.mask_series (compose_masks m1 m2)) o.
Proof. destruct o; simpl; [now rewrite mask_series_compose | reflexivity]. Qed.

(** X3: on a rectangular table [_load_csv_filtered] only drops whole rows
    and never reorders them: the result is rectangular, has no more rows
    than the input, and one keep-mask gives the [image_url] column (the
    stripped image column of the input) and every column other than [id]
    from the columns of the input. *)
Theorem load_csv_keeps_rows_whole (stem : string -> string)
  (d0 d : DataFrame) :
  rectangular d0 ->
  _load_csv_filtered stem (Some (Returns d0)) = Ok d ->
  rectangular d /\ DF.nrows d <= DF.nrows d0
  /\ exists img_col keep,
       _detect_image_column d0 = Ok img_col
       /\ DF.get_col "image_url" d
          = DF.mask_series keep (map Str.strip (DF.get_col img_col d0))
       /\ forall c, c <> "id" -> c <> "image_url" -> c <> img_col ->
            DF.get_col_opt c d
            = option_map (DF.mask_series keep) (DF.get_col_opt c d0).
Proof.
  intros R0. unfold _load_csv_filtered. simpl.
  destruct (_detect_image_column d0) as [img_col | e] eqn:Edet; simpl;
    [| discriminate].
  set (d1 := if negb (img_col =? "image_url")
             then DF.rename_col img_col "image_url" d0 else d0).
  set (d2 := DF.set_col "image_url"
               (map Str.strip (DF.get_col "image_url" d1)) d1).
  set (m1 := map Str.nonempty (DF.get_col "image_url" d2)).
  set (d3 := DF.mask_rows m1 d2).
  set (d4 := assign_ids stem d3).
  set (d5 := DF.set_col "id" (map Str.strip (DF.get_col "id" d4)) d4).
  set (m2 := map (fun '(i, u) => Str.nonempty i && Str.nonempty u)
                 (combine (DF.get_col "id" d5) (DF.get_col "image_url" d5))).
  intros H. inversion H as [Hd]. clear H.
  pose proof (detect_returns_column d0 img_col Edet) as Hcol0.
  (* the image column of [d1] is the detected column of [d0] *)
  assert (Himg1 : DF.get_col_opt "image_url" d1 = DF.get_col_opt img_col d0).
  { unfold d1. destruct (img_col =? "image_url") eqn:E; simpl.
    - apply String.eqb_eq in E. now subst.
    - apply get_col_opt_rename_new.
      destruct (DF.has_col "image_url" d0) eqn:E0; [| reflexivity].
      rewrite (detect_image_url_first d0 E0) in Edet. inversion Edet. subst.
      discriminate. }
  assert (Hhas1 : DF.has_col "image_url" d1 = true).
  { apply has_col_get_col_opt. rewrite Himg1.
    now apply has_col_get_col_opt. }
  assert (Hother1 : forall c, c <> "image_url" -> c <> img_col ->
                      DF.get_col_opt c d1 = DF.get_col_opt c d0).
  { intros c Hc1 Hc2. unfold d1. destruct (negb _); [| reflexivity].
    now apply get_col_opt_rename_other. }
  (* shapes *)
  assert (A1 : all_len (DF.nrows d0) d1).
  { unfold d1. destruct (negb _); [apply all_len_rename_col |]; exact R0. }
  assert (A2 : all_len (DF.nrows d0) d2).
  { apply all_len_set_col; [exact A1 |].
    rewrite length_map. now apply all_len_get_col. }
  set (n3 := List.length (DF.mask_series m1 (repeat tt (DF.nrows d0)))).
  assert (A3 : all_len n3 d3) by now apply all_len_mask_rows.
  assert (Hhas3 : DF.has_col "image_url" d3 = true).
  { unfold d3. rewrite has_col_mask_rows. apply has_col_set_col. }
  assert (A4 : all_len n3 d4) by now apply all_len_assign_ids.
  assert (A5 : all_len n3 d5).
  { apply all_len_set_col; [exact A4 |].
    rewrite length_map. apply all_len_get_col; [exact A4 |].
    apply assign_ids_has_id. }
  assert (A6 : all_len (List.length (DF.mask_series m2 (repeat tt n3)))
                       (DF.mask_rows m2 d5)) by now apply all_len_mask_rows.
  assert (Hne : DF.mask_rows m2 d5 <> []).
  { apply (has_col_nonempty "id"). rewrite has_col_mask_rows.
    apply has_col_set_col. }
  destruct (all_len_rectangular _ _ A6) as [Rd Hn].
  split; [exact Rd |]. split.
  { rewrite (Hn Hne).
    pose proof (mask_series_length_le m2 (repeat tt n3)) as L2.
    pose proof (mask_series_length_le m1 (repeat tt (DF.nrows d0))) as L1.
    rewrite repeat_length in L1, L2. fold n3 in L1. lia. }
  exists img_col, (compose_masks m1 m2). split; [reflexivity |]. split.
  - unfold DF.get_col.
    rewrite get_col_opt_mask_rows. unfold d5.
    rewrite get_col_set_col_other by discriminate. unfold d4.
    rewrite get_col_opt_assign_ids_other by discriminate. unfold d3.
    rewrite get_col_opt_mask_rows. unfold d2 at 1.
    rewrite get_col_opt_set_col. simpl.
    rewrite mask_series_compose. unfold DF.get_col. now rewrite Himg1.
  - intros c Hc1 Hc2 Hc3.
    rewrite get_col_opt_mask_rows. unfold d5.
    rewrite get_col_set_col_other by exact Hc1. unfold d4.
    rewrite get_col_opt_assign_ids_other by exact Hc1. unfold d3.
    rewrite get_col_opt_mask_rows. unfold d2 at 1.
    rewrite get_col_set_col_other by exact Hc2.
    rewrite Hother1 by assumption.
    apply option_map_mask_compose.
Qed.

Lemma load_csv_keeps_rows_whole_witness :
  rectangular [("id", ["7"; "y"]); ("title", ["shoe"; "hat"]);
               ("image_url", ["a/x.jpg"; "b/y.png"])].
Proof.
  exact (proj1
    (load_csv_keeps_rows_whole PosixPath.stem
       [("id", ["7"; " NaN "; "9"]); ("title", ["shoe"; "hat"; "bag"]);
        ("img", [" a/x.jpg "; "b/y.png"; "  "])]
       [("id", ["7"; "y"]); ("title", ["shoe"; "hat"]);
        ("image_url", ["a/x.jpg"; "b/y.png"])]
       ltac:(repeat constructor) eq_refl)).
Defined.

(** ** The fetch helper: headers, effort and result *)

(** X4: the referer injection never drops or changes a header of the
    profile; a profile that has a [Referer] goes out unchanged; when the
    host of the url parses and is non-empty, the request always carries a
    [Referer]; when parsing the url raises, the profile goes out as it
    is. *)
Theorem with_referer_spec (w : World) (url : string) (h : Headers) :
  (exists extra, Fetch.with_referer w url h = h ++ extra)
  /\ (Fetch.has_key "Referer" h = true -> Fetch.with_referer w url h = h)
  /\ (forall host,
        urlparse_netloc w url = Returns host -> host <> "" ->
        Fetch.has_key "Referer" (Fetch.with_referer w url h) = true)
  /\ (forall cls msg,
        urlparse_netloc w url = Throws cls msg ->
        Fetch.with_referer w url h = h).
Proof.
  unfold Fetch.with_referer.
  split; [| split; [| split]].
  - destruct (urlparse_netloc w url) as [host | cls msg]; simpl.
    + destruct (Str.nonempty host && negb (Fetch.has_key "Referer" h)).
      * eauto.
      * exists []. now rewrite app_nil_r.
    + exists []. now rewrite app_nil_r.
  - intros Hk. destruct (urlparse_netloc w url) as [host | cls msg]; simpl;
      [| reflexivity].
    rewrite Hk. simpl. now rewrite andb_false_r.
  - intros host Hhost Hne. rewrite Hhost. simpl.
    assert (Hn : Str.nonempty host = true).
    { unfold Str.nonempty. apply negb_true_iff. now apply String.eqb_neq. }
    rewrite Hn. simpl.
    destruct (Fetch.has_key "Referer" h) eqn:Hk; simpl; [exact Hk |].
    unfold Fetch.has_key, Str.mem. rewrite map_app, existsb_app. simpl.
    now rewrite orb_true_r.
  - intros cls msg Hthrow. now rewrite Hthrow.
Qed.

Lemma with_referer_spec_witness :
  Fetch.has_key "Referer"
    (Fetch.with_referer demo_world "https://cdn.example.com/a.png"
       [("User-Agent", "curl/7.64.1"); ("Accept", "*/*")]) = true.
Proof.
  apply (proj1 (proj2 (proj2
    (with_referer_spec demo_world "https://cdn.example.com/a.png"
       [("User-Agent", "curl/7.64.1"); ("Accept", "*/*")])))
    "cdn.example.com" eq_refl).
  discriminate.
Defined.

Lemma first_ok_In (l : list (result string)) (n : nat) (c : string) :
  FetchPlan.first_ok l = Some (n, c) -> In (Ok c) l.
Proof.
  revert n. induction l as [| [c' | e] r IH]; simpl; intros n H.
  - discriminate.
  - inversion H. now left.
  - destruct (FetchPlan.first_ok r) as [[i c''] |]; [| discriminate].
    inversion H; subst. right. now apply (IH i).
Qed.

Lemma first_ok_None_all (l : list (result string)) :
  FetchPlan.first_ok l = None <->
  forall j, j < List.length l -> exists e, nth_error l j = Some (Raise e).
Proof.
  split; [| intros H; now apply FetchFacts.first_ok_none].
  induction l as [| [c | e] r IH]; simpl; intros H j Hj.
  - lia.
  - discriminate.
  - destruct (FetchPlan.first_ok r) as [[i c] |] eqn:E; [discriminate |].
    destruct j as [| j]; simpl; [eauto |]. apply IH; [reflexivity | lia].
Qed.

Lemma count_gets_firstn (k : nat) (l : list Fetch.event) :
  List.length (filter is_get (firstn k l)) <= List.length (filter is_get l).
Proof.
  revert k. induction l as [| e r IH]; intros [| k]; simpl; try lia.
  specialize (IH k). destruct (is_get e); simpl; lia.
Qed.

Lemma total_sleep_nonneg (l : list Fetch.event) :
  Forall (fun e => match e with Fetch.EvSleep s => (0 <= s)%Q | _ => True end) l ->
  (0 <= total_sleep l)%Q.
Proof.
  induction 1 as [| e r He _ IH]; simpl; [apply Qle_refl |].
  destruct e; try exact IH. lra.
Qed.

Lemma total_sleep_firstn (k : nat) (l : list Fetch.event) :
  Forall (fun e => match e with Fetch.EvSleep s => (0 <= s)%Q | _ => True end) l ->
  (total_sleep (firstn k l) <= total_sleep l)%Q.
Proof.
  intros H. revert k.
  induction H as [| e r He Hr IH]; intros [| k]; simpl; try apply Qle_refl.
  - pose proof (total_sleep_nonneg r Hr). destruct e; try assumption. lra.
  - specialize (IH k). destruct e; try assumption. lra.
Qed.

Lemma total_sleep_app (l1 l2 : list Fetch.event) :
  (total_sleep (l1 ++ l2) == total_sleep l1 + total_sleep l2)%Q.
Proof.
  induction l1 as [| e r IH]; simpl; [ring |].
  destruct e; rewrite ?IH; ring.
Qed.

Lemma schedule_measures (w : World) (url : string) :
  List.length (filter is_get (FetchPlan.schedule w url)) = 9
  /\ (total_sleep (FetchPlan.schedule w url) == 7 # 2)%Q
  /\ Forall (fun e => match e with Fetch.EvSleep s => (0 <= s)%Q | _ => True end)
            (FetchPlan.schedule w url)
  /\ ~ In Fetch.EvFallback (FetchPlan.schedule w url).
Proof.
  unfold FetchPlan.schedule, FetchPlan.schedule_of, FetchPlan.attempt_events.
  simpl. repeat split.
  - repeat constructor; unfold Qle; simpl; lia.
  - intros H. repeat (destruct H as [H | H]; [discriminate |]). destruct H.
Qed.

(** X5: whatever the servers answer, one fetch issues at most nine
    requests and sleeps at most 3.5 seconds in all; the [urllib] fallback
    runs exactly when every one of the nine requests has failed. *)
Theorem fetch_effort_bounds (w : World) (url : string) :
  let trace := snd (Fetch.fetch_traced w url) in
  List.length (filter is_get trace) <= 9
  /\ (total_sleep trace <= 7 # 2)%Q
  /\ (In Fetch.EvFallback trace
      <-> forall n, n < FetchPlan.n_requests ->
                    exists e, FetchPlan.outcome_at w url n = Raise e).
Proof.
  intros trace. subst trace. rewrite FetchFacts.fetch_traced_spec.
  destruct (schedule_measures w url) as [Hgets [Hsleep [Hpos Hnofb]]].
  assert (Hlen : List.length (FetchPlan.outcomes w url) = FetchPlan.n_requests)
    by (unfold FetchPlan.outcomes; now rewrite length_map, length_seq).
  destruct (FetchPlan.first_ok (FetchPlan.outcomes w url)) as [[n c] |] eqn:E;
    cbn [snd].
  - split; [| split].
    + rewrite <- Hgets. apply count_gets_firstn.
    + rewrite <- Hsleep. now apply total_sleep_firstn.
    + split.
      * intros Hin. exfalso. apply Hnofb.
        rewrite <- (firstn_skipn (n + n / FetchPlan.n_profiles + 1)).
        apply in_or_app. now left.
      * intros Hall. exfalso.
        assert (Hnone : FetchPlan.first_ok (FetchPlan.outcomes w url) = None).
        { apply first_ok_None_all. rewrite Hlen. intros j Hj.
          destruct (Hall j Hj) as [e He]. exists e.
          rewrite FetchFacts.outcomes_nth by exact Hj. now rewrite He. }
        congruence.
  - split; [| split].
    + rewrite filter_app, length_app, Hgets. simpl. lia.
    + rewrite total_sleep_app, Hsleep. simpl. lra.
    + split.
      * intros _ j Hj.
        destruct (proj1 (first_ok_None_all _) E j) as [e He];
          [now rewrite Hlen |].
        rewrite FetchFacts.outcomes_nth in He by exact Hj.
        exists e. now inversion He.
      * intros _. apply in_or_app. right. now left.
Qed.

(** X6: the fetch helper never returns empty bytes: whatever it returns was
    a non-empty body, of a request or of the fallback. *)
Theorem fetch_returns_nonempty (w : World) (url : string) (c : string) :
  Fetch._fetch_image_bytes_with_headers w url = Ok c -> c <> "".
Proof.
  unfold Fetch._fetch_image_bytes_with_headers.
  rewrite FetchFacts.fetch_traced_spec.
  destruct (FetchPlan.first_ok (FetchPlan.outcomes w url)) as [[n c'] |] eqn:E;
    cbn [fst].
  - intros H. inversion H; subst c'.
    apply first_ok_In in E. unfold FetchPlan.outcomes in E.
    apply in_map_iff in E. destruct E as [k [Hk _]].
    unfold FetchPlan.outcome_at in Hk.
    apply FetchFacts.request_once_ok in Hk.
    destruct Hk as [r [_ [_ [_ Hne]]]]. exact Hne.
  - unfold Fetch.urllib_fallback.
    destruct (urlparse_netloc w url) as [host | cls msg]; simpl;
      [| discriminate].
    destruct (urlopen_read w url _) as [body | cls msg]; simpl;
      [| discriminate].
    destruct (Str.nonempty body) eqn:Hn; [| discriminate].
    intros H. inversion H; subst. now apply nonempty_true.
Qed.

Lemma fetch_returns_nonempty_witness : "abcd" <> "".
Proof.
  exact (fetch_returns_nonempty FetchPlan.refuses_first_profile
           "https://cdn.example.com/a.png" "abcd" eq_refl).
Defined.

(** ** Opening an image *)

Lemma open_image_unfold (w : World) (value : string) :
  _open_image_from_url_or_path w value
  = (raw <- acquire_raw w value ;;
     match convert_by_mode w raw with
     | Ok img => Ok img
     | Raise _ => call (convert_rgb w raw)
     end).
Proof. reflexivity. Qed.

(** X7: an image that was fetched or read is returned whenever its plain
    RGB conversion works, also when the palette or alpha handling raises;
    [_open_image_from_url_or_path] raises only what the acquisition raised
    or what the plain RGB conversion raised. *)
Theorem open_image_conversion_fallback (w : World) (value : string) :
  (forall raw img,
     acquire_raw w value = Ok raw ->
     convert_rgb w raw = Returns img ->
     exists img', _open_image_from_url_or_path w value = Ok img')
  /\ (forall e,
        _open_image_from_url_or_path w value = Raise e ->
        acquire_raw w value = Raise e
        \/ exists raw,
             acquire_raw w value = Ok raw
             /\ call (convert_rgb w raw) = Raise e).
Proof.
  rewrite open_image_unfold. split.
  - intros raw img Hraw Hrgb. rewrite Hraw. simpl.
    destruct (convert_by_mode w raw) as [img0 | e0]; [eauto |].
    rewrite Hrgb. simpl. eauto.
  - intros e. destruct (acquire_raw w value) as [raw | e0]; simpl.
    + intros H. right. exists raw. split; [reflexivity |].
      unfold convert_by_mode in H.
      destruct (mode w raw =? "P").
      * destruct (call (convert_palette w raw)); [discriminate | exact H].
      * destruct (Str.mem (mode w raw) ["RGBA"; "LA"]).
        -- destruct (call (composite_on_white w raw));
             [discriminate | exact H].
        -- destruct (call (convert_rgb w raw)) eqn:E;
             [discriminate | exact H].
    + intros H. left. inversion H. reflexivity.
Qed.

Lemma open_image_conversion_fallback_witness :
  exists img, _open_image_from_url_or_path palette_breaks " red.png " = Ok img.
Proof.
  exact (proj1 (open_image_conversion_fallback palette_breaks " red.png ")
           "red.png" "red.png" eq_refl eq_refl).
Defined.

(** ** What the items of a response are *)

Lemma find_index_spec {A : Type} (f : A -> bool) (l : list A) (i : nat)
  (d : A) :
  find_index f l = Some i ->
  i < List.length l /\ f (nth i l d) = true
  /\ forall j, j < i -> f (nth j l d) = false.
Proof.
  revert i. induction l as [| x r IH]; simpl; intros i H; [discriminate |].
  destruct (f x) eqn:E.
  - inversion H; subst. repeat split; [lia | exact E | intros j Hj; lia].
  - destruct (find_index f r) as [k |]; [| discriminate].
    inversion H; subst. destruct (IH k eq_refl) as [H1 [H2 H3]].
    repeat split; [lia | exact H2 |].
    intros [| j] Hj; [exact E | apply H3; lia].
Qed.

Section ItemFacts.

Variable w : World.

(** Everything a loop that returns has appended is the payload of a
    position of the ranking. *)
Lemma rank_loop_adds (d : DataFrame) (id_list : list string) (sims : list Q)
  (m : Q) (k : Z) (order : list nat) :
  forall results r,
    rank_loop w d id_list sims m k order results = Ok r ->
    exists added,
      r = results ++ added
      /\ Forall (fun p => exists idx,
                   In idx order
                   /\ candidate w d id_list sims m idx = Some p) added.
Proof.
  induction order as [| idx rest IH]; intros results r H; simpl in H.
  - inversion H. exists []. now rewrite app_nil_r.
  - assert (Hrest : forall results' r',
              rank_loop w d id_list sims m k rest results' = Ok r' ->
              exists added,
                r' = results' ++ added
                /\ Forall (fun p => exists i,
                             In i (idx :: rest)
                             /\ candidate w d id_list sims m i = Some p)
                          added).
    { intros results' r' H'. destruct (IH results' r' H') as [added [E F]].
      exists added. split; [exact E |].
      eapply Forall_impl; [| exact F].
      intros p [i [Hi Hc]]. exists i. split; [now right | exact Hc]. }
    destruct (nth_error sims idx) as [score |] eqn:Es; [| discriminate].
    destruct (Qltb score m) eqn:Eq; [now apply Hrest |].
    destruct (nth_error id_list idx) as [pid |] eqn:Ei; [| discriminate].
    destruct (lookup_row d pid) as [[row |] | e] eqn:El; [| | discriminate].
    + destruct (_row_to_payload w row (Some score)) as [p | e] eqn:Ep;
        [| discriminate].
      assert (Hc : candidate w d id_list sims m idx = Some p)
        by (unfold candidate; now rewrite Es, Eq, Ei, El, Ep).
      destruct (k <=? Z.of_nat (List.length (results ++ [p])))%Z.
      * inversion H; subst. exists [p]. split; [reflexivity |].
        constructor; [| constructor]. exists idx. split; [now left | exact Hc].
      * destruct (Hrest _ _ H) as [added [E F]].
        exists (p :: added). split; [now rewrite E, <- app_assoc |].
        constructor; [| exact F]. exists idx. split; [now left | exact Hc].
    + destruct (k <=? Z.of_nat (List.length results))%Z.
      * inversion H; subst. exists []. now rewrite app_nil_r.
      * now apply Hrest.
Qed.

(** What it takes for a position to contribute a payload. *)
Lemma candidate_inv (d : DataFrame) (id_list : list string) (sims : list Q)
  (m : Q) (idx : nat) (p : Payload) :
  candidate w d id_list sims m idx = Some p ->
  exists score col i,
    nth_error sims idx = Some score
    /\ (m <= score)%Q
    /\ nth_error id_list idx = Some (p_id p)
    /\ DF.get_col_opt "id" d = Some col
    /\ find_index (String.eqb (p_id p)) col = Some i
    /\ p_score p = Some score
    /\ p_image_url p = match DF.row_get "image_url" (DF.row_at i d) with
                       | Some u => u
                       | None => ""
                       end.
Proof.
  unfold candidate.
  destruct (nth_error sims idx) as [score |] eqn:Es; [| discriminate].
  destruct (Qltb score m) eqn:Eq; [discriminate |].
  destruct (nth_error id_list idx) as [pid |] eqn:Ei; [| discriminate].
  unfold lookup_row.
  destruct (DF.get_col_opt "id" d) as [col |] eqn:Ec; [| discriminate].
  destruct (find_index (String.eqb pid) col) as [i |] eqn:Ef; simpl;
    [| discriminate].
  unfold _row_to_payload. rewrite (row_get_row_at "id" i d col Ec).
  intros H. inversion H; subst; clear H. simpl.
  destruct (find_index_spec _ _ _ "" Ef) as [_ [Heq _]].
  apply String.eqb_eq in Heq. rewrite <- Heq.
  exists score, col, i. repeat split; try assumption; try reflexivity.
  unfold Qltb in Eq. apply negb_false_iff in Eq. now apply Qle_bool_iff.
Qed.

(** X8: whatever [top_k] is, every item of a response scores at least
    [min_similarity], carries the id of an entry of the published index and
    of a row of the published table, and the [count] field is the number of
    items. *)
Theorem search_items_sound (st : State) (url : option string) (k : Z)
  (m : Q) (file : option Upload) (resp : SearchResponse) :
  search w st url k m file = Ok resp ->
  n_items resp = List.length (items resp)
  /\ exists d,
       df st = Some d
       /\ Forall (fun p =>
                    (exists score,
                       p_score p = Some score /\ (m <= score)%Q)
                    /\ In (p_id p) (ids st)
                    /\ In (p_id p) (DF.get_col "id" d))
                 (items resp).
Proof.
  intros H.
  destruct (search_ok_inv w st url k m file resp H)
    as [mtx [d [qm [qvec [sims [He [Hd [Hq [Hv [Hmv [Hrk [Hn _]]]]]]]]]]]].
  split; [exact Hn |]. exists d. split; [exact Hd |].
  destruct (rank_loop_adds _ _ _ _ _ _ _ _ Hrk) as [added [E F]].
  simpl in E. rewrite E.
  eapply Forall_impl; [| exact F].
  intros p [idx [_ Hc]].
  destruct (candidate_inv _ _ _ _ _ _ Hc)
    as [score [col [i [Hs [Hm [Hi [Hcol [Hf [Hp _]]]]]]]]].
  split; [eauto |]. split.
  - eapply nth_error_In. exact Hi.
  - unfold DF.get_col. rewrite Hcol.
    destruct (find_index_spec _ _ _ "" Hf) as [Hlt [Heq _]].
    apply String.eqb_eq in Heq. rewrite Heq. now apply nth_In.
Qed.

(** X9: asking for more never changes what comes first: for
    [1 <= k <= k'], the items returned for [top_k = k] are the first [k]
    items returned for [top_k = k']. *)
Theorem search_top_k_prefix (st : State) (url : option string) (k k' : Z)
  (m : Q) (file : option Upload) (resp resp' : SearchResponse) :
  (1 <= k)%Z -> (k <= k')%Z ->
  search w st url k m file = Ok resp ->
  search w st url k' m file = Ok resp' ->
  items resp = firstn (Z.to_nat k) (items resp').
Proof.
  intros Hk Hkk H H'.
  destruct (search_ok_inv w st url k m file resp H)
    as [mtx [d [qm [qvec [sims [He [Hd [Hq [Hv [Hmv [Hrk _]]]]]]]]]]].
  destruct (search_ok_inv w st url k' m file resp' H')
    as [mtx' [d' [qm' [qvec' [sims' [He' [Hd' [Hq' [Hv' [Hmv' [Hrk' _]]]]]]]]]]].
  rewrite He in He'. rewrite Hd in Hd'. rewrite Hq in Hq'.
  inversion He'. inversion Hd'. inversion Hq'. subst mtx' d' qm'.
  rewrite Hv in Hv'. inversion Hv'. subst qvec'.
  rewrite Hmv in Hmv'. inversion Hmv'. subst sims'.
  apply rank_loop_returns in Hrk; [| simpl; lia].
  apply rank_loop_returns in Hrk'; [| simpl; lia].
  simpl in Hrk, Hrk'. rewrite Nat.sub_0_r in Hrk, Hrk'.
  rewrite Hrk, Hrk', firstn_firstn. f_equal. lia.
Qed.

End ItemFacts.

Lemma search_items_sound_witness :
  exists resp,
    search demo_world built_abcd (Some "red.png") 2 (1 # 2) None = Ok resp
    /\ n_items resp = List.length (items resp).
Proof.
  destruct (search demo_world built_abcd (Some "red.png") 2 (1 # 2) None)
    as [resp | e] eqn:E.
  - exists resp. split; [reflexivity |].
    exact (proj1 (search_items_sound demo_world built_abcd (Some "red.png")
                    2 (1 # 2) None resp E)).
  - vm_compute in E. discriminate.
Defined.

Lemma search_top_k_prefix_witness :
  exists resp resp',
    search demo_world built_abcd (Some "red.png") 1 0 None = Ok resp
    /\ search demo_world built_abcd (Some "red.png") 3 0 None = Ok resp'
    /\ items resp = firstn 1 (items resp').
Proof.
  destruct (search demo_world built_abcd (Some "red.png") 1 0 None)
    as [resp | e] eqn:E; [| vm_compute in E; discriminate].
  destruct (search demo_world built_abcd (Some "red.png") 3 0 None)
    as [resp' | e] eqn:E'; [| vm_compute in E'; discriminate].
  exists resp, resp'. repeat split.
  exact (search_top_k_prefix demo_world built_abcd (Some "red.png") 1 3 0 None
           resp resp' ltac:(lia) ltac:(lia) E E').
Defined.

(** ** The errors of [search] and the choice of the query image *)

Section SearchErrors.

Variable w : World.

(** X10: [search] raises one of four HTTP errors (index not built, 400;
    [min_similarity] out of range, 422; no query image given, 422; query
    image could not be loaded, 400) or lets a library exception through;
    so the status of every HTTP error it raises is 400 or 422. A failure of
    the extractor on a query image that loaded is not turned into an HTTP
    error: it escapes as it was thrown. *)
Theorem search_error_kinds (st : State) (url : option string) (k : Z)
  (m : Q) (file : option Upload) :
  (forall e,
     search w st url k m file = Raise e ->
     e = not_ready \/ e = bad_min_similarity \/ e = no_query_image
     \/ (exists e', e = query_image_failed e')
     \/ (exists c msg, e = Exception c msg))
  /\ (forall s d,
        search w st url k m file = Raise (HTTPException s d) ->
        s = 400%Z \/ s = 422%Z)
  /\ (forall qm c msg,
        index_ready st = true -> in_unit_interval m = true ->
        load_query_image w file url = Ok qm ->
        clip_features w (fst qm) = Throws c msg ->
        search w st url k m file = Raise (Exception c msg)).
Proof.
  assert (Hkinds : forall e,
    search w st url k m file = Raise e ->
    e = not_ready \/ e = bad_min_similarity \/ e = no_query_image
    \/ (exists e', e = query_image_failed e')
    \/ (exists c msg, e = Exception c msg)).
  { intros e H.
    destruct (index_ready st) eqn:Hr;
      [| rewrite (search_not_ready w st url k m file Hr) in H;
         inversion H; auto].
    destruct (in_unit_interval m) eqn:Hm;
      [| rewrite (search_bad_min_similarity w st url k m file Hr Hm) in H;
         inversion H; auto].
    destruct (search_body w st url k m file Hr Hm) as [mtx [d [_ [_ [_ Hb]]]]].
    rewrite Hb in H. clear Hb.
    destruct (load_query_image w file url) as [qm | e1] eqn:E1; simpl in H.
    - destruct (_img_to_vec w (fst qm)) as [qvec | e2] eqn:E2; simpl in H.
      + destruct (matvec w mtx qvec) as [sims | c0 msg0]; simpl in H;
          [| inversion H; eauto 10].
        destruct (rank_loop _ _ _ _ _ _ _ _) as [res | e3] eqn:E3;
          simpl in H; [discriminate |].
        inversion H; subst.
        destruct (rank_loop_raises _ _ _ _ _ _ _ _ _ E3) as [c [msg ->]].
        eauto 10.
      + inversion H; subst.
        destruct (img_to_vec_raises _ _ _ E2) as [c [msg ->]]. eauto 10.
    - inversion H; subst.
      destruct (load_query_image_raises _ _ _ _ E1) as [-> | [e' ->]];
        eauto 10. }
  split; [exact Hkinds |]. split.
  - intros s d H. destruct (Hkinds _ H) as [E | [E | [E | [[e' E] | [c [msg E]]]]]];
      inversion E; auto.
  - intros qm c msg Hr Hm Hq Hc.
    destruct (search_body w st url k m file Hr Hm) as [mtx [d [_ [_ [_ Hb]]]]].
    rewrite Hb, Hq. simpl. unfold _img_to_vec. rewrite Hc. reflexivity.
Qed.

Lemma load_query_image_upload_first (f : Upload) (url : option string) :
  filename f <> "" ->
  load_query_image w (Some f) url = load_query_image w (Some f) None.
Proof.
  intros Hne. unfold load_query_image.
  assert (Hn : Str.nonempty (filename f) = true).
  { unfold Str.nonempty. apply negb_true_iff. now apply String.eqb_neq. }
  now rewrite Hn.
Qed.

Lemma load_query_image_unnamed_upload (f : Upload) (url : option string) :
  filename f = "" ->
  load_query_image w (Some f) url = load_query_image w None url.
Proof. intros He. unfold load_query_image. now rewrite He. Qed.

Lemma search_depends_on_query_image (st : State) (url url' : option string)
  (k : Z) (m : Q) (file file' : option Upload) :
  load_query_image w file url = load_query_image w file' url' ->
  search w st url k m file = search w st url' k m file'.
Proof. intros H. unfold search. now rewrite H. Qed.

(** X11: an upload with a file name is the query image, and [image_url] is
    then not looked at; an upload without a file name counts as no upload;
    with neither an upload nor a non-empty [image_url] a ready index answers
    with the 422 that asks for one of them. *)
Theorem search_upload_takes_precedence (st : State) (url : option string)
  (k : Z) (m : Q) (f : Upload) :
  (filename f <> "" ->
   search w st url k m (Some f) = search w st None k m (Some f))
  /\ (filename f = "" ->
      search w st url k m (Some f) = search w st url k m None)
  /\ (index_ready st = true -> in_unit_interval m = true ->
      url = None \/ url = Some "" ->
      search w st url k m None = Raise no_query_image).
Proof.
  split; [| split].
  - intros H. apply search_depends_on_query_image.
    now apply load_query_image_upload_first.
  - intros H. apply search_depends_on_query_image.
    now apply load_query_image_unnamed_upload.
  - intros Hr Hm Hu.
    destruct (search_body w st url k m None Hr Hm) as [mtx [d [_ [_ [_ Hb]]]]].
    rewrite Hb. destruct Hu as [-> | ->]; reflexivity.
Qed.

End SearchErrors.

Example extractor_failure_escapes_search :
  search extractor_breaks built_abcd (Some "red.png") 3 0 None
  = Raise (Exception "RuntimeError" "CUDA out of memory")
  /\ search demo_world built_abcd (Some "missing.png") 3 0 None
     = Raise (query_image_failed
                (Exception "FileNotFoundError"
                           "Local image not found: missing.png")).
Proof. split; vm_compute; reflexivity. Qed.

Lemma search_upload_takes_precedence_witness :
  search demo_world built_abcd (Some "missing.png") 3 0
    (Some (mkUpload "query.png" "red.png"))
  = search demo_world built_abcd None 3 0
      (Some (mkUpload "query.png" "red.png")).
Proof.
  apply (proj1 (search_upload_takes_precedence demo_world built_abcd
                  (Some "missing.png") 3 0 (mkUpload "query.png" "red.png"))).
  discriminate.
Defined.

(** ** Startup, restart and the health report *)

Lemma iterrows_length (d : DataFrame) :
  List.length (DF.iterrows d) = DF.nrows d.
Proof. unfold DF.iterrows. now rewrite length_map, length_seq. Qed.

Lemma rank_loop_without_ids (w : World) (d : DataFrame) (sims : list Q)
  (m : Q) (k : Z) (order : list nat) (acc r : list Payload) :
  rank_loop w d [] sims m k order acc = Ok r -> r = acc.
Proof.
  revert acc. induction order as [| idx rest IH]; intros acc H; simpl in H.
  - now inversion H.
  - destruct (nth_error sims idx) as [score |]; [| discriminate].
    destruct (Qltb score m).
    + now apply IH.
    + destruct idx; discriminate.
Qed.

Section Startup.

Variable w : World.

(** A build looks at the three files only: started from other globals it
    returns or raises the same, leaves the same files, and, when it raises,
    leaves those globals. *)
Lemma build_from_other_globals (d : option DataFrame) (e : option Matrix)
  (l : list string) (st : State) :
  let st0 := mkState d e l (csv st) (index_npy st) (ids_json st) in
  fst (_build_index_from_csv w st0) = fst (_build_index_from_csv w st)
  /\ (forall info,
        fst (_build_index_from_csv w st) = Ok info ->
        snd (_build_index_from_csv w st0) = snd (_build_index_from_csv w st))
  /\ (forall ex,
        fst (_build_index_from_csv w st) = Raise ex ->
        snd (_build_index_from_csv w st0)
        = mkState d e l (csv st)
            (index_npy (snd (_build_index_from_csv w st)))
            (ids_json (snd (_build_index_from_csv w st)))).
Proof.
  intros st0.
  assert (Hp : build_prepare w st0 = build_prepare w st) by reflexivity.
  unfold _build_index_from_csv, build_run. rewrite Hp.
  destruct (build_prepare w st) as [[[[dframe m] ls] n] | e'].
  - cbn [index_npy ids_json st0 set_index_npy].
    destruct (np_save w (index_npy st) m) as [| c msg f].
    + destruct (write_text w (ids_json st) ls) as [| c msg f];
        cbn; repeat split; intros; try discriminate; reflexivity.
    + cbn. repeat split; intros; try discriminate; reflexivity.
  - cbn. repeat split; intros; try discriminate; reflexivity.
Qed.

(** X12: a process restarted over the files a successful build left comes up
    in exactly the state the build published (same product table, matrix and
    ids, files untouched) and does so by loading, without indexing again. *)
Theorem restart_after_build_reloads (st : State) (info : Summary) :
  fst (_build_index_from_csv w st) = Ok info ->
  let st' := snd (_build_index_from_csv w st) in
  on_startup w (restart st') = st'
  /\ load_existing (set_df (df st') (restart st')) = (st', true).
Proof.
  intros Hok st'. subst st'.
  destruct (build_success_inv w st info Hok)
    as [dframe [m [l [n [_ [Hload [_ [_ [_ [_ [_ [_ [Hs _]]]]]]]]]]]]].
  rewrite Hs.
  unfold on_startup, restart, initial_state, set_df, load_existing.
  cbn [df embeddings ids csv index_npy ids_json]. rewrite Hload.
  split; reflexivity.
Qed.

(** X13: after a successful build the health report adds up with the
    summary the build returned: [rows] is [count + skipped], [indexed] is
    [count] and is positive, and all three files are reported present. *)
Theorem health_after_build (st : State) (info : Summary) :
  fst (_build_index_from_csv w st) = Ok info ->
  let h := health (snd (_build_index_from_csv w st)) in
  h_rows h = count info + skipped info
  /\ h_indexed h = count info
  /\ 0 < h_indexed h
  /\ h_csv_exists h = true
  /\ h_index_exists h = true
  /\ h_ids_exists h = true.
Proof.
  intros Hok h. subst h.
  destruct (build_success_inv w st info Hok)
    as [dframe [m [l [n [Hprep [Hload [Hm [Hl [Hn [Hinfo [_ [_ [Hs _]]]]]]]]]]]]].
  rewrite Hs. unfold health. cbn [df embeddings csv index_npy ids_json is_some].
  destruct (load_has_columns _ _ _ Hload) as [Hid _].
  pose proof (built_count w dframe Hid) as Hcount.
  pose proof (filter_partition_length (row_built w) (DF.iterrows dframe))
    as Hpart.
  rewrite iterrows_length in Hpart.
  assert (Hpos : 0 < List.length (flat_map (row_entry w) (DF.iterrows dframe))).
  { pose proof (build_prepare_spec w st dframe Hload) as Hspec.
    rewrite Hprep in Hspec.
    destruct (flat_map (row_entry w) (DF.iterrows dframe));
      [discriminate | simpl; lia]. }
  assert (Hcsv : is_some (csv st) = true).
  { unfold _load_csv_filtered in Hload.
    destruct (csv st); [reflexivity | discriminate]. }
  subst info m l n. cbn [count skipped]. rewrite !length_map.
  cbn [h_rows h_indexed h_csv_exists h_index_exists h_ids_exists].
  split; [lia |]. split; [reflexivity |]. split; [exact Hpos |].
  split; [exact Hcsv |]. split; reflexivity.
Qed.

(** What startup does when the load of an index does not reach its
    [return]. *)
Lemma startup_builds (st : State) :
  snd (load_existing
         (set_df (match _load_csv_filtered (stem w) (csv st) with
                  | Ok d => Some d
                  | Raise _ => None
                  end) st)) = false ->
  on_startup w st
  = snd (_build_index_from_csv w
           (fst (load_existing
                   (set_df (match _load_csv_filtered (stem w) (csv st) with
                            | Ok d => Some d
                            | Raise _ => None
                            end) st)))).
Proof.
  unfold on_startup. destruct (load_existing _) as [st2 [|]]; cbn [fst snd].
  - discriminate.
  - reflexivity.
Qed.

(** X14: a fresh process that finds no loadable pair of index files builds
    instead. If the build succeeds, startup ends in the state of that build.
    If an index file is missing or unreadable and the build fails, startup
    publishes at most the product table, the two files are as the failed
    build left them (as they were when it failed before its writes), and
    every search is answered with the 400 that says the index is not
    built. *)
Theorem startup_without_index (c : csv_file)
  (i : option (lib_result Matrix)) (j : option (lib_result ids_artifact)) :
  let st := initial_state c i j in
  (forall m l, ~ (i = Some (Returns m) /\ j = Some (Returns (IdsItems l)))) ->
  (forall info,
     fst (_build_index_from_csv w st) = Ok info ->
     on_startup w st = snd (_build_index_from_csv w st))
  /\ (forall e,
        fst (_build_index_from_csv w st) = Raise e ->
        (forall m, ~ (i = Some (Returns m) /\ j = Some (Returns IdsScalar))) ->
        embeddings (on_startup w st) = None
        /\ ids (on_startup w st) = []
        /\ artifacts (on_startup w st)
           = artifacts (snd (_build_index_from_csv w st))
        /\ (build_prepare w st = Raise e ->
            artifacts (on_startup w st) = (i, j))
        /\ forall url k mn file,
             search w (on_startup w st) url k mn file = Raise not_ready).
Proof.
  intros st Hno.
  set (o := match _load_csv_filtered (stem w) (csv st) with
            | Ok d => Some d
            | Raise _ => None
            end).
  assert (Hstart : (exists m, i = Some (Returns m)
                              /\ j = Some (Returns IdsScalar))
                   \/ on_startup w st
                      = snd (_build_index_from_csv w
                               (mkState o None [] (csv st) (index_npy st)
                                        (ids_json st)))).
  { destruct i as [[m | ci mi] |]; destruct j as [[[l | ] | cj mj] |];
      try (right; reflexivity).
    - elim (Hno m l). split; reflexivity.
    - left. exists m. split; reflexivity. }
  split.
  - intros info Hok.
    destruct (build_from_other_globals o None [] st) as [_ [Hsame _]].
    destruct (build_from_other_globals o (embeddings
                (fst (load_existing (set_df o st)))) [] st) as [_ [Hsame' _]].
    destruct Hstart as [[m [-> ->]] | ->].
    + rewrite <- (Hsame' info Hok). reflexivity.
    + exact (Hsame info Hok).
  - intros e Hfail Hns.
    destruct Hstart as [[m [Hi Hj]] | Hst]; [elim (Hns m); split; assumption |].
    destruct (build_from_other_globals o None [] st) as [_ [_ Hother]].
    rewrite Hst, (Hother e Hfail).
    cbn [embeddings ids artifacts index_npy ids_json].
    split; [reflexivity |]. split; [reflexivity |].
    split; [reflexivity |]. split.
    + intros Hp. unfold _build_index_from_csv.
      rewrite (build_run_unprepared w st e Hp). reflexivity.
    + intros url k mn file. apply search_not_ready. reflexivity.
Qed.

(** X15: an [ids.json] that holds a value that cannot be iterated stops the
    load after the matrix was published. If the build that follows fails as
    well, a fresh process comes up with the loaded matrix and no ids, the
    two files being as the failed build left them (as they were when it
    failed before its writes): with a table and a non-empty matrix the index
    counts as ready, and no search can return an item. *)
Theorem startup_scalar_ids_half_loads (c : csv_file) (m : Matrix) (e : exn) :
  let st := initial_state c (Some (Returns m)) (Some (Returns IdsScalar)) in
  fst (_build_index_from_csv w st) = Raise e ->
  embeddings (on_startup w st) = Some m
  /\ ids (on_startup w st) = []
  /\ artifacts (on_startup w st) = artifacts (snd (_build_index_from_csv w st))
  /\ (build_prepare w st = Raise e ->
      artifacts (on_startup w st) = artifacts st)
  /\ (forall d,
        _load_csv_filtered (stem w) c = Ok d -> m <> [] ->
        index_ready (on_startup w st) = true
        /\ forall url k mn file resp,
             search w (on_startup w st) url k mn file = Ok resp ->
             items resp = []).
Proof.
  intros st Hfail.
  set (o := match _load_csv_filtered (stem w) c with
            | Ok d => Some d
            | Raise _ => None
            end).
  assert (Hst : on_startup w st
                = mkState o (Some m) [] c
                    (index_npy (snd (_build_index_from_csv w st)))
                    (ids_json (snd (_build_index_from_csv w st)))).
  { destruct (build_from_other_globals o (Some m) [] st) as [_ [_ Hother]].
    etransitivity; [| exact (Hother e Hfail)]. reflexivity. }
  rewrite Hst. cbn [embeddings ids artifacts index_npy ids_json].
  do 3 (split; [reflexivity |]).
  split.
  { intros Hp. unfold _build_index_from_csv.
    rewrite (build_run_unprepared w st e Hp). reflexivity. }
  intros d Hd Hm. unfold o. rewrite Hd.
  set (s := mkState (Some d) (Some m) [] c
              (index_npy (snd (_build_index_from_csv w st)))
              (ids_json (snd (_build_index_from_csv w st)))).
  assert (Hr : index_ready s = true).
  { unfold index_ready, s. cbn. destruct m; [now elim Hm | reflexivity]. }
  split; [exact Hr |].
  intros url k mn file resp H.
  destruct (search_ok_inv w s url k mn file resp H)
    as [mtx [d' [qm [qvec [sims [_ [_ [_ [_ [_ [Hrk _]]]]]]]]]]].
  cbn [ids s] in Hrk. now apply rank_loop_without_ids in Hrk.
Qed.

End Startup.

Lemma restart_after_build_reloads_witness :
  on_startup demo_world (restart built_abcd) = built_abcd.
Proof.
  destruct (fst (_build_index_from_csv demo_world (fresh catalog_abcd)))
    as [info | e] eqn:E.
  - exact (proj1 (restart_after_build_reloads demo_world (fresh catalog_abcd)
                    info E)).
  - vm_compute in E. discriminate.
Defined.

Lemma health_after_build_witness :
  h_rows (health built_abcd) = 3 + 1 /\ h_indexed (health built_abcd) = 3.
Proof.
  assert (E : fst (_build_index_from_csv demo_world (fresh catalog_abcd))
              = Ok (mkSummary "index built" 3 1))
    by (vm_compute; reflexivity).
  destruct (health_after_build demo_world (fresh catalog_abcd) _ E)
    as [Hrows [Hidx _]].
  split; [exact Hrows | exact Hidx].
Defined.

Lemma startup_without_index_witness :
  search demo_world (on_startup demo_world (fresh catalog_broken))
         (Some "red.png") 3 0 None
  = Raise not_ready.
Proof.
  assert (Hno : forall (m : Matrix) (l : list string),
            ~ (@None (lib_result Matrix) = Some (Returns m)
               /\ @None (lib_result ids_artifact) = Some (Returns (IdsItems l))))
    by (intros m l [H _]; discriminate).
  assert (E : fst (_build_index_from_csv demo_world (fresh catalog_broken))
              = Raise empty_index_error)
    by (vm_compute; reflexivity).
  assert (Hns : forall m : Matrix,
            ~ (@None (lib_result Matrix) = Some (Returns m)
               /\ @None (lib_result ids_artifact) = Some (Returns IdsScalar)))
    by (intros m [H _]; discriminate).
  exact (proj2 (proj2 (proj2 (proj2
           (proj2 (startup_without_index demo_world
                     (Some (Returns catalog_broken)) None None Hno)
                  empty_index_error E Hns)))) (Some "red.png") 3%Z 0%Q None).
Defined.

Lemma startup_scalar_ids_half_loads_witness :
  embeddings (on_startup demo_world disk_scalar_ids)
  = Some [[1; 0]%Q; [0; 1]%Q]
  /\ ids (on_startup demo_world disk_scalar_ids) = [].
Proof.
  assert (E : fst (_build_index_from_csv demo_world disk_scalar_ids)
              = Raise empty_index_error)
    by (vm_compute; reflexivity).
  destruct (startup_scalar_ids_half_loads demo_world
              (Some (Returns catalog_broken)) [[1; 0]%Q; [0; 1]%Q]
              empty_index_error E) as [Hm [Hi _]].
  split; [exact Hm | exact Hi].
Defined.

Example half_loaded_index_breaks_search :
  index_ready (on_startup demo_world disk_scalar_ids) = true
  /\ search demo_world (on_startup demo_world disk_scalar_ids)
            (Some "red.png") 3 0 None
     = Raise index_error.
Proof. split; vm_compute; reflexivity. Qed.

(** ** CORS origins *)

Module CorsFacts.

Import Cors.

Lemma lstrip_clean (l : list ascii) : clean_head (Str.lstrip_chars l).
Proof.
  induction l as [| c r IH]; simpl; [exact I |].
  destruct (Str.is_space c) eqn:E; [exact IH | exact E].
Qed.

Lemma lstrip_fixed (l : list ascii) :
  clean_head l -> Str.lstrip_chars l = l.
Proof. destruct l as [| c r]; simpl; [reflexivity |]. now intros ->. Qed.

Lemma lstrip_suffix (l : list ascii) :
  exists sp, l = sp ++ Str.lstrip_chars l.
Proof.
  induction l as [| c r [sp IH]]; simpl; [now exists [] |].
  destruct (Str.is_space c).
  - exists (c :: sp). simpl. now rewrite <- IH.
  - now exists [].
Qed.

Lemma lstrip_In (c : ascii) (l : list ascii) :
  In c (Str.lstrip_chars l) -> In c l.
Proof.
  destruct (lstrip_suffix l) as [sp E]. intros H. rewrite E.
  apply in_or_app. now right.
Qed.

Lemma clean_head_rev_lstrip_rev (a : list ascii) :
  clean_head a -> clean_head (rev (Str.lstrip_chars (rev a))).
Proof.
  intros Ha. destruct (lstrip_suffix (rev a)) as [sp E].
  assert (Ea : a = rev (Str.lstrip_chars (rev a)) ++ rev sp).
  { rewrite <- rev_app_distr, <- E. now rewrite rev_involutive. }
  destruct (rev (Str.lstrip_chars (rev a))) as [| c r]; [exact I |].
  rewrite Ea in Ha. exact Ha.
Qed.

Lemma strip_chars_clean (l : list ascii) :
  clean_head (Str.strip_chars l) /\ clean_head (rev (Str.strip_chars l)).
Proof.
  unfold Str.strip_chars. split.
  - apply clean_head_rev_lstrip_rev, lstrip_clean.
  - rewrite rev_involutive. apply lstrip_clean.
Qed.

Lemma strip_chars_idempotent (l : list ascii) :
  Str.strip_chars (Str.strip_chars l) = Str.strip_chars l.
Proof.
  destruct (strip_chars_clean l) as [H1 H2].
  unfold Str.strip_chars at 1.
  rewrite (lstrip_fixed _ H1), (lstrip_fixed _ H2).
  apply rev_involutive.
Qed.

Lemma strip_chars_In (c : ascii) (l : list ascii) :
  In c (Str.strip_chars l) -> In c l.
Proof.
  unfold Str.strip_chars. intros H.
  apply in_rev in H. apply lstrip_In in H. apply in_rev in H.
  now apply lstrip_In.
Qed.

Lemma strip_idempotent (s : string) : Str.strip (Str.strip s) = Str.strip s.
Proof.
  unfold Str.strip. rewrite list_ascii_of_string_of_list_ascii.
  now rewrite strip_chars_idempotent.
Qed.

Lemma strip_In (c : ascii) (s : string) :
  In c (list_ascii_of_string (Str.strip s)) ->
  In c (list_ascii_of_string s).
Proof.
  unfold Str.strip. rewrite list_ascii_of_string_of_list_ascii.
  apply strip_chars_In.
Qed.

Lemma split_chars_no_sep (sep : ascii) (l cur : list ascii) :
  ~ In sep cur ->
  Forall (fun p => ~ In sep p) (split_chars sep l cur).
Proof.
  revert cur. induction l as [| c r IH]; intros cur Hcur; simpl.
  - constructor; [| constructor]. intros H. apply Hcur. now apply in_rev.
  - destruct (Ascii.eqb c sep) eqn:E.
    + constructor.
      * intros H. apply Hcur. now apply in_rev.
      * apply IH. intros [].
    + apply IH. intros [H | H]; [| now apply Hcur].
      subst c. now rewrite Ascii.eqb_refl in E.
Qed.

Lemma split_no_sep (sep : ascii) (s : string) :
  Forall (fun p => ~ In sep (list_ascii_of_string p)) (split sep s).
Proof.
  unfold split. rewrite Forall_map.
  eapply Forall_impl; [| apply (split_chars_no_sep sep _ []); intros []].
  intros p Hp. now rewrite list_ascii_of_string_of_list_ascii.
Qed.

End CorsFacts.

(** X17: the allowed origins. Without [CORS_ORIGINS], or with an empty one,
    they are the two local defaults. Otherwise they are the pieces of the
    value between commas, stripped, blank pieces left out: no origin in the
    list is empty, starts or ends with white space, or holds a comma; and a
    value made of commas and blanks only allows no origin at all rather
    than the defaults. *)
Theorem allow_origins_spec (env_origins : option string) :
  (env_origins = None \/ env_origins = Some "" ->
   Cors.allow_origins env_origins = Cors.default_origins)
  /\ (forall e,
        env_origins = Some e -> e <> "" ->
        Forall (fun o =>
                  o <> "" /\ Str.strip o = o
                  /\ ~ In ","%char (list_ascii_of_string o))
               (Cors.allow_origins env_origins)
        /\ (Forall (fun c => c = ","%char \/ Str.is_space c = true)
                   (list_ascii_of_string e) ->
            Cors.allow_origins env_origins = [])).
Proof.
  split.
  - intros [-> | ->]; reflexivity.
  - intros e -> Hne. unfold Cors.allow_origins.
    assert (Hn : Str.nonempty e = true).
    { unfold Str.nonempty. apply negb_true_iff. now apply String.eqb_neq. }
    rewrite Hn. split.
    + rewrite Forall_map.
      pose proof (CorsFacts.split_no_sep ","%char e) as Hsep.
      rewrite Forall_forall in Hsep. apply Forall_forall.
      intros o Ho. apply filter_In in Ho. destruct Ho as [Hin Hne'].
      split; [now apply nonempty_true |].
      split; [apply CorsFacts.strip_idempotent |].
      intros Hc. apply (Hsep o Hin). now apply CorsFacts.strip_In.
    + intros Hall.
      assert (Hblank : forall l cur,
                Forall (fun c => c = ","%char \/ Str.is_space c = true) l ->
                Forall (fun c => Str.is_space c = true) cur ->
                Forall (fun p => Forall (fun c => Str.is_space c = true) p)
                       (Cors.split_chars ","%char l cur)).
      { induction l as [| c r IH]; intros cur Hl Hcur; simpl.
        - constructor; [| constructor]. now apply Forall_rev.
        - inversion Hl as [| ? ? Hc Hr]; subst.
          destruct (Ascii.eqb c ","%char) eqn:E.
          + constructor; [now apply Forall_rev |].
            apply IH; [exact Hr | constructor].
          + apply IH; [exact Hr |]. constructor; [| exact Hcur].
            destruct Hc as [-> | Hc]; [discriminate | exact Hc]. }
      assert (Hstrip : forall p,
                Forall (fun c => Str.is_space c = true) p ->
                Str.lstrip_chars p = []).
      { induction p as [| c r IH]; intros Hp; [reflexivity |].
        inversion Hp; subst. simpl. rewrite H1. now apply IH. }
      unfold Cors.split.
      specialize (Hblank _ [] Hall (Forall_nil _)).
      induction Hblank as [| p ps Hp _ IH]; [reflexivity |].
      assert (Hp' : Str.nonempty (Str.strip (string_of_list_ascii p)) = false).
      { unfold Str.strip. rewrite list_ascii_of_string_of_list_ascii.
        unfold Str.strip_chars. now rewrite (Hstrip p Hp). }
      cbn [map filter]. rewrite Hp'. exact IH.
Qed.

Lemma allow_origins_spec_witness :
  Cors.allow_origins (Some " https://shop.example , ,http://localhost:3000")
  = ["https://shop.example"; "http://localhost:3000"]
  /\ Forall (fun o => o <> "" /\ Str.strip o = o
                      /\ ~ In ","%char (list_ascii_of_string o))
            (Cors.allow_origins
               (Some " https://shop.example , ,http://localhost:3000")).
Proof.
  split; [reflexivity |].
  apply (proj2 (allow_origins_spec
                  (Some " https://shop.example , ,http://localhost:3000"))
               " https://shop.example , ,http://localhost:3000" eq_refl).
  discriminate.
Defined.

Example only_commas_allow_nothing :
  Cors.allow_origins (Some ", ,") = []
  /\ Cors.allow_origins (Some "") = Cors.default_origins.
Proof. split; reflexivity. Qed.

(** ** The CSV validator and the service look for the same columns *)

Lemma detect_ok_image_like (d : DataFrame) (c : string) :
  _detect_image_column d = Ok c ->
  In c (DF.columns d) /\ image_like c = true.
Proof.
  intros H. split.
  - apply mem_In. exact (detect_returns_column d c H).
  - revert H. unfold _detect_image_column.
    destruct (find (fun pref => DF.has_col pref d) preferred_image_columns)
      as [pref |] eqn:Ef.
    + intros H. inversion H; subst. apply find_some in Ef.
      now apply preferred_are_image_like.
    + destruct (filter _ (DF.columns d)) as [| c0 r] eqn:Ec; [discriminate |].
      intros H. inversion H; subst.
      assert (Hin : In c (c :: r)) by now left.
      rewrite <- Ec in Hin. apply filter_In in Hin. exact (proj2 Hin).
Qed.

Lemma detect_raises_without_candidates (d : DataFrame) :
  (exists e, _detect_image_column d = Raise e)
  <-> filter image_like (DF.columns d) = [].
Proof.
  split.
  - intros [e He].
    destruct (filter image_like (DF.columns d)) as [| c0 r] eqn:Ec;
      [reflexivity |].
    exfalso. revert He. unfold _detect_image_column.
    destruct (find _ preferred_image_columns); [discriminate |].
    change (filter (fun c => existsb (fun k => Str.contains k (Str.lower c))
                                     image_keywords) (DF.columns d))
      with (filter image_like (DF.columns d)).
    rewrite Ec. discriminate.
  - intros Hnone.
    destruct (_detect_image_column d) as [c | e] eqn:E; [| eauto].
    destruct (detect_ok_image_like d c E) as [Hin Hl].
    assert (Hf : In c (filter image_like (DF.columns d)))
      by (apply filter_In; auto).
    rewrite Hnone in Hf. destruct Hf.
Qed.

Module ValidatorFacts.

Import ValidateImagesCsv.

Lemma fromkeys_In (x : string) (l seen : list string) :
  In x (fromkeys l seen) <-> In x l /\ ~ In x seen.
Proof.
  revert seen. induction l as [| y r IH]; intros seen; simpl; [tauto |].
  destruct (Str.mem y seen) eqn:E.
  - apply mem_In in E. rewrite IH. split.
    + tauto.
    + intros [[-> | H] Hn]; [contradiction | tauto].
  - assert (Hy : ~ In y seen).
    { intros H. apply mem_In in H. congruence. }
    simpl. rewrite IH. simpl. split.
    + intros [-> | [H Hn]]; [tauto |]. split; [tauto |]. tauto.
    + intros [[-> | H] Hn]; [tauto |].
      destruct (string_dec y x) as [-> | Hne]; [tauto |]. right. tauto.
Qed.

Lemma fromkeys_NoDup (l seen : list string) : NoDup (fromkeys l seen).
Proof.
  revert seen. induction l as [| y r IH]; intros seen; simpl; [constructor |].
  destruct (Str.mem y seen); [apply IH |].
  constructor; [| apply IH].
  rewrite fromkeys_In. simpl. tauto.
Qed.

Lemma add_named_nothing (headers : list string) (name : string) :
  image_like name = true ->
  add_named headers (filter image_like headers) name
  = filter image_like headers.
Proof.
  intros Hl. unfold add_named.
  destruct (Str.mem name headers) eqn:Eh; [| reflexivity].
  apply mem_In in Eh.
  assert (Hin : Str.mem name (filter image_like headers) = true).
  { apply mem_In. apply filter_In. auto. }
  now rewrite Hin.
Qed.

Lemma guess_image_columns_unfold (headers : list string) :
  guess_image_columns headers = fromkeys (filter image_like headers) [].
Proof.
  unfold guess_image_columns.
  change (filter (fun h => existsb (fun k => Str.contains k (Str.lower h))
                                   ["image"; "img"; "photo"; "picture"; "url"])
                 headers)
    with (filter image_like headers).
  cbn [fold_left].
  now rewrite !add_named_nothing by reflexivity.
Qed.

End ValidatorFacts.

(** X18: the validator's candidate columns are the headers whose lower-cased
    name holds one of the five keywords, each once, in header order; its
    second loop over four literal names never adds a column. On the headers
    of a frame the validator and the service agree: the column the service
    picks is among the candidates, and there is no candidate exactly when
    the service rejects the catalog for want of an image column. *)
Theorem guess_image_columns_spec (headers : list string) :
  ValidateImagesCsv.guess_image_columns headers
  = ValidateImagesCsv.fromkeys (filter image_like headers) []
  /\ NoDup (ValidateImagesCsv.guess_image_columns headers)
  /\ (forall h,
        In h (ValidateImagesCsv.guess_image_columns headers)
        <-> In h headers /\ image_like h = true)
  /\ (forall d c,
        DF.columns d = headers ->
        _detect_image_column d = Ok c ->
        In c (ValidateImagesCsv.guess_image_columns headers))
  /\ (forall d,
        DF.columns d = headers ->
        (ValidateImagesCsv.guess_image_columns headers = []
         <-> exists e, _detect_image_column d = Raise e)).
Proof.
  pose proof (ValidatorFacts.guess_image_columns_unfold headers) as Hg.
  assert (Hin : forall h,
            In h (ValidateImagesCsv.guess_image_columns headers)
            <-> In h headers /\ image_like h = true).
  { intros h. rewrite Hg, ValidatorFacts.fromkeys_In, filter_In. simpl. tauto. }
  split; [exact Hg |].
  split; [rewrite Hg; apply ValidatorFacts.fromkeys_NoDup |].
  split; [exact Hin |].
  split.
  - intros d c <- Hc. apply Hin. now apply detect_ok_image_like.
  - intros d <-. rewrite detect_raises_without_candidates. split.
    + intros Hnil.
      destruct (filter image_like (DF.columns d)) as [| c0 r] eqn:Ec;
        [reflexivity |].
      assert (Hc : In c0 (ValidateImagesCsv.guess_image_columns (DF.columns d))).
      { apply Hin. apply filter_In. rewrite Ec. now left. }
      rewrite Hnil in Hc. destruct Hc.
    + intros Hnone. rewrite Hg, Hnone. reflexivity.
Qed.

Example validator_and_service_columns :
  ValidateImagesCsv.guess_image_columns
    ["id"; "Thumbnail_URL"; "title"; "image_url"; "Thumbnail_URL"]
  = ["Thumbnail_URL"; "image_url"]
  /\ _detect_image_column
       [("id", ["1"]); ("Thumbnail_URL", ["t.png"]); ("title", ["x"]);
        ("image_url", ["red.png"])]
     = Ok "image_url".
Proof. split; reflexivity. Qed.

(** ** The catalog updater *)

Module UpdateFacts.

Import UpdateMetadata.

Lemma str_int_inj (a b : Z) : str_int a = str_int b -> a = b.
Proof.
  unfold str_int. intros H.
  assert (Hnil : forall z,
            NilZero.int_of_string (NilZero.string_of_int (Z.to_int z))
            = Some (Z.to_int z)).
  { intros z. apply NilZero.isi; intros Hz;
      pose proof (DecimalZ.of_to z) as E; rewrite Hz in E; simpl in E;
      subst z; discriminate. }
  assert (Hi : Z.to_int a = Z.to_int b).
  { apply (f_equal NilZero.int_of_string) in H.
    rewrite !Hnil in H. now inversion H. }
  apply (f_equal Z.of_int) in Hi. now rewrite !DecimalZ.of_to in Hi.
Qed.

Lemma wrap64_in_range (z : Z) :
  (- 2 ^ 63 <= z < 2 ^ 63)%Z -> wrap64 z = z.
Proof.
  intros H. unfold wrap64. rewrite Z.mod_small; lia.
Qed.

Lemma iter_incr_pyint (np_wrap : Z -> Z) (i : nat) (z : Z) :
  Nat.iter i (incr np_wrap) (PyInt z) = PyInt (z + Z.of_nat i).
Proof.
  induction i as [| i IH]; simpl.
  - now rewrite Z.add_0_r.
  - rewrite IH. simpl. f_equal. lia.
Qed.

Lemma iter_incr_nan (np_wrap : Z -> Z) (i : nat) :
  Nat.iter i (incr np_wrap) NaN = NaN.
Proof. induction i as [| i IH]; simpl; [reflexivity | now rewrite IH]. Qed.

(** As long as no sum wraps around, the counter counts. *)
Lemma iter_incr_npint (np_wrap : Z -> Z) (i : nat) (z : Z) :
  (forall j, j <= i -> np_wrap (z + Z.of_nat j)%Z = (z + Z.of_nat j)%Z) ->
  Nat.iter i (incr np_wrap) (NpInt (np_wrap z)) = NpInt (z + Z.of_nat i).
Proof.
  induction i as [| i IH]; intros H; simpl.
  - specialize (H 0 (le_n 0)). simpl in H. rewrite Z.add_0_r in H.
    now rewrite H, Z.add_0_r.
  - rewrite IH by (intros j Hj; apply H; lia). simpl. f_equal.
    specialize (H (S i) (le_n _)).
    replace (z + Z.of_nat i + 1)%Z with (z + Z.of_nat (S i))%Z by lia.
    exact H.
Qed.

Lemma NoDup_map_injective {A B : Type} (f : A -> B) (l : list A) :
  (forall x y, In x l -> In y l -> f x = f y -> x = y) ->
  NoDup l -> NoDup (map f l).
Proof.
  intros Hinj H. induction H as [| x l Hx _ IH]; simpl; constructor.
  - intros Hin. apply in_map_iff in Hin. destruct Hin as [y [E Hy]].
    apply Hinj in E; [now subst | now right | now left].
  - apply IH. intros a b Ha Hb. apply Hinj; now right.
Qed.

(** Consecutive integers print as pairwise distinct ids. *)
Lemma consecutive_ids_distinct (z : Z) (n : nat) :
  NoDup (map (fun i => str_int (z + Z.of_nat i)) (seq 0 n)).
Proof.
  apply NoDup_map_injective; [| apply seq_NoDup].
  intros x y _ _ E. apply str_int_inj in E. lia.
Qed.

(** In a rectangular frame the names of the records are the [name]
    column. *)
Lemma records_names (d : DataFrame) (v : Series) :
  rectangular d -> DF.get_col_opt "name" d = Some v ->
  map (field "name") (DF.iterrows d) = v.
Proof.
  intros R H.
  assert (Hlen : List.length v = DF.nrows d).
  { apply get_col_opt_In in H. unfold rectangular in R.
    rewrite Forall_forall in R. exact (R _ H). }
  unfold DF.iterrows. rewrite map_map.
  rewrite <- Hlen.
  transitivity (map (fun i => nth i v "") (seq 0 (List.length v))).
  - apply map_ext. intros i. unfold field.
    now rewrite (row_get_row_at "name" i d v H).
  - clear. apply nth_ext with (d := "") (d' := "").
    + now rewrite length_map, length_seq.
    + intros i Hi. rewrite length_map, length_seq in Hi.
      rewrite (nth_indep _ "" (nth 0 v "")) by
        (now rewrite length_map, length_seq).
      rewrite (map_nth (fun i => nth i v "") (seq 0 (List.length v)) 0 i).
      now rewrite seq_nth.
Qed.

Section Libraries.

Variable md5_int : string -> Z.
Variable path_name : string -> string.
Variable to_int : string -> lib_result Z.
Variable np_wrap : Z -> Z.

Local Abbreviation step := (UpdateMetadata.step md5_int path_name np_wrap).

Lemma price_in_range (name : string) :
  (500 <= deterministic_price md5_int name <= 10000)%Z.
Proof.
  unfold deterministic_price. cbv zeta.
  pose proof (Z.mod_pos_bound (md5_int name) (10000 - 500 + 1)) as H.
  lia.
Qed.

Lemma brand_is_listed (name : string) :
  In (deterministic_brand md5_int name) brands.
Proof.
  unfold deterministic_brand. apply nth_In.
  pose proof (Z.mod_pos_bound (md5_int name) (Z.of_nat (List.length brands)))
    as H.
  simpl in *. lia.
Qed.

Lemma new_row_id (st : Merge) (res : Resource) :
  field "id" (new_row md5_int path_name st res) = str_counter (next_id st).
Proof. reflexivity. Qed.

Lemma new_row_name (st : Merge) (res : Resource) :
  field "name" (new_row md5_int path_name st res) = path_name (public_id res).
Proof. reflexivity. Qed.

Lemma grown_refl (st : Merge) : grown path_name np_wrap st st [].
Proof.
  constructor; simpl; try reflexivity.
  - now rewrite app_nil_r.
  - lia.
  - split; [constructor | intros n []].
  - constructor.
Qed.

Lemma grown_step (st0 st : Merge) (added : list DF.Row) (res : Resource) :
  grown path_name np_wrap st0 st added ->
  exists added',
    grown path_name np_wrap st0 (step st res) added'
    /\ (added' = added \/ added' = added ++ [new_row md5_int path_name st res]).
Proof.
  intros [Hr Hn Hc Hnm Hid [Hnd Hfr] Hv].
  unfold UpdateMetadata.step.
  destruct (Str.mem (path_name (public_id res)) (existing_names st)) eqn:E.
  - exists added. split; [constructor; auto | now left].
  - exists (added ++ [new_row md5_int path_name st res]).
    split; [| now right].
    assert (Hnot : ~ In (path_name (public_id res)) (existing_names st)).
    { intros H. apply mem_In in H. congruence. }
    rewrite Hnm in Hnot.
    constructor; cbn [rows next_id existing_names new_count].
    + now rewrite Hr, app_assoc.
    + rewrite Hn, length_app. cbn [List.length].
      rewrite Nat.add_1_r. reflexivity.
    + rewrite Hc, length_app. simpl. lia.
    + rewrite Hnm, map_app, rev_app_distr. reflexivity.
    + rewrite map_app, length_app, Hid. cbn [List.length].
      rewrite Nat.add_1_r, seq_S, map_app. cbn [map Nat.add].
      now rewrite new_row_id, Hn.
    + rewrite map_app. cbn [map]. rewrite new_row_name. split.
      * apply (Permutation_NoDup (Permutation_cons_append _ _)).
        constructor; [| exact Hnd].
        intros H. apply Hnot. apply in_or_app. left. now apply in_rev in H.
      * intros n H. apply in_app_or in H. destruct H as [H | [<- | []]].
        -- now apply Hfr.
        -- intros H. apply Hnot. apply in_or_app. now right.
    + apply Forall_app. split; [exact Hv |].
      constructor; [| constructor].
      exists res, (deterministic_price md5_int (path_name (public_id res))).
      split; [reflexivity |]. split; [reflexivity |].
      split; [reflexivity |]. split; [apply price_in_range |].
      split; [apply brand_is_listed | reflexivity].
Qed.

Lemma step_keeps_names (st : Merge) (res : Resource) (n : string) :
  In n (existing_names st) -> In n (existing_names (step st res)).
Proof.
  intros H. unfold UpdateMetadata.step.
  destruct (Str.mem (path_name (public_id res)) (existing_names st));
    [exact H | now right].
Qed.

Lemma step_records_name (st : Merge) (res : Resource) :
  In (path_name (public_id res)) (existing_names (step st res)).
Proof.
  unfold UpdateMetadata.step.
  destruct (Str.mem (path_name (public_id res)) (existing_names st)) eqn:E;
    [now apply mem_In | now left].
Qed.

Lemma fold_step_keeps_names (l : list Resource) (st : Merge) (n : string) :
  In n (existing_names st) -> In n (existing_names (fold_left step l st)).
Proof.
  revert st. induction l as [| res r IH]; intros st H; simpl; [exact H |].
  apply IH. now apply step_keeps_names.
Qed.

Lemma fold_step_records_names (l : list Resource) (st : Merge)
  (res : Resource) :
  In res l ->
  In (path_name (public_id res)) (existing_names (fold_left step l st)).
Proof.
  revert st. induction l as [| x r IH]; intros st Hin; [destruct Hin |].
  destruct Hin as [-> | H]; simpl.
  - apply fold_step_keeps_names, step_records_name.
  - now apply IH.
Qed.

Lemma fold_step_grown (l : list Resource) (st0 st : Merge)
  (added : list DF.Row) :
  grown path_name np_wrap st0 st added ->
  exists added', grown path_name np_wrap st0 (fold_left step l st) added'.
Proof.
  revert st added. induction l as [| res r IH]; intros st added G; simpl.
  - now exists added.
  - destruct (grown_step st0 st added res G) as [added' [G' _]].
    exact (IH _ _ G').
Qed.

Lemma fold_step_known (l : list Resource) (st : Merge) :
  (forall res, In res l -> In (path_name (public_id res)) (existing_names st)) ->
  fold_left step l st = st.
Proof.
  induction l as [| res r IH]; intros H; simpl; [reflexivity |].
  assert (E : step st res = st).
  { unfold UpdateMetadata.step.
    assert (Hm : Str.mem (path_name (public_id res)) (existing_names st) = true)
      by (apply mem_In, H; now left).
    now rewrite Hm. }
  rewrite E. apply IH. intros res' Hin. apply H. now right.
Qed.

Lemma merge_concat (pages : list (list Resource)) (st : Merge) :
  UpdateMetadata.merge md5_int path_name np_wrap pages st
  = fold_left step (List.concat pages) st.
Proof.
  unfold UpdateMetadata.merge. revert st.
  induction pages as [| page r IH]; intros st; simpl; [reflexivity |].
  now rewrite fold_left_app, IH.
Qed.

(** What [start] has set up when it returns. *)
Lemma start_inv (existing : option DataFrame) (st0 : Merge) :
  start to_int np_wrap existing = Ok st0 ->
  new_count st0 = 0
  /\ (existing = None ->
      rows st0 = [] /\ existing_names st0 = [] /\ next_id st0 = PyInt 1)
  /\ (forall d,
        existing = Some d ->
        exists ids names ns,
          DF.get_col_opt "id" d = Some ids
          /\ DF.get_col_opt "name" d = Some names
          /\ astype_int to_int ids = Returns ns
          /\ rows st0 = DF.iterrows d
          /\ existing_names st0 = names
          /\ next_id st0 = max_plus_one np_wrap ns).
Proof.
  unfold start, column. destruct existing as [d |].
  - destruct (DF.get_col_opt "id" d) as [ids |] eqn:Ei; cbn [bind];
      [| discriminate].
    destruct (astype_int to_int ids) as [ns | c m] eqn:En; cbn [call bind];
      [| discriminate].
    destruct (DF.get_col_opt "name" d) as [names |] eqn:Em; cbn [bind];
      [| discriminate].
    intros H. inversion H; subst st0; clear H.
    cbn [rows next_id existing_names new_count].
    split; [reflexivity |]. split; [discriminate |].
    intros d' E. inversion E; subst d'.
    exists ids, names, ns.
    split; [exact Ei |]. split; [exact Em |]. split; [exact En |].
    split; [reflexivity |]. split; reflexivity.
  - intros H. inversion H; subst st0; clear H.
    cbn [rows next_id existing_names new_count].
    split; [reflexivity |].
    split; [intros _; split; [| split]; reflexivity |]. discriminate.
Qed.

Lemma astype_int_length (ids : Series) (ns : list Z) :
  astype_int to_int ids = Returns ns -> List.length ns = List.length ids.
Proof.
  revert ns. induction ids as [| s r IH]; intros ns; simpl.
  - intros H. now inversion H.
  - destruct (to_int s); [| discriminate].
    destruct (astype_int to_int r); [| discriminate].
    intros H. inversion H. simpl. f_equal. now apply IH.
Qed.

End Libraries.

End UpdateFacts.

Section Updater.

Variable md5_int : string -> Z.
Variable path_name : string -> string.
Variable to_int : string -> lib_result Z.
Variable np_wrap : Z -> Z.

(** X19: the updater only appends. Whatever pages the image service hands
    out, the rows after the loop are the rows before it followed by one new
    six-field row for each resource name not known before, in order of first
    appearance: the new names are pairwise distinct and none was known, every
    resource's name is known afterwards, [new_count] counts the new rows,
    every new price is between 500 and 10000 and every new brand is one of
    the eight brands. The new ids are the successive values of [next_id]:
    [1], [2], ... when there was no CSV; [max + 1], [max + 2], ... of the
    existing ids when the CSV has rows (as long as they fit the integer
    type of the column), pairwise distinct in both cases; and ['nan'] for
    every new row when the CSV exists and has no rows. *)
Theorem update_appends_each_new_name_once
  (pages : list (list UpdateMetadata.Resource))
  (existing : option DataFrame) (st0 : UpdateMetadata.Merge) :
  UpdateMetadata.start to_int np_wrap existing = Ok st0 ->
  let st := UpdateMetadata.merge md5_int path_name np_wrap pages st0 in
  exists added,
    UpdateMetadata.rows st = UpdateMetadata.rows st0 ++ added
    /\ UpdateMetadata.new_count st = List.length added
    /\ map (UpdateMetadata.field "id") added
       = map (fun i => UpdateMetadata.str_counter
                         (Nat.iter i (UpdateMetadata.incr np_wrap)
                            (UpdateMetadata.next_id st0)))
             (seq 0 (List.length added))
    /\ (existing = None ->
        UpdateMetadata.rows st0 = []
        /\ map (UpdateMetadata.field "id") added
           = map (fun i => UpdateMetadata.str_int (1 + Z.of_nat i))
                 (seq 0 (List.length added))
        /\ NoDup (map (UpdateMetadata.field "id") added))
    /\ (forall d,
          existing = Some d ->
          UpdateMetadata.rows st0 = DF.iterrows d
          /\ exists ns,
               UpdateMetadata.astype_int to_int (DF.get_col "id" d)
               = Returns ns
               /\ List.length ns = List.length (DF.get_col "id" d)
               /\ (ns = [] ->
                   Forall (fun i => i = "nan")
                          (map (UpdateMetadata.field "id") added))
               /\ (forall z r,
                     ns = z :: r ->
                     let top := fold_left Z.max r z in
                     (forall j, j < List.length added ->
                                np_wrap (top + 1 + Z.of_nat j)%Z
                                = (top + 1 + Z.of_nat j)%Z) ->
                     map (UpdateMetadata.field "id") added
                     = map (fun i => UpdateMetadata.str_int
                                       (top + 1 + Z.of_nat i))
                           (seq 0 (List.length added))
                     /\ NoDup (map (UpdateMetadata.field "id") added)))
    /\ NoDup (map (UpdateMetadata.field "name") added)
    /\ (forall n, In n (map (UpdateMetadata.field "name") added) ->
                  ~ In n (UpdateMetadata.existing_names st0))
    /\ (forall res,
          In res (List.concat pages) ->
          In (path_name (UpdateMetadata.public_id res))
             (UpdateMetadata.existing_names st0)
          \/ In (path_name (UpdateMetadata.public_id res))
                (map (UpdateMetadata.field "name") added))
    /\ Forall (fun r =>
                 exists res p,
                   UpdateMetadata.field "name" r
                   = path_name (UpdateMetadata.public_id res)
                   /\ UpdateMetadata.field "image_url" r
                      = UpdateMetadata.secure_url res
                   /\ UpdateMetadata.field "price" r
                      = UpdateMetadata.str_int p
                   /\ (500 <= p <= 10000)%Z
                   /\ In (UpdateMetadata.field "brand" r)
                         UpdateMetadata.brands
                   /\ map fst r
                      = ["id"; "name"; "price"; "brand"; "description";
                         "image_url"])
              added.
Proof.
  intros Hstart st. subst st. rewrite UpdateFacts.merge_concat.
  destruct (UpdateFacts.start_inv to_int np_wrap existing st0 Hstart)
    as [Hzero [Hfresh Hloaded]].
  destruct (UpdateFacts.fold_step_grown md5_int path_name np_wrap (List.concat pages)
              st0 st0 [] (UpdateFacts.grown_refl path_name np_wrap st0))
    as [added [Hr Hn Hc Hnm Hid [Hnd Hfr] Hv]].
  exists added.
  split; [exact Hr |]. split; [now rewrite Hc, Hzero |].
  split; [exact Hid |].
  split.
  { intros E. destruct (Hfresh E) as [Hrows [_ Hnext]].
    split; [exact Hrows |].
    assert (Hids : map (UpdateMetadata.field "id") added
                   = map (fun i => UpdateMetadata.str_int (1 + Z.of_nat i))
                         (seq 0 (List.length added))).
    { rewrite Hid, Hnext. apply map_ext. intros i.
      now rewrite UpdateFacts.iter_incr_pyint. }
    split; [exact Hids |].
    rewrite Hids. apply UpdateFacts.consecutive_ids_distinct. }
  split.
  { intros d E.
    destruct (Hloaded d E)
      as [ids [names [ns [Hi [_ [Hns [Hrows [_ Hnext]]]]]]]].
    split; [exact Hrows |].
    exists ns. unfold DF.get_col. rewrite Hi.
    split; [exact Hns |].
    split; [exact (UpdateFacts.astype_int_length to_int ids ns Hns) |].
    split.
    - intros ->. rewrite Hid, Hnext. cbn [UpdateMetadata.max_plus_one].
      apply Forall_forall. intros x Hx. apply in_map_iff in Hx.
      destruct Hx as [i [<- _]].
      now rewrite UpdateFacts.iter_incr_nan.
    - intros z r -> Hfit.
      assert (Hids : map (UpdateMetadata.field "id") added
                     = map (fun i => UpdateMetadata.str_int
                                       (fold_left Z.max r z + 1 + Z.of_nat i))
                           (seq 0 (List.length added))).
      { rewrite Hid, Hnext. cbn [UpdateMetadata.max_plus_one].
        apply map_ext_in. intros i Hi'. apply in_seq in Hi'.
        rewrite UpdateFacts.iter_incr_npint
          by (intros j Hj; apply Hfit; lia).
        reflexivity. }
      split; [exact Hids |].
      rewrite Hids. apply UpdateFacts.consecutive_ids_distinct. }
  split; [exact Hnd |]. split; [exact Hfr |].
  split; [| exact Hv].
  intros res Hin.
  pose proof (UpdateFacts.fold_step_records_names md5_int path_name np_wrap
                (List.concat pages) st0 res Hin) as Hk.
  rewrite Hnm in Hk. apply in_app_or in Hk.
  destruct Hk as [Hk | Hk]; [right; now apply in_rev | now left].
Qed.

(** X20: a second run adds nothing when the names come back from the file
    as they were written. Let the first run end with [rows], and let the
    second start from the frame pandas reads from the file the first has
    written. If the [name] column of that frame holds the name of every
    row the first run handed to the writer, the second run finds every
    resource known: no new row, no id used, [new_count] zero. *)
Theorem update_twice_adds_nothing
  (pages : list (list UpdateMetadata.Resource))
  (existing : option DataFrame) (st0 : UpdateMetadata.Merge)
  (reread : DataFrame) (st2 : UpdateMetadata.Merge) :
  (forall d, existing = Some d -> rectangular d) ->
  UpdateMetadata.start to_int np_wrap existing = Ok st0 ->
  UpdateMetadata.start to_int np_wrap (Some reread) = Ok st2 ->
  (forall r,
     In r (UpdateMetadata.rows
             (UpdateMetadata.merge md5_int path_name np_wrap pages st0)) ->
     In (UpdateMetadata.field "name" r) (DF.get_col "name" reread)) ->
  UpdateMetadata.merge md5_int path_name np_wrap pages st2 = st2
  /\ UpdateMetadata.new_count
       (UpdateMetadata.merge md5_int path_name np_wrap pages st2) = 0.
Proof.
  intros Hrect Hstart Hstart2 Hback.
  destruct (UpdateFacts.start_inv to_int np_wrap existing st0 Hstart)
    as [_ [Hfresh Hloaded]].
  destruct (UpdateFacts.start_inv to_int np_wrap (Some reread) st2 Hstart2)
    as [Hzero [_ Hloaded2]].
  destruct (Hloaded2 reread eq_refl)
    as [ids2 [names2 [ns2 [_ [Hn2 [_ [_ [Hnames2 _]]]]]]]].
  assert (Hcol : DF.get_col "name" reread = UpdateMetadata.existing_names st2)
    by (unfold DF.get_col; now rewrite Hn2, Hnames2).
  rewrite Hcol in Hback.
  assert (Hsame : UpdateMetadata.merge md5_int path_name np_wrap pages st2 = st2).
  { rewrite UpdateFacts.merge_concat.
    apply UpdateFacts.fold_step_known.
    intros res Hin. rewrite UpdateFacts.merge_concat in Hback.
    destruct (UpdateFacts.fold_step_grown md5_int path_name np_wrap
                (List.concat pages) st0 st0 []
                (UpdateFacts.grown_refl path_name np_wrap st0))
      as [added [Hr _ _ Hnm _ _ _]].
    pose proof (UpdateFacts.fold_step_records_names md5_int path_name np_wrap
                  (List.concat pages) st0 res Hin) as Hk.
    rewrite Hnm in Hk. rewrite Hr in Hback.
    assert (Hrows0 : forall n, In n (UpdateMetadata.existing_names st0) ->
                               In n (map (UpdateMetadata.field "name")
                                         (UpdateMetadata.rows st0))).
    { destruct existing as [d |].
      - destruct (Hloaded d eq_refl)
          as [ids [names [ns [_ [Hn [_ [Hrows [Hnames _]]]]]]]].
        rewrite Hrows, Hnames.
        rewrite (UpdateFacts.records_names d names (Hrect d eq_refl) Hn).
        auto.
      - destruct (Hfresh eq_refl) as [_ [Hnames _]].
        rewrite Hnames. intros n []. }
    assert (Hin_rows : In (path_name (UpdateMetadata.public_id res))
                          (map (UpdateMetadata.field "name")
                               (UpdateMetadata.rows st0 ++ added))).
    { rewrite map_app. apply in_or_app. apply in_app_or in Hk.
      destruct Hk as [Hk | Hk]; [right; now apply in_rev | left; auto]. }
    apply in_map_iff in Hin_rows. destruct Hin_rows as [r [<- Hr']].
    now apply Hback. }
  split; [exact Hsame |]. now rewrite Hsame.
Qed.

End Updater.

Lemma update_appends_each_new_name_once_witness :
  UpdateMetadata.start UpdateMetadata.demo_to_int UpdateMetadata.wrap64
    (Some UpdateMetadata.demo_catalog)
  = Ok UpdateMetadata.demo_loaded
  /\ exists added,
       UpdateMetadata.rows
         (UpdateMetadata.merge UpdateMetadata.demo_md5
            UpdateMetadata.demo_path_name UpdateMetadata.wrap64 UpdateMetadata.demo_pages
            UpdateMetadata.demo_loaded)
       = UpdateMetadata.rows UpdateMetadata.demo_loaded ++ added
       /\ UpdateMetadata.new_count
            (UpdateMetadata.merge UpdateMetadata.demo_md5
               UpdateMetadata.demo_path_name UpdateMetadata.wrap64 UpdateMetadata.demo_pages
               UpdateMetadata.demo_loaded)
          = List.length added
       /\ NoDup (map (UpdateMetadata.field "name") added).
Proof.
  split; [reflexivity |].
  destruct (update_appends_each_new_name_once UpdateMetadata.demo_md5
              UpdateMetadata.demo_path_name UpdateMetadata.demo_to_int UpdateMetadata.wrap64
              UpdateMetadata.demo_pages (Some UpdateMetadata.demo_catalog)
              UpdateMetadata.demo_loaded eq_refl)
    as [added [Hr [Hc [_ [_ [_ [Hnd _]]]]]]].
  exists added. split; [exact Hr |]. split; [exact Hc | exact Hnd].
Defined.

Lemma update_twice_adds_nothing_witness :
  UpdateMetadata.merge UpdateMetadata.demo_md5 UpdateMetadata.demo_path_name UpdateMetadata.wrap64
    UpdateMetadata.demo_pages UpdateMetadata.demo_reloaded
  = UpdateMetadata.demo_reloaded
  /\ UpdateMetadata.new_count
       (UpdateMetadata.merge UpdateMetadata.demo_md5
          UpdateMetadata.demo_path_name UpdateMetadata.wrap64 UpdateMetadata.demo_pages
          UpdateMetadata.demo_reloaded)
     = 0.
Proof.
  apply (update_twice_adds_nothing UpdateMetadata.demo_md5
           UpdateMetadata.demo_path_name UpdateMetadata.demo_to_int UpdateMetadata.wrap64
           UpdateMetadata.demo_pages None UpdateMetadata.demo_fresh
           UpdateMetadata.demo_reread UpdateMetadata.demo_reloaded).
  - intros d E. discriminate E.
  - reflexivity.
  - reflexivity.
  - intros r H. vm_compute in H.
    destruct H as [<- | [<- | [<- | []]]]; vm_compute; tauto.
Defined.

(** The ids on an existing CSV without rows: [max()] of the empty column is
    [nan], [nan + 1] is [nan], and every row added gets the id ['nan']. *)
Example update_of_empty_csv_numbers_rows_nan :
  option_map
    (fun st =>
       map (fun r => (UpdateMetadata.field "id" r,
                      UpdateMetadata.field "name" r))
           (UpdateMetadata.rows
              (UpdateMetadata.merge UpdateMetadata.demo_md5
                 UpdateMetadata.demo_path_name UpdateMetadata.wrap64 UpdateMetadata.demo_pages st)))
    (match UpdateMetadata.start UpdateMetadata.demo_to_int UpdateMetadata.wrap64
             (Some UpdateMetadata.header_only) with
     | Ok st => Some st
     | Raise _ => None
     end)
  = Some [("nan", "cup"); ("nan", "lamp"); ("nan", "vase")].
Proof. vm_compute. reflexivity. Qed.

(** A name that does not come back: the image [NA] is written under the
    name [NA], pandas reads that cell as missing, and the second run, which
    finds the name [""] in the file, adds the image again. *)
Example update_twice_adds_a_name_read_as_missing :
  map (UpdateMetadata.field "name")
      (UpdateMetadata.rows
         (UpdateMetadata.merge UpdateMetadata.demo_md5
            UpdateMetadata.demo_path_name UpdateMetadata.wrap64 UpdateMetadata.na_pages
            UpdateMetadata.demo_fresh))
  = ["NA"]
  /\ option_map
       (fun st =>
          let st' := UpdateMetadata.merge UpdateMetadata.demo_md5
                       UpdateMetadata.demo_path_name UpdateMetadata.wrap64 UpdateMetadata.na_pages
                       st in
          (UpdateMetadata.new_count st',
           map (fun r => (UpdateMetadata.field "id" r,
                          UpdateMetadata.field "name" r))
               (UpdateMetadata.rows st')))
       (match UpdateMetadata.start UpdateMetadata.demo_to_int UpdateMetadata.wrap64
                (Some UpdateMetadata.na_reread) with
        | Ok st => Some st
        | Raise _ => None
        end)
     = Some (1, [("1", ""); ("2", "NA")]).
Proof. split; vm_compute; reflexivity. Qed.

Example update_skips_known_and_repeated_names :
  option_map
    (fun st =>
       map (fun r => (UpdateMetadata.field "id" r,
                      UpdateMetadata.field "name" r,
                      UpdateMetadata.field "price" r))
           (UpdateMetadata.rows
              (UpdateMetadata.merge UpdateMetadata.demo_md5
                 UpdateMetadata.demo_path_name UpdateMetadata.wrap64 UpdateMetadata.demo_pages st)))
    (match UpdateMetadata.start UpdateMetadata.demo_to_int UpdateMetadata.wrap64
             (Some (UpdateMetadata.six_columns
                      ["7"] ["cup"] ["900"] ["Acme"] [""] ["u0"])) with
     | Ok st => Some st
     | Raise _ => None
     end)
  = Some [("7", "cup", "900"); ("8", "lamp", "504"); ("9", "vase", "504")].
Proof. vm_compute. reflexivity. Qed.
